(** * Reference model of the Viterbi decoder (ReferenceModel.py)

    A shallow embedding of [src/verification/reference_model/ReferenceModel.py]
    and the properties its specification states about it.

    - Python integers are [Z]; Python lists are [list], read with Python's
      indexing rule (negative indices count from the end, anything else out
      of range raises [IndexError]) and written in place with list insert.
    - A floating-point value is an IEEE-754 number ([spec_float] of the
      Standard Library) or a NaN with its sign and mantissa field.  A
      [numpy.float32] is such a value of binary32 (precision 24, [emax] 128):
      addition and comparison are the Standard Library's [SFadd] and
      [SFcompare]; [F32.of_bits] and [F32.to_bits] relate it to its 32-bit
      pattern.  A Python [float] is such a value of binary64, and the C
      conversions between the two formats are written out.
    - Text is [string]; [int()], [str.strip()] and the two number formats
      used by the program are written out for ASCII text.
    - A Python call either returns a value or raises: type [result]. *)

From Stdlib Require Import ZArith Lia Bool List String Ascii SpecFloat.
From Stdlib Require Import DecimalString DecimalPos.
From stdpp Require Import base tactics option list.

Local Open Scope string_scope.
Local Open Scope Z_scope.

(** ** Python outcomes *)

Inductive exn : Type :=
  | ValueError
  | StructError
  | IndexError.

Inductive result (A : Type) : Type :=
  | Ok (a : A)
  | Raise (e : exn).
Arguments Ok {A} a.
Arguments Raise {A} e.

#[global] Instance result_ret : MRet result := fun _ a => Ok a.
#[global] Instance result_bind : MBind result := fun _ _ k r =>
  match r with
  | Ok a => k a
  | Raise e => Raise e
  end.

(** ** Floating-point values

    A value of an IEEE-754 binary format: a number (zero, finite, infinite),
    or a NaN with its sign and its mantissa field (quiet bit and payload).
    Both [numpy.float32] (binary32) and Python's [float] (binary64) are
    values of this type. *)

Inductive fp : Type :=
  | Num (x : spec_float)
  | NaN (s : bool) (m : Z).

Module F32.

Definition prec : Z := 24.
Definition emax : Z := 128.

(** Fields of a 32-bit pattern: bit 31, bits 30..23, bits 22..0. *)
Definition sign_bit (w : Z) : bool := (w / 2147483648) mod 2 =? 1.
Definition exp_field (w : Z) : Z := (w / 8388608) mod 256.
Definition man_field (w : Z) : Z := w mod 8388608.

Definition sign_word (s : bool) : Z := if s then 2147483648 else 0.

(** The binary32 value a 32-bit pattern stands for. *)
Definition of_bits (w : Z) : fp :=
  let s := sign_bit w in
  let e := exp_field w in
  let m := man_field w in
  if e =? 255 then
    if m =? 0 then Num (S754_infinity s) else NaN s m
  else if e =? 0 then
    match m with
    | Zpos p => Num (S754_finite s p (-149))
    | _ => Num (S754_zero s)
    end
  else
    match m + 8388608 with
    | Zpos p => Num (S754_finite s p (e - 150))
    | _ => Num (S754_zero s)
    end.

(** The 32-bit pattern of a binary32 value. *)
Definition to_bits (x : fp) : Z :=
  match x with
  | Num (S754_zero s) => sign_word s
  | Num (S754_infinity s) => sign_word s + 2139095040
  | Num S754_nan => 2143289344
  | Num (S754_finite s m e) =>
      if Zpos m <? 8388608 then sign_word s + Zpos m
      else sign_word s + (e + 150) * 8388608 + (Zpos m - 8388608)
  | NaN s m => sign_word s + 2139095040 + m
  end.

(** The values of the format: numbers with a canonical mantissa and
    exponent, and NaNs with a non-zero 23-bit mantissa field. *)
Definition valid (x : fp) : Prop :=
  match x with
  | Num S754_nan => False
  | Num f => valid_binary prec emax f = true
  | NaN _ m => 1 <= m < 8388608
  end.

(** A NaN whose bit 22 is clear is a signalling NaN. *)
Definition is_snan (x : fp) : bool :=
  match x with
  | NaN _ m => negb (Z.testbit m 22)
  | Num _ => false
  end.

Definition is_nan (x : fp) : bool :=
  match x with
  | NaN _ _ | Num S754_nan => true
  | Num _ => false
  end.

(** Zero, subnormal or normal: neither infinite nor NaN. *)
Definition is_finite (x : fp) : bool :=
  match x with
  | Num (S754_zero _) | Num (S754_finite _ _ _) => true
  | _ => false
  end.

(** A log-probability: zero, a negative number or negative infinity. *)
Definition is_log_prob (x : fp) : bool :=
  match x with
  | Num (S754_zero _) | Num (S754_finite true _ _)
  | Num (S754_infinity true) => true
  | _ => false
  end.

(** The NaN an invalid operation produces.  IEEE 754 leaves its sign and
    payload open; nothing the reference model outputs depends on them. *)
Definition default_nan : fp := NaN false 4194304.

Definition of_SF (f : spec_float) : fp :=
  match f with
  | S754_nan => default_nan
  | _ => Num f
  end.

Definition zero : fp := Num (S754_zero false).        (* np.float32(0.0) *)
Definition neg_inf : fp := Num (S754_infinity true).  (* np.float32(-np.inf) *)

(** [x + y] on two numpy.float32 values: round to nearest, ties to even. *)
Definition add (x y : fp) : fp :=
  match x, y with
  | Num a, Num b => of_SF (SFadd prec emax a b)
  | _, _ => default_nan
  end.

(** [x > y] on two numpy.float32 values: false when either is a NaN. *)
Definition gt (x y : fp) : bool :=
  match x, y with
  | Num a, Num b => SFltb b a
  | _, _ => false
  end.

(** [x == y]: numeric equality, false when either is a NaN. *)
Definition eqb (x y : fp) : bool :=
  match x, y with
  | Num a, Num b => SFeqb a b
  | _, _ => false
  end.

(** [x <= y], used to state maximality. *)
Definition le (x y : fp) : bool :=
  match x, y with
  | Num a, Num b => SFleb a b
  | _, _ => false
  end.

End F32.

(** ** The C conversions between binary32 and binary64

    [struct] and [numpy] exchange values through Python's [float], a C
    double.  The conversion float -> double is exact on numbers; as every
    IEEE 754 format conversion it returns a quiet NaN for any NaN, keeping
    the sign and the payload.  The conversion double -> float rounds to
    nearest even; of a NaN it keeps the sign and the high payload bits. *)

Definition float_to_double (x : fp) : fp :=
  match x with
  | NaN s m => NaN s (Z.lor m 4194304 * 536870912)
  | Num (S754_finite s m e) => Num (binary_round 53 1024 s m e)
  | Num f => Num f
  end.

Definition double_to_float (d : fp) : fp :=
  match d with
  | NaN s m => NaN s (Z.lor ((m / 536870912) mod 8388608) 4194304)
  | Num (S754_finite s m e) => Num (binary_round F32.prec F32.emax s m e)
  | Num f => Num f
  end.

(** [struct.pack('I', v)]: the four bytes of [v], kept as the 32-bit word they
    spell in native order; [struct.error] outside [0, 2^32). *)
Definition struct_pack_I (v : Z) : result Z :=
  if (0 <=? v) && (v <? 4294967296) then Ok v else Raise StructError.

(** [struct.unpack('f', bytes)[0]]: the binary32 value of the bytes, as a
    Python float. *)
Definition struct_unpack_f (bytes : Z) : fp :=
  float_to_double (F32.of_bits bytes).

(** [np.float32(d)] on a Python float. *)
Definition np_float32 (d : fp) : fp := double_to_float d.

(** [struct.pack('f', x)] on a numpy.float32: [float(x)] converted back to a
    C float, whose four bytes are written. *)
Definition struct_pack_f (x : fp) : Z :=
  F32.to_bits (double_to_float (float_to_double x)).

(** [struct.unpack('I', bytes)[0]]. *)
Definition struct_unpack_I (bytes : Z) : Z := bytes.

(** ** Text: [str.strip], [int(text, base)], number formatting *)

Definition LF : ascii := "010"%char.
Definition CR : ascii := "013"%char.
Definition nl : string := String LF EmptyString.

Definition code (c : ascii) : Z := Z.of_nat (nat_of_ascii c).

(** Whitespace of [str.strip()] within ASCII. *)
Definition is_space (c : ascii) : bool :=
  let n := code c in
  ((9 <=? n) && (n <=? 13)) || ((28 <=? n) && (n <=? 32)).

Fixpoint lstrip (s : string) : string :=
  match s with
  | String c r => if is_space c then lstrip r else s
  | EmptyString => s
  end.

Fixpoint rstrip (s : string) : string :=
  match s with
  | EmptyString => EmptyString
  | String c r =>
      match rstrip r with
      | EmptyString => if is_space c then EmptyString else String c EmptyString
      | r' => String c r'
      end
  end.

Definition py_strip (s : string) : string := rstrip (lstrip s).

(** Whitespace skipped by [int()] around the literal. *)
Definition is_c_space (c : ascii) : bool :=
  let n := code c in
  ((9 <=? n) && (n <=? 13)) || (n =? 32).

Fixpoint lskip (s : string) : string :=
  match s with
  | String c r => if is_c_space c then lskip r else s
  | EmptyString => s
  end.

Fixpoint rskip (s : string) : string :=
  match s with
  | EmptyString => EmptyString
  | String c r =>
      match rskip r with
      | EmptyString => if is_c_space c then EmptyString else String c EmptyString
      | r' => String c r'
      end
  end.

Definition digit_val (c : ascii) : option Z :=
  let n := code c in
  if (48 <=? n) && (n <=? 57) then Some (n - 48)
  else if (97 <=? n) && (n <=? 122) then Some (n - 87)
  else if (65 <=? n) && (n <=? 90) then Some (n - 55)
  else None.

(** Digits of a literal; a single underscore may separate two digits. *)
Fixpoint parse_digits (base : Z) (s : string) (acc : Z) (after_digit : bool)
  : option Z :=
  match s with
  | EmptyString => if after_digit then Some acc else None
  | String c r =>
      if Ascii.eqb c "_" then
        if after_digit then parse_digits base r acc false else None
      else
        match digit_val c with
        | Some d =>
            if d <? base then parse_digits base r (acc * base + d) true
            else None
        | None => None
        end
  end.

(** After the sign, base 16 accepts a [0x] or [0X] prefix, which one
    underscore may follow. *)
Definition skip_prefix (base : Z) (s : string) : string :=
  match s with
  | String c0 (String c1 r) =>
      if (base =? 16) && Ascii.eqb c0 "0" &&
         (Ascii.eqb c1 "x" || Ascii.eqb c1 "X") then
        match r with
        | String c2 r' => if Ascii.eqb c2 "_" then r' else r
        | EmptyString => r
        end
      else s
  | _ => s
  end.

(** An optional sign in front of the digits. *)
Definition split_sign (s : string) : bool * string :=
  match s with
  | String c r =>
      if Ascii.eqb c "-" then (true, r)
      else if Ascii.eqb c "+" then (false, r)
      else (false, s)
  | EmptyString => (false, s)
  end.

(** The digit characters of a literal: underscores are not counted. *)
Fixpoint count_digits (s : string) : Z :=
  match s with
  | EmptyString => 0
  | String c r =>
      if Ascii.eqb c "_" then count_digits r else 1 + count_digits r
  end.

(** [sys.int_info.default_max_str_digits]: in a base that is not a power of
    two, CPython's [int()] refuses a literal of more digits. *)
Definition max_str_digits : Z := 4300.

(** [(base & (base - 1)) == 0] *)
Definition binary_base (base : Z) : bool := Z.land base (base - 1) =? 0.

(** [int(text, base)] for base 10 and 16 on ASCII text: surrounding
    whitespace, sign, prefix, digits, and the limit on the number of
    digits, which applies to base 10 and not to base 16. *)
Definition py_int (base : Z) (text : string) : result Z :=
  let '(neg, s) := split_sign (rskip (lskip text)) in
  let literal := skip_prefix base s in
  match parse_digits base literal 0 false with
  | Some v =>
      if negb (binary_base base) && (max_str_digits <? count_digits literal)
      then Raise ValueError
      else Ok (if neg then - v else v)
  | None => Raise ValueError
  end.

Definition hex_char (d : Z) : ascii :=
  ascii_of_nat (Z.to_nat (if d <? 10 then 48 + d else 55 + d)).

(** Hexadecimal digits of a non-negative integer, least significant first. *)
Fixpoint hex_digits (fuel : nat) (v : Z) : list Z :=
  match fuel with
  | O => []
  | S k => (v mod 16) :: (if v / 16 =? 0 then [] else hex_digits k (v / 16))
  end.

Definition string_of_chars (l : list ascii) : string :=
  fold_right String EmptyString l.

Definition pad_zeros (width : nat) (l : list ascii) : list ascii :=
  repeat "0"%char (width - length l) ++ l.

(** [f"{v:08X}"] for a non-negative integer. *)
Definition format_08X (v : Z) : string :=
  string_of_chars
    (pad_zeros 8 (map hex_char (rev (hex_digits (S (Z.to_nat (Z.log2 v))) v)))).

(** [f"{v}"] for an integer of at most 4300 digits, as are the integers
    [main] writes: 0 and state indices. *)
Definition format_int (v : Z) : string :=
  DecimalString.NilZero.string_of_int (Z.to_int v).

(** ** The codec of the reference model *)

(** [hex_to_float]: any exception raised while converting is caught, an error
    line is printed and [np.float32(0.0)] is returned. *)
Definition hex_to_float (hex_str : string) : result fp :=
  match
    int_val ← py_int 16 hex_str;
    bytes ← struct_pack_I int_val;
    Ok (np_float32 (struct_unpack_f bytes))
  with
  | Ok v => Ok v
  | Raise _ => Ok (np_float32 (Num (S754_zero false)))
  end.

(** The three ways [main] calls [write_output_val]. *)
Inductive out_val : Type :=
  | OutFloat (val : fp)     (* a numpy.float32, is_float=True *)
  | OutInt (val : Z)        (* an int *)
  | OutStr (val : string).  (* a str *)

(** [write_output_val(f, val, is_float)]: the text appended to [f]. *)
Definition write_output_val (f : string) (val : out_val) : string :=
  match val with
  | OutFloat v =>
      let float32_val := v in
      let hex_val := struct_unpack_I (struct_pack_f float32_val) in
      f ++ format_08X hex_val ++ nl
  | OutInt v => f ++ format_int v ++ nl
  | OutStr v => f ++ v ++ nl
  end.

(** ** Python lists *)

(** Position [i] of a list of length [n] under Python's indexing rule. *)
Definition norm_index (n : nat) (i : Z) : option nat :=
  let k := if i <? 0 then i + Z.of_nat n else i in
  if (0 <=? k) && (k <? Z.of_nat n) then Some (Z.to_nat k) else None.

(** [l[i]] *)
Definition py_index {A : Type} (l : list A) (i : Z) : result A :=
  match norm_index (length l) i ≫= (l !!.) with
  | Some x => Ok x
  | None => Raise IndexError
  end.

(** [l[i] = x] *)
Definition py_setitem {A : Type} (l : list A) (i : Z) (x : A)
  : result (list A) :=
  match norm_index (length l) i with
  | Some k => Ok (<[k := x]> l)
  | None => Raise IndexError
  end.

(** [M[t][j]] *)
Definition py_index2 {A : Type} (M : list (list A)) (t j : Z) : result A :=
  row ← py_index M t; py_index row j.

(** [M[t][j] = x]: the row object [M[t]] is updated in place. *)
Definition py_setitem2 {A : Type} (M : list (list A)) (t j : Z) (x : A)
  : result (list (list A)) :=
  row ← py_index M t;
  row' ← py_setitem row j x;
  py_setitem M t row'.

(** [for k in range(lo, lo + count): s = body(k, s)] *)
Fixpoint for_range {St : Type} (lo : Z) (count : nat)
    (body : Z -> St -> result St) (s : St) : result St :=
  match count with
  | O => Ok s
  | S c => s' ← body lo s; for_range (lo + 1) c body s'
  end.

(** [for k in range(hi, hi - count, -1): s = body(k, s)] *)
Fixpoint for_down {St : Type} (hi : Z) (count : nat)
    (body : Z -> St -> result St) (s : St) : result St :=
  match count with
  | O => Ok s
  | S c => s' ← body hi s; for_down (hi - 1) c body s'
  end.

(** ** The decoder *)

Definition matrix : Type := list (list fp).

(** The two DP tables of one call. *)
Record tables : Type := Tables { tV : list (list fp); tB : list (list Z) }.

Section Viterbi.

Variables (n m : Z) (a_matrix b_matrix : matrix) (obs_sequence : list Z).

(** Body of the initialization loop, for state [j]. *)
Definition init_body (obs_idx : Z) (j : Z) (tb : tables) : result tables :=
  a_0j ← py_index2 a_matrix 0 j;
  b_j_o1 ← py_index2 b_matrix j obs_idx;
  V ← py_setitem2 (tV tb) 0 j (F32.add a_0j b_j_o1);
  B ← py_setitem2 (tB tb) 0 j 0;
  Ok (Tables V B).

(** Body of the innermost loop: predecessor [i] for state [j] at time [t];
    the loop state is [(max_prob, max_state)]. *)
Definition scan_body (V : list (list fp)) (t j : Z) (i : Z) (s : fp * Z)
  : result (fp * Z) :=
  let '(max_prob, max_state) := s in
  v ← py_index2 V (t - 1) i;
  a_ij ← py_index2 a_matrix (i + 1) j;
  let prob := F32.add v a_ij in
  if F32.gt prob max_prob then Ok (prob, i) else Ok (max_prob, max_state).

(** Body of the loop over the current state [j] at time [t]. *)
Definition state_body (t obs_idx : Z) (j : Z) (tb : tables) : result tables :=
  '(max_prob, max_state) ←
    for_range 0 (Z.to_nat n) (scan_body (tV tb) t j) (F32.neg_inf, 0);
  b_j_o ← py_index2 b_matrix j obs_idx;
  V ← py_setitem2 (tV tb) t j (F32.add max_prob b_j_o);
  B ← py_setitem2 (tB tb) t j max_state;
  Ok (Tables V B).

(** Body of the loop over time, [t] in [range(1, T)]. *)
Definition time_body (t : Z) (tb : tables) : result tables :=
  o ← py_index obs_sequence t;
  let obs_idx := o - 1 in
  for_range 0 (Z.to_nat n) (state_body t obs_idx) tb.

(** Steps 1 and 2 of [run_viterbi] for a non-empty sequence: allocation,
    initialization, iteration.  Returns the filled tables. *)
Definition forward : result tables :=
  let T := Z.of_nat (length obs_sequence) in
  let V := replicate (Z.to_nat T) (replicate (Z.to_nat n) F32.neg_inf) in
  let B := replicate (Z.to_nat T) (replicate (Z.to_nat n) 0) in
  o ← py_index obs_sequence 0;
  let obs_idx := o - 1 in
  tb ← for_range 0 (Z.to_nat n) (init_body obs_idx) (Tables V B);
  for_range 1 (Z.to_nat (T - 1)) time_body tb.

(** Body of the termination loop; the loop state is
    [(final_prob, final_state)]. *)
Definition final_body (V : list (list fp)) (T : Z) (j : Z) (s : fp * Z)
  : result (fp * Z) :=
  let '(final_prob, final_state) := s in
  v ← py_index2 V (T - 1) j;
  if F32.gt v final_prob then Ok (v, j) else Ok (final_prob, final_state).

Definition terminate (V : list (list fp)) : result (fp * Z) :=
  let T := Z.of_nat (length obs_sequence) in
  for_range 0 (Z.to_nat n) (final_body V T) (F32.neg_inf, 0).

(** Body of the backtrace loop. *)
Definition back_body (B : list (list Z)) (t : Z) (path : list Z)
  : result (list Z) :=
  p ← py_index path (t + 1);
  prev ← py_index2 B (t + 1) (p - 1);
  py_setitem path t (prev + 1).

Definition backtrace (B : list (list Z)) (final_state : Z)
  : result (list Z) :=
  let T := Z.of_nat (length obs_sequence) in
  path ← py_setitem (replicate (Z.to_nat T) 0) (T - 1) (final_state + 1);
  for_down (T - 2) (Z.to_nat (T - 1)) (back_body B) path.

(** [run_viterbi(n, m, a_matrix, b_matrix, obs_sequence)]: the pair
    [(path, final_prob)].  The function never reads its parameter [m], which
    is therefore no argument of the definitions below. *)
Definition run_viterbi : result (list Z * fp) :=
  let T := Z.of_nat (length obs_sequence) in
  if T =? 0 then Ok ([], F32.neg_inf)
  else
    tb ← forward;
    '(final_prob, final_state) ← terminate (tV tb);
    path ← backtrace (tB tb) final_state;
    Ok (path, final_prob).

End Viterbi.

(** ** Files and the main program *)

(** The lines successive [readline()] calls return on a file opened in text
    mode: each keeps its terminator, read as a line feed. *)
Fixpoint read_lines (s : string) (cur : list ascii) : list string :=
  match s with
  | EmptyString =>
      match cur with
      | [] => []
      | _ => [string_of_chars (rev cur)]
      end
  | String c r =>
      if Ascii.eqb c LF then
        string_of_chars (rev (LF :: cur)) :: read_lines r []
      else if Ascii.eqb c CR then
        string_of_chars (rev (LF :: cur)) ::
          match r with
          | String c' r' => if Ascii.eqb c' LF then read_lines r' []
                            else read_lines r []
          | EmptyString => []
          end
      else read_lines r (c :: cur)
  end.

(** [f.readlines()] of a whole file. *)
Definition readlines (content : string) : list string := read_lines content [].

(** [f.readline()]: the next line and the rest; the empty string at the end. *)
Definition readline (lines : list string) : string * list string :=
  match lines with
  | [] => (EmptyString, [])
  | l :: rest => (l, rest)
  end.

(** The two loader loops of [main] (for A.dat and for B.dat): a [rows] by
    [cols] table of zeros filled row by row from the tokens of [lines]. *)
Definition load_body (lines : list string) (i j : Z) (s : matrix * Z)
  : result (matrix * Z) :=
  let '(A, idx) := s in
  line ← py_index lines idx;
  let hex_str := py_strip line in
  v ← hex_to_float hex_str;
  A' ← py_setitem2 A i j v;
  Ok (A', idx + 1).

Definition load_matrix (rows cols : Z) (lines : list string) : result matrix :=
  let A := replicate (Z.to_nat rows) (replicate (Z.to_nat cols) F32.zero) in
  '(A, _) ←
    for_range 0 (Z.to_nat rows)
      (fun i => for_range 0 (Z.to_nat cols) (load_body lines i)) (A, 0);
  Ok A.

(** The block written for one decoded sequence. *)
Definition write_block (f_out : string) (path : list Z) (prob : fp) : string :=
  let f_out :=
    fold_left (fun f state => write_output_val f (OutInt state)) path f_out in
  let f_out := write_output_val f_out (OutFloat prob) in
  write_output_val f_out (OutStr "FFFFFFFF").

(** The [while True] loop of [main] over the lines still to be read.
    Returns what has been written to the output file and how the loop ended:
    [Ok tt] after a [break], [Raise e] when an exception escapes. *)
Fixpoint process (N : Z) (A B : matrix) (lines : list string)
    (current_sequence : list Z) (f_out : string) : string * result unit :=
  match lines with
  | [] => (f_out, Ok tt)
  | line :: rest =>
      if String.eqb line "" then (f_out, Ok tt)
      else
        let line := py_strip line in
        if String.eqb line "FFFFFFFF" then
          match run_viterbi N A B current_sequence with
          | Raise e => (f_out, Raise e)
          | Ok (path, prob) =>
              let f_out := write_block f_out path prob in
              match rest with
              | [] => (f_out, Ok tt)
              | next_line :: rest' =>
                  if String.eqb next_line "" then (f_out, Ok tt)
                  else
                    let next_line := py_strip next_line in
                    if String.eqb next_line "0" then
                      (write_output_val f_out (OutInt 0), Ok tt)
                    else
                      match py_int 10 next_line with
                      | Ok k => process N A B rest' [k] f_out
                      | Raise e => (f_out, Raise e)
                      end
              end
          end
        else if negb (String.eqb line "0") then
          match py_int 10 line with
          | Ok k => process N A B rest (current_sequence ++ [k]) f_out
          | Raise e => (f_out, Raise e)
          end
        else process N A B rest current_sequence f_out
  end.

(** [main()] on the contents of the four input files: the content of
    Ref_Output.dat and the outcome. *)
Definition load_model (n_file a_file b_file : string)
  : result (Z * Z * matrix * matrix) :=
  let '(l1, f) := readline (readlines n_file) in
  N ← py_int 10 (py_strip l1);
  let '(l2, _) := readline f in
  M ← py_int 10 (py_strip l2);
  A ← load_matrix (N + 1) N (readlines a_file);
  B ← load_matrix N M (readlines b_file);
  Ok (N, M, A, B).

Definition main (n_file a_file b_file input_file : string)
  : string * result unit :=
  match load_model n_file a_file b_file with
  | Raise e => ("", Raise e)
  | Ok (N, M, A, B) => process N A B (readlines input_file) [] ""
  end.

Definition lines_text (l : list string) : string :=
  fold_right (fun s acc => s ++ nl ++ acc)%string "" l.

(** * Specification *)

(** The shape shared by the two argmax loops of [run_viterbi]: the score of
    index [k] replaces the running best when it compares strictly greater. *)
Definition argmax_body (score : Z -> result fp) (k : Z) (s : fp * Z)
  : result (fp * Z) :=
  let '(best, best_k) := s in
  c ← score k;
  if F32.gt c best then Ok (c, k) else Ok (best, best_k).

(** What an argmax over the indices [0 .. n-1] returns, in the spec's words:
    nothing scores above [best]; among equal scores the lowest index is
    kept; index 0 with negative infinity when no score compares above
    negative infinity, and otherwise an index whose score is [best]. *)
Record argmax_spec (score : Z -> result fp) (n : Z) (best : fp) (best_k : Z)
  : Prop := ArgmaxSpec {
  am_max : forall i c, 0 <= i < n -> score i = Ok c -> F32.gt c best = false;
  am_lowest : forall i c, 0 <= i < n -> score i = Ok c ->
              F32.eqb c best = true -> best_k <= i;
  am_none : (forall i c, 0 <= i < n -> score i = Ok c ->
               F32.gt c F32.neg_inf = false) ->
            best = F32.neg_inf /\ best_k = 0;
  am_some : (exists i c, 0 <= i < n /\ score i = Ok c /\
               F32.gt c F32.neg_inf = true) ->
            0 <= best_k < n /\ score best_k = Ok best;
  am_kept : (best = F32.neg_inf /\ best_k = 0) \/
            (0 <= best_k < n /\ score best_k = Ok best /\
             F32.gt best F32.neg_inf = true)
}.

(** The invariant of an argmax loop after the indices below [k]. *)
Definition argmax_inv (score : Z -> result fp) (k : Z) (s : fp * Z) : Prop :=
  let '(best, bk) := s in
  (forall i c, 0 <= i < k -> score i = Ok c -> F32.gt c best = false) /\
  (forall i c, 0 <= i < k -> score i = Ok c ->
     F32.eqb c best = true -> bk <= i) /\
  ((best = F32.neg_inf /\ bk = 0 /\
    forall i c, 0 <= i < k -> score i = Ok c ->
      F32.gt c F32.neg_inf = false) \/
   (0 <= bk < k /\ score bk = Ok best /\
    F32.gt best F32.neg_inf = true)).

Section Spec.

Variables (n m : Z) (a b : matrix) (obs : list Z).

(** The Model of the data model: N >= 1 states, M >= 1 symbols, an
    (N+1) x N transition table and an N x M emission table. *)
Definition wf_model : Prop :=
  1 <= n /\ 1 <= m /\
  length a = Z.to_nat (n + 1) /\
  Forall (fun row => length row = Z.to_nat n) a /\
  length b = Z.to_nat n /\
  Forall (fun row => length row = Z.to_nat m) b.

(** Every entry of both tables satisfies [P]. *)
Definition entries (P : fp -> bool) : Prop :=
  Forall (Forall (fun x => P x = true)) a /\
  Forall (Forall (fun x => P x = true)) b.

(** The invariant of the data model: every entry is a finite
    single-precision value. *)
Definition finite_model : Prop := entries F32.is_finite.

(** Every entry is a log-probability, negative infinity (probability 0)
    included. *)
Definition log_prob_model : Prop := entries F32.is_log_prob.

(** A Sequence: symbols in [1, M]. *)
Definition wf_sequence : Prop := Forall (fun o => 1 <= o <= m) obs.

(** [emission[j][symbol(t) - 1]] *)
Definition emission (t j : Z) : result fp :=
  o ← py_index obs t; py_index2 b j (o - 1).

(** [V[t-1][i] + transition[i+1][j]] *)
Definition cand (V : list (list fp)) (t j i : Z) : result fp :=
  v ← py_index2 V (t - 1) i;
  a_ij ← py_index2 a (i + 1) j;
  Ok (F32.add v a_ij).

(** Initialization: [V[0][j] = transition[0][j] + emission[j][symbol(0)-1]]
    and [B[0][j] = 0]. *)
Definition init_eq (tb : tables) (j : Z) : Prop :=
  exists x e,
    py_index2 a 0 j = Ok x /\ emission 0 j = Ok e /\
    py_index2 (tV tb) 0 j = Ok (F32.add x e) /\
    py_index2 (tB tb) 0 j = Ok 0.

(** Recurrence: [B[t][j]] is an index [i_max] whose candidate is the
    maximum over all [i], and [V[t][j]] is that maximum plus the emission. *)
Definition rec_eq (tb : tables) (t j : Z) : Prop :=
  exists i_max c_max e,
    py_index2 (tB tb) t j = Ok i_max /\ 0 <= i_max < n /\
    cand (tV tb) t j i_max = Ok c_max /\
    (forall i, 0 <= i < n ->
       exists c, cand (tV tb) t j i = Ok c /\ F32.le c c_max = true) /\
    emission t j = Ok e /\
    py_index2 (tV tb) t j = Ok (F32.add c_max e).

(** The cell at time [t >= 1] as the loops fill it, whatever the values. *)
Definition rec_cell (tb : tables) (t j : Z) : Prop :=
  exists best i_max e,
    argmax_spec (cand (tV tb) t j) n best i_max /\
    (forall i, 0 <= i < n -> exists c, cand (tV tb) t j i = Ok c) /\
    emission t j = Ok e /\
    py_index2 (tB tb) t j = Ok i_max /\
    py_index2 (tV tb) t j = Ok (F32.add best e).

(** Every cell of both tables exists. *)
Definition allocated (tb : tables) : Prop :=
  forall t j, 0 <= t < Z.of_nat (length obs) -> 0 <= j < n ->
    (exists v, py_index2 (tV tb) t j = Ok v) /\
    (exists v, py_index2 (tB tb) t j = Ok v).

(** The filled tables. *)
Definition filled (tb : tables) : Prop :=
  allocated tb /\
  (forall j, 0 <= j < n -> init_eq tb j) /\
  (forall t j, 1 <= t < Z.of_nat (length obs) -> 0 <= j < n ->
     rec_cell tb t j).

(** Two tables that differ at most in cell [(t0, j0)]. *)
Definition same_but (tb tb' : tables) (t0 j0 : Z) : Prop :=
  forall t j, 0 <= t -> 0 <= j -> t <> t0 \/ j <> j0 ->
    py_index2 (tV tb') t j = py_index2 (tV tb) t j /\
    py_index2 (tB tb') t j = py_index2 (tB tb) t j.

(** Backtrace: [path[T-1] = final_state + 1] and
    [path[t] = B[t+1][path[t+1]-1] + 1] for [t] below. *)
Definition backtrace_eq (B : list (list Z)) (final_state : Z)
    (path : list Z) : Prop :=
  let T := Z.of_nat (length obs) in
  py_index path (T - 1) = Ok (final_state + 1) /\
  forall t, 0 <= t <= T - 2 ->
    exists p prev,
      py_index path (t + 1) = Ok p /\
      py_index2 B (t + 1) (p - 1) = Ok prev /\
      py_index path t = Ok (prev + 1).

(** Invariant of the initialization loop before state [j]. *)
Definition init_inv (j : Z) (tb : tables) : Prop :=
  allocated tb /\ forall j', 0 <= j' < j -> init_eq tb j'.

(** Invariant of the loop over time before time [t]. *)
Definition time_inv (t : Z) (tb : tables) : Prop :=
  allocated tb /\
  (forall j, 0 <= j < n -> init_eq tb j) /\
  (forall t' j, 1 <= t' < t -> 0 <= j < n -> rec_cell tb t' j).

(** Invariant of the loop over states at time [t], before state [j]. *)
Definition state_inv (t : Z) (j : Z) (tb : tables) : Prop :=
  time_inv t tb /\ forall j', 0 <= j' < j -> rec_cell tb t j'.

(** Invariant of the backtrace loop after the entries above [k]. *)
Definition back_inv (B : list (list Z)) (fs : Z) (k : Z) (path : list Z)
  : Prop :=
  let T := Z.of_nat (length obs) in
  length path = length obs /\
  py_index path (T - 1) = Ok (fs + 1) /\
  (forall t, k < t <= T - 1 ->
     exists p, py_index path t = Ok p /\ 1 <= p <= n) /\
  (forall t, k < t <= T - 2 ->
     exists p prev, py_index path (t + 1) = Ok p /\
                    py_index2 B (t + 1) (p - 1) = Ok prev /\
                    py_index path t = Ok (prev + 1)).

End Spec.

(** * Sample inputs *)

Definition fzero : fp := F32.zero.
Definition fone : fp := F32.of_bits 1065353216.
Definition fneg1 : fp := F32.of_bits 3212836864.

(** The model of the end-to-end example: N = 2, M = 2, every entry 0.0. *)
Definition zero_a : matrix := [[fzero; fzero]; [fzero; fzero]; [fzero; fzero]].
Definition zero_b : matrix := [[fzero; fzero]; [fzero; fzero]].

(** A model whose second state cannot be reached: probability 0, whose
    logarithm is negative infinity. *)
Definition unreachable_a : matrix :=
  [[fzero; F32.neg_inf]; [fzero; F32.neg_inf]; [fzero; F32.neg_inf]].

(** A model in which nothing is possible. *)
Definition impossible_a : matrix :=
  [[F32.neg_inf; F32.neg_inf]; [F32.neg_inf; F32.neg_inf];
   [F32.neg_inf; F32.neg_inf]].

(** A model with distinct scores. *)
Definition small_a : matrix := [[fzero; fneg1]; [fneg1; fzero]; [fzero; fneg1]].
Definition small_b : matrix := [[fzero; fneg1]; [fneg1; fzero]].

(** * Auxiliary definitions for the proofs *)

Definition hex_digit (d : Z) : Prop := 0 <= d < 16.

(** A string of hexadecimal digit characters. *)
Definition hex_string (ds : list Z) : string :=
  string_of_chars (map hex_char ds).

(** The digit list behind [format_08X]. *)
Definition digits_08X (v : Z) : list Z :=
  let ds := rev (hex_digits (S (Z.to_nat (Z.log2 v))) v) in
  repeat 0 (8 - length ds) ++ ds.

(** Case analysis on the integer and positive comparisons of a goal. *)
Ltac cmp_cases :=
  repeat match goal with
  | |- context [Z.compare ?x ?y] => destruct (Z.compare_spec x y)
  | H : context [Z.compare ?x ?y] |- _ => destruct (Z.compare_spec x y)
  | |- context [Pos.compare_cont Eq ?x ?y] =>
      change (Pos.compare_cont Eq x y) with (Pos.compare x y);
      destruct (Pos.compare_spec x y)
  | H : context [Pos.compare_cont Eq ?x ?y] |- _ =>
      change (Pos.compare_cont Eq x y) with (Pos.compare x y) in H;
      destruct (Pos.compare_spec x y)
  end;
  simpl in *; try discriminate; try reflexivity; try lia.

(** * Further specification: loader, symbols, path score *)

(** A table of [rows] rows of [cols] entries each. *)
Definition has_shape {A : Type} (rows cols : nat) (M : list (list A)) : Prop :=
  length M = rows /\ Forall (fun row => length row = cols) M.

(** Cell [(i, j)] of a loaded table holds what [hex_to_float] makes of line
    [i * cols + j] of the file. *)
Definition loaded_cell (lines : list string) (cols : Z) (A : matrix)
    (i j : Z) : Prop :=
  exists line,
    py_index lines (i * cols + j) = Ok line /\
    py_index2 A i j = hex_to_float (py_strip line).

(** Invariant of the inner loader loop in row [i], before column [j]. *)
Definition load_row_inv (lines : list string) (rows cols : Z) (i j : Z)
    (s : matrix * Z) : Prop :=
  snd s = i * Z.max 0 cols + j /\
  has_shape (Z.to_nat rows) (Z.to_nat cols) (fst s) /\
  (forall i' j', 0 <= i' < i -> 0 <= j' < cols ->
     loaded_cell lines cols (fst s) i' j') /\
  (forall j', 0 <= j' < j -> loaded_cell lines cols (fst s) i j').

(** Invariant of the outer loader loop before row [i]. *)
Definition load_inv (lines : list string) (rows cols : Z) (i : Z)
    (s : matrix * Z) : Prop :=
  snd s = i * Z.max 0 cols /\
  has_shape (Z.to_nat rows) (Z.to_nat cols) (fst s) /\
  (forall i' j', 0 <= i' < i -> 0 <= j' < cols ->
     loaded_cell lines cols (fst s) i' j').

(** The observations spelled by the lines of one sequence, up to but not
    including its sentinel: a line that reads "0" contributes nothing; [None]
    when a line is the sentinel, the end of the file, or not an integer. *)
Fixpoint read_symbols (lines : list string) : option (list Z) :=
  match lines with
  | [] => Some []
  | line :: rest =>
      if String.eqb line "" then None
      else
        let text := py_strip line in
        if String.eqb text "FFFFFFFF" then None
        else if String.eqb text "0" then read_symbols rest
        else
          match py_int 10 text with
          | Ok k => match read_symbols rest with
                    | Some ks => Some (k :: ks)
                    | None => None
                    end
          | Raise _ => None
          end
  end.

(** A small model as the three files [main] loads. *)
Definition small_n_file : string := lines_text ["2"; "2"].
Definition small_a_file : string :=
  lines_text ["00000000"; "BF800000"; "BF800000"; "00000000";
              "00000000"; "BF800000"].
Definition small_b_file : string :=
  lines_text ["00000000"; "BF800000"; "BF800000"; "00000000"].

(** The state Python's negative indexing gives a symbol [o <= 0]:
    [emission[j][o - 1]] is then entry [o - 1 + M] of the row. *)
Definition wrap_symbol (m o : Z) : Z := if o <=? 0 then o + m else o.

(** A computation that can fail with [IndexError] only. *)
Definition index_error_only {A : Type} (r : result A) : Prop :=
  forall e, r = Raise e -> e = IndexError.

(** The score of a path through time [t], summed in the order of the
    recurrence: the score through time [t - 1], plus the transition into
    [path[t]], plus the emission of symbol [t] in [path[t]]. *)
Fixpoint path_score (a b : matrix) (obs path : list Z) (t : nat) : result fp :=
  match t with
  | O =>
      p ← py_index path 0;
      x ← py_index2 a 0 (p - 1);
      e ← emission b obs 0 (p - 1);
      Ok (F32.add x e)
  | S k =>
      s ← path_score a b obs path k;
      q ← py_index path (Z.of_nat k);
      p ← py_index path (Z.of_nat (S k));
      x ← py_index2 a q (p - 1);
      e ← emission b obs (Z.of_nat (S k)) (p - 1);
      Ok (F32.add (F32.add s x) e)
  end.

(** The digits of a decimal numeral, most significant first. *)
Fixpoint uint_digits (u : Decimal.uint) : list Z :=
  match u with
  | Decimal.Nil => []
  | Decimal.D0 l => 0 :: uint_digits l
  | Decimal.D1 l => 1 :: uint_digits l
  | Decimal.D2 l => 2 :: uint_digits l
  | Decimal.D3 l => 3 :: uint_digits l
  | Decimal.D4 l => 4 :: uint_digits l
  | Decimal.D5 l => 5 :: uint_digits l
  | Decimal.D6 l => 6 :: uint_digits l
  | Decimal.D7 l => 7 :: uint_digits l
  | Decimal.D8 l => 8 :: uint_digits l
  | Decimal.D9 l => 9 :: uint_digits l
  end.

Definition dec_digit (d : Z) : Prop := 0 <= d < 10.

(** The lines of a stream of blocks, each the lines of one sequence and its
    sentinel line, followed by [tail]. *)
Fixpoint blocks_lines (blocks : list (list string * string))
    (tail : list string) : list string :=
  match blocks with
  | [] => tail
  | (lines, sentinel) :: rest => lines ++ sentinel :: blocks_lines rest tail
  end.

(** The block's lines spell the observations [ks] and its last line reads
    "FFFFFFFF". *)
Definition block_reads (block : list string * string) (ks : list Z) : Prop :=
  read_symbols (fst block) = Some ks /\ py_strip (snd block) = "FFFFFFFF".

(** The block has a first line, which does not read "0". *)
Definition starts_sequence (block : list string * string) : Prop :=
  exists line rest, fst block = line :: rest /\ py_strip line <> "0".

(** The blocks written for the sequences [seqs], one after the other;
    [None] when the decoder raises on one of them. *)
Fixpoint stream_output (N : Z) (A B : matrix) (seqs : list (list Z))
    (out : string) : option string :=
  match seqs with
  | [] => Some out
  | ks :: rest =>
      match run_viterbi N A B ks with
      | Ok (path, prob) => stream_output N A B rest (write_block out path prob)
      | Raise _ => None
      end
  end.

(** ** Decimal integer literals

    What [int()] accepts in base 10, in the words of Python's documentation:
    decimal digits, optionally preceded by a sign with no space in between,
    single underscores allowed between digits, leading zeros allowed,
    whitespace allowed around the whole; and, by default, no more than 4300
    digits. *)

Definition dec_char (d : Z) : ascii := ascii_of_nat (Z.to_nat (48 + d)).

(** Only whitespace. *)
Fixpoint blank (s : string) : bool :=
  match s with
  | EmptyString => true
  | String c r => is_c_space c && blank r
  end.

(** [dec_digits s ds]: [s] spells the digits [ds], most significant first,
    with at most one underscore between two digits. *)
Inductive dec_digits : string -> list Z -> Prop :=
  | dd_last d :
      dec_digit d -> dec_digits (String (dec_char d) EmptyString) [d]
  | dd_digit d s ds :
      dec_digit d -> dec_digits s ds ->
      dec_digits (String (dec_char d) s) (d :: ds)
  | dd_underscore d s ds :
      dec_digit d -> dec_digits s ds ->
      dec_digits (String (dec_char d) (String "_" s)) (d :: ds).

Definition dec_value (ds : list Z) : Z :=
  fold_left (fun acc d => acc * 10 + d) ds 0.

(** The sign in front of the digits, and whether it negates. *)
Inductive sign_text : string -> bool -> Prop :=
  | sign_none : sign_text "" false
  | sign_plus : sign_text "+" false
  | sign_minus : sign_text "-" true.



Example add_one_one :
  F32.to_bits (F32.add (F32.of_bits 1065353216) (F32.of_bits 1065353216))
  = 1073741824.
Proof. vm_compute. reflexivity. Qed.

Example add_tenth :
  F32.to_bits (F32.add (F32.of_bits 1036831949) (F32.of_bits 1045220557))
  = 1050253722.
Proof. vm_compute. reflexivity. Qed.

(** Overflow to infinity, subnormal sums, a tie rounded to even, signed
    zeros, and the invalid sum of opposite infinities. *)
Example add_corner_cases :
  F32.to_bits (F32.add (F32.of_bits 2139095039) (F32.of_bits 2139095039))
    = 2139095040 /\
  F32.to_bits (F32.add (F32.of_bits 1) (F32.of_bits 1)) = 2 /\
  F32.to_bits (F32.add (F32.of_bits 1065353216) (F32.of_bits 864026624))
    = 1065353216 /\
  F32.to_bits (F32.add (F32.of_bits 2147483648) (F32.of_bits 0)) = 0 /\
  F32.to_bits (F32.add (F32.of_bits 2147483648) (F32.of_bits 2147483648))
    = 2147483648 /\
  F32.is_nan (F32.add (F32.of_bits 2139095040) F32.neg_inf) = true /\
  F32.add F32.neg_inf fone = F32.neg_inf.
Proof. vm_compute. repeat split. Qed.

Example hex_to_float_one : hex_to_float "3F800000" = Ok (F32.of_bits 1065353216).
Proof. vm_compute. reflexivity. Qed.

Example hex_to_float_sub : hex_to_float "80000001" = Ok (F32.of_bits 2147483649).
Proof. vm_compute. reflexivity. Qed.

Example hex_to_float_qnan : hex_to_float "FFC00123" = Ok (F32.of_bits 4290773283).
Proof. vm_compute. reflexivity. Qed.

Example hex_to_float_snan : hex_to_float "7F800001" = Ok (F32.of_bits 2143289345).
Proof. vm_compute. reflexivity. Qed.

Example write_float_ex : write_output_val "" (OutFloat F32.neg_inf)
  = "FF800000" ++ nl.
Proof. vm_compute. reflexivity. Qed.

Example write_int_ex : write_output_val "" (OutInt 12) = "12" ++ nl.
Proof. vm_compute. reflexivity. Qed.

Example viterbi_zero_model :
  run_viterbi 2 zero_a zero_b [1; 1]
  = Ok ([1; 1], fzero).
Proof. vm_compute. reflexivity. Qed.

Example viterbi_small :
  run_viterbi 2 small_a small_b [1; 2; 2]
  = Ok ([1; 2; 1], F32.of_bits 3212836864).
Proof. vm_compute. reflexivity. Qed.

Example viterbi_unreachable :
  run_viterbi 2 unreachable_a zero_b [1; 1] = Ok ([1; 1], fzero).
Proof. vm_compute. reflexivity. Qed.

Example viterbi_impossible :
  run_viterbi 2 impossible_a zero_b [1; 2; 1] = Ok ([1; 1; 1], F32.neg_inf).
Proof. vm_compute. reflexivity. Qed.

Example viterbi_no_state :
  run_viterbi 0 [] [] [5] = Ok ([1], F32.neg_inf) /\
  run_viterbi 0 [] [] [5; 5] = Raise IndexError.
Proof. vm_compute. split; reflexivity. Qed.

Example main_batch :
  main (lines_text ["2"; "2"])
       (lines_text ["00000000"; "00000000"; "00000000"; "00000000";
                    "00000000"; "00000000"])
       (lines_text ["00000000"; "00000000"; "00000000"; "00000000"])
       (lines_text ["1"; "2"; "FFFFFFFF"; "1"; "FFFFFFFF"; "0"])
  = (lines_text ["1"; "1"; "00000000"; "FFFFFFFF"; "1"; "00000000";
                 "FFFFFFFF"; "0"], Ok tt).
Proof. vm_compute. reflexivity. Qed.

Example py_int_examples :
  py_int 16 "ff" = Ok 255 /\ py_int 16 " 0x_1F " = Ok 31 /\
  py_int 16 "-0X10" = Ok (-16) /\ py_int 16 "1__0" = Raise ValueError /\
  py_int 16 "_1" = Raise ValueError /\ py_int 16 "0x" = Raise ValueError /\
  py_int 10 "0x10" = Raise ValueError /\ py_int 10 "007" = Ok 7 /\
  py_int 10 "+1_000" = Ok 1000 /\ py_int 10 "" = Raise ValueError /\
  py_int 10 "- 5" = Raise ValueError /\ py_int 10 "1a" = Raise ValueError /\
  py_int 16 "ZZZZZZZZ" = Raise ValueError.
Proof. vm_compute. repeat split. Qed.

(** The limit on the number of digits: decimal only. *)
Example py_int_digit_limit :
  (exists v, py_int 10 (string_of_chars (repeat "1"%char 4300)) = Ok v) /\
  py_int 10 (string_of_chars (repeat "1"%char 4301)) = Raise ValueError /\
  py_int 10 (string_of_chars ("-"%char :: repeat "0"%char 4301))
  = Raise ValueError /\
  (exists v, py_int 16 (string_of_chars (repeat "1"%char 4301)) = Ok v).
Proof.
  split; [eexists; vm_compute; reflexivity|].
  split; [vm_compute; reflexivity|].
  split; [vm_compute; reflexivity|].
  eexists. vm_compute. reflexivity.
Qed.

Example unreachable_model_log_prob :
  wf_model 2 2 unreachable_a zero_b /\ log_prob_model unreachable_a zero_b.
Proof.
  split.
  - unfold wf_model. repeat split; try lia; repeat constructor.
  - split; repeat constructor.
Qed.

(** * Properties of the embedding *)

(** ** Order on single-precision values *)

Section FloatOrder.

Lemma SFltb_trans x y z :
  SFltb x y = true -> SFltb y z = true -> SFltb x z = true.
Proof.
  unfold SFltb, SFcompare.
  destruct x as [[]|[]| |[] mx ex], y as [[]|[]| |[] my ey],
           z as [[]|[]| |[] mz ez];
    simpl; try discriminate; try reflexivity; intros; cmp_cases.
Qed.

Lemma SFeqb_ltb_trans x y z :
  SFeqb x y = true -> SFltb z y = true -> SFltb z x = true.
Proof.
  unfold SFeqb, SFltb, SFcompare.
  destruct x as [[]|[]| |[] mx ex], y as [[]|[]| |[] my ey],
           z as [[]|[]| |[] mz ez];
    simpl; try discriminate; try reflexivity; intros; cmp_cases.
Qed.

Lemma SFltb_irrefl x : SFltb x x = false.
Proof.
  unfold SFltb, SFcompare.
  destruct x as [[]|[]| |[] mx ex]; simpl; try reflexivity;
    rewrite Z.compare_refl;
    change (Pos.compare_cont Eq mx mx) with (Pos.compare mx mx);
    rewrite Pos.compare_refl; reflexivity.
Qed.

Lemma SFleb_total x y :
  x <> S754_nan -> y <> S754_nan -> SFltb y x = false -> SFleb x y = true.
Proof.
  unfold SFleb, SFltb, SFcompare.
  destruct x as [[]|[]| |[] mx ex], y as [[]|[]| |[] my ey];
    simpl; try discriminate; try reflexivity; try congruence;
    intros; cmp_cases.
Qed.

Lemma SFleb_refl x : x <> S754_nan -> SFleb x x = true.
Proof.
  intros H. apply SFleb_total; auto using SFltb_irrefl.
Qed.

End FloatOrder.

Lemma gt_trans x y z :
  F32.gt x y = true -> F32.gt y z = true -> F32.gt x z = true.
Proof.
  destruct x, y, z; simpl; try discriminate. eauto using SFltb_trans.
Qed.

Lemma gt_irrefl x : F32.gt x x = false.
Proof. destruct x; simpl; auto using SFltb_irrefl. Qed.

Lemma eqb_gt_trans x y z :
  F32.eqb x y = true -> F32.gt y z = true -> F32.gt x z = true.
Proof.
  destruct x, y, z; simpl; try discriminate. eauto using SFeqb_ltb_trans.
Qed.

Lemma le_of_not_gt x y :
  F32.is_nan x = false -> F32.is_nan y = false ->
  F32.gt x y = false -> F32.le x y = true.
Proof.
  destruct x as [fx|], y as [fy|]; simpl; try discriminate.
  intros Hx Hy. apply SFleb_total; intros ->; discriminate.
Qed.

Lemma le_refl x : F32.is_nan x = false -> F32.le x x = true.
Proof.
  intros H. apply le_of_not_gt; auto using gt_irrefl.
Qed.

Lemma not_gt_neg_inf x :
  F32.is_nan x = false -> F32.gt x F32.neg_inf = false -> x = F32.neg_inf.
Proof.
  destruct x as [[[]|[]| |[] mx ex]|]; simpl; try discriminate; reflexivity.
Qed.


(** ** Rounding never produces a NaN *)

Section Rounding.

Variables prec emax : Z.

Lemma shr_1_nonneg mrs : 0 <= shr_m mrs -> 0 <= shr_m (shr_1 mrs).
Proof.
  destruct mrs as [m r s]; simpl.
  destruct m as [|[p|p|]|[p|p|]]; simpl; lia.
Qed.

Lemma iter_pos_shr_1_nonneg p mrs :
  0 <= shr_m mrs -> 0 <= shr_m (SpecFloat.iter_pos shr_1 p mrs).
Proof.
  revert mrs. induction p as [p IH|p IH|]; intros mrs H; simpl.
  - apply IH, IH, shr_1_nonneg, H.
  - apply IH, IH, H.
  - apply shr_1_nonneg, H.
Qed.

Lemma shr_nonneg mrs e k :
  0 <= shr_m mrs -> 0 <= shr_m (fst (shr mrs e k)).
Proof.
  intros H. destruct k; simpl; auto using iter_pos_shr_1_nonneg.
Qed.

Lemma shr_m_of_loc m l : shr_m (shr_record_of_loc m l) = m.
Proof. destruct l as [|[]]; reflexivity. Qed.

Lemma shr_fexp_nonneg m e l :
  0 <= m -> 0 <= shr_m (fst (shr_fexp prec emax m e l)).
Proof.
  intros H. unfold shr_fexp. apply shr_nonneg. rewrite shr_m_of_loc. exact H.
Qed.

Lemma round_nearest_even_nonneg m l : 0 <= m -> 0 <= round_nearest_even m l.
Proof.
  intros H. destruct l as [|[]]; simpl; try lia.
  destruct (Z.even m); lia.
Qed.

Lemma binary_round_aux_not_nan sx mx ex lx :
  0 <= mx -> binary_round_aux prec emax sx mx ex lx <> S754_nan.
Proof.
  intros H. unfold binary_round_aux.
  pose proof (shr_fexp_nonneg mx ex lx H) as H1.
  destruct (shr_fexp prec emax mx ex lx) as [mrs' e']. simpl in H1.
  pose proof (shr_fexp_nonneg _ e' loc_Exact
                (round_nearest_even_nonneg _ (loc_of_shr_record mrs') H1)) as H2.
  destruct (shr_fexp prec emax _ e' loc_Exact) as [mrs'' e'']. simpl in H2.
  destruct (shr_m mrs''); try lia; try discriminate.
  destruct (e'' <=? emax - prec); discriminate.
Qed.

Lemma binary_round_aux_sign sx mx ex lx :
  0 <= mx ->
  match binary_round_aux prec emax sx mx ex lx with
  | S754_zero s | S754_infinity s | S754_finite s _ _ => s = sx
  | S754_nan => False
  end.
Proof.
  intros H. unfold binary_round_aux.
  pose proof (shr_fexp_nonneg mx ex lx H) as H1.
  destruct (shr_fexp prec emax mx ex lx) as [mrs' e']. simpl in H1.
  pose proof (shr_fexp_nonneg _ e' loc_Exact
                (round_nearest_even_nonneg _ (loc_of_shr_record mrs') H1)) as H2.
  destruct (shr_fexp prec emax _ e' loc_Exact) as [mrs'' e'']. simpl in H2.
  destruct (shr_m mrs''); try lia; try reflexivity.
  destruct (e'' <=? emax - prec); reflexivity.
Qed.

Lemma binary_round_sign sx mx ex :
  match binary_round prec emax sx mx ex with
  | S754_zero s | S754_infinity s | S754_finite s _ _ => s = sx
  | S754_nan => False
  end.
Proof.
  unfold binary_round.
  destruct (shl_align mx ex _) as [mz ez].
  apply binary_round_aux_sign. lia.
Qed.

Lemma binary_round_not_nan sx mx ex :
  binary_round prec emax sx mx ex <> S754_nan.
Proof.
  unfold binary_round.
  destruct (shl_align mx ex _) as [mz ez].
  apply binary_round_aux_not_nan. lia.
Qed.

Lemma binary_normalize_not_nan m e szero :
  binary_normalize prec emax m e szero <> S754_nan.
Proof.
  destruct m; simpl; try discriminate; apply binary_round_not_nan.
Qed.

Lemma SFadd_not_nan x y :
  x <> S754_nan ->
  match y with S754_zero _ | S754_finite _ _ _ => True | _ => False end ->
  SFadd prec emax x y <> S754_nan.
Proof.
  destruct x as [[]|[]| |sx mx ex], y as [[]|[]| |sy my ey];
    simpl; try tauto; try discriminate; intros _ _.
  apply binary_normalize_not_nan.
Qed.

End Rounding.

Lemma add_log_prob x y :
  F32.is_log_prob x = true -> F32.is_log_prob y = true ->
  F32.is_log_prob (F32.add x y) = true.
Proof.
  destruct x as [[[]|[]| |[] mx ex]|], y as [[[]|[]| |[] my ey]|];
    simpl; try discriminate; try reflexivity; intros _ _.
  unfold cond_Zopp. simpl Z.add.
  unfold binary_normalize.
  pose proof (binary_round_sign F32.prec F32.emax true
                (fst (shl_align mx ex (Z.min ex ey)) +
                 fst (shl_align my ey (Z.min ex ey))) (Z.min ex ey)) as H.
  destruct (binary_round _ _ _ _ _); simpl; try subst; tauto.
Qed.

Lemma is_log_prob_not_nan x : F32.is_log_prob x = true -> F32.is_nan x = false.
Proof. destruct x as [[[]|[]| |[] mx ex]|]; simpl; congruence. Qed.

Lemma is_finite_not_nan x : F32.is_finite x = true -> F32.is_nan x = false.
Proof. destruct x as [[]|]; simpl; congruence. Qed.

Lemma add_not_nan x y :
  F32.is_nan x = false -> F32.is_finite y = true ->
  F32.is_nan (F32.add x y) = false.
Proof.
  destruct x as [fx|], y as [fy|]; simpl; try discriminate.
  intros Hx Hy.
  assert (H : SFadd F32.prec F32.emax fx fy <> S754_nan).
  { apply SFadd_not_nan.
    - intros ->. discriminate.
    - destruct fy; simpl in *; try discriminate; exact I. }
  destruct (SFadd F32.prec F32.emax fx fy); simpl; congruence.
Qed.


(** ** Python lists and loops *)

Lemma bind_Ok {A B : Type} (r : result A) (k : A -> result B) (b : B) :
  r ≫= k = Ok b <-> exists a, r = Ok a /\ k a = Ok b.
Proof.
  destruct r as [a|e]; simpl; split.
  - eauto.
  - intros (a' & [= <-] & H). exact H.
  - discriminate.
  - intros (a' & H & _). discriminate.
Qed.

Lemma norm_index_nonneg (len : nat) (i : Z) :
  0 <= i ->
  norm_index len i = if i <? Z.of_nat len then Some (Z.to_nat i) else None.
Proof.
  intros H. unfold norm_index.
  destruct (Z.ltb_spec i 0); [lia|].
  destruct (Z.leb_spec 0 i); [|lia]. reflexivity.
Qed.

Lemma py_index_nonneg {A : Type} (l : list A) (i : Z) :
  0 <= i ->
  py_index l i =
    match l !! Z.to_nat i with Some x => Ok x | None => Raise IndexError end.
Proof.
  intros H. unfold py_index. rewrite norm_index_nonneg by exact H.
  destruct (Z.ltb_spec i (Z.of_nat (length l))); simpl.
  - reflexivity.
  - rewrite (proj2 (lookup_ge_None l (Z.to_nat i))) by lia. reflexivity.
Qed.

Lemma py_index_Ok {A : Type} (l : list A) (i : Z) (x : A) :
  0 <= i -> (py_index l i = Ok x <-> l !! Z.to_nat i = Some x).
Proof.
  intros H. rewrite py_index_nonneg by exact H.
  destruct (l !! Z.to_nat i); split; congruence.
Qed.

Lemma py_setitem_nonneg {A : Type} (l : list A) (i : Z) (x : A) :
  0 <= i ->
  py_setitem l i x =
    if i <? Z.of_nat (length l) then Ok (<[Z.to_nat i := x]> l)
    else Raise IndexError.
Proof.
  intros H. unfold py_setitem. rewrite norm_index_nonneg by exact H.
  destruct (i <? Z.of_nat (length l)); reflexivity.
Qed.

Lemma py_setitem_length {A : Type} (l l' : list A) (i : Z) (x : A) :
  py_setitem l i x = Ok l' -> length l' = length l.
Proof.
  unfold py_setitem. destruct (norm_index (length l) i); [|discriminate].
  intros [= <-]. apply length_insert.
Qed.

Lemma py_index2_nonneg {A : Type} (M : list (list A)) (t j : Z) :
  0 <= t -> 0 <= j ->
  py_index2 M t j =
    match M !! Z.to_nat t ≫= (.!! Z.to_nat j) with
    | Some x => Ok x
    | None => Raise IndexError
    end.
Proof.
  intros Ht Hj. unfold py_index2. rewrite py_index_nonneg by exact Ht.
  destruct (M !! Z.to_nat t) as [row|]; simpl; [|reflexivity].
  apply py_index_nonneg, Hj.
Qed.

Lemma py_setitem2_nonneg {A : Type} (M M' : list (list A)) (t j : Z) (x : A) :
  0 <= t -> 0 <= j ->
  py_setitem2 M t j x = Ok M' <->
  exists row, M !! Z.to_nat t = Some row /\ (Z.to_nat j < length row)%nat /\
              M' = <[Z.to_nat t := <[Z.to_nat j := x]> row]> M.
Proof.
  intros Ht Hj. unfold py_setitem2. rewrite bind_Ok. split.
  - intros (row & H1 & H2). apply py_index_Ok in H1; [|exact Ht].
    apply bind_Ok in H2 as (row' & H2 & H3).
    rewrite py_setitem_nonneg in H2 by assumption.
    rewrite py_setitem_nonneg in H3 by assumption.
    destruct (Z.ltb_spec j (Z.of_nat (length row))); [|discriminate].
    destruct (Z.ltb_spec t (Z.of_nat (length M))); [|discriminate].
    exists row. split; [exact H1|]. split; [lia|]. congruence.
  - intros (row & H1 & H2 & ->). exists row.
    split; [apply py_index_Ok; assumption|].
    pose proof (lookup_lt_Some _ _ _ H1).
    rewrite py_setitem_nonneg by exact Hj.
    destruct (Z.ltb_spec j (Z.of_nat (length row))); [|lia]. simpl.
    rewrite py_setitem_nonneg by exact Ht.
    destruct (Z.ltb_spec t (Z.of_nat (length M))); [|lia]. reflexivity.
Qed.

Lemma get_set_same {A : Type} (M M' : list (list A)) (t j : Z) (x : A) :
  0 <= t -> 0 <= j ->
  py_setitem2 M t j x = Ok M' -> py_index2 M' t j = Ok x.
Proof.
  intros Ht Hj H. apply py_setitem2_nonneg in H as (row & H1 & H2 & ->);
    [|assumption..].
  rewrite py_index2_nonneg by assumption.
  rewrite list_lookup_insert_eq by (eapply lookup_lt_Some; eassumption). simpl.
  rewrite list_lookup_insert_eq by exact H2. reflexivity.
Qed.

Lemma get_set_other {A : Type} (M M' : list (list A)) (t j t' j' : Z) (x : A) :
  0 <= t -> 0 <= j -> 0 <= t' -> 0 <= j' -> (t' <> t \/ j' <> j) ->
  py_setitem2 M t j x = Ok M' -> py_index2 M' t' j' = py_index2 M t' j'.
Proof.
  intros Ht Hj Ht' Hj' Hne H.
  apply py_setitem2_nonneg in H as (row & H1 & H2 & ->); [|assumption..].
  rewrite !py_index2_nonneg by assumption.
  destruct (decide (Z.to_nat t = Z.to_nat t')) as [E|E].
  - rewrite <- E.
    rewrite list_lookup_insert_eq by (eapply lookup_lt_Some; eassumption).
    rewrite H1. simpl.
    rewrite list_lookup_insert_ne by lia. reflexivity.
  - rewrite list_lookup_insert_ne by exact E. reflexivity.
Qed.

Lemma set_ok {A : Type} (M : list (list A)) (t j : Z) (v x : A) :
  0 <= t -> 0 <= j ->
  py_index2 M t j = Ok v -> exists M', py_setitem2 M t j x = Ok M'.
Proof.
  intros Ht Hj H. rewrite py_index2_nonneg in H by assumption.
  destruct (M !! Z.to_nat t) as [row|] eqn:E; [|discriminate]. simpl in H.
  destruct (row !! Z.to_nat j) eqn:E'; [|discriminate].
  eexists. apply py_setitem2_nonneg; [assumption..|].
  exists row. split; [exact E|]. split; [|reflexivity].
  eapply lookup_lt_Some; eassumption.
Qed.

Lemma py_index2_replicate {A : Type} (rows cols : nat) (d : A) (t j : Z) :
  0 <= t < Z.of_nat rows -> 0 <= j < Z.of_nat cols ->
  py_index2 (replicate rows (replicate cols d)) t j = Ok d.
Proof.
  intros Ht Hj. rewrite py_index2_nonneg by lia.
  rewrite lookup_replicate_2 by lia. simpl.
  rewrite lookup_replicate_2 by lia. reflexivity.
Qed.

(** Total correctness of a counting loop through an invariant. *)
Lemma for_range_rule {St : Type} (I : Z -> St -> Prop) (lo : Z) (count : nat)
    (body : Z -> St -> result St) (s : St) :
  I lo s ->
  (forall k s, lo <= k < lo + Z.of_nat count -> I k s ->
     exists s', body k s = Ok s' /\ I (k + 1) s') ->
  exists s', for_range lo count body s = Ok s' /\ I (lo + Z.of_nat count) s'.
Proof.
  revert lo s. induction count as [|c IH]; intros lo s H0 Hstep; simpl.
  - exists s. split; [reflexivity|]. replace (lo + Z.of_nat 0) with lo by lia.
    exact H0.
  - destruct (Hstep lo s ltac:(lia) H0) as (s1 & -> & H1). simpl.
    destruct (IH (lo + 1) s1 H1) as (s' & Hs' & HI).
    { intros k s2 Hk. apply Hstep. lia. }
    exists s'. split; [exact Hs'|].
    replace (lo + Z.of_nat (S c)) with (lo + 1 + Z.of_nat c) by lia. exact HI.
Qed.

Lemma for_down_rule {St : Type} (I : Z -> St -> Prop) (hi : Z) (count : nat)
    (body : Z -> St -> result St) (s : St) :
  I hi s ->
  (forall k s, hi - Z.of_nat count < k <= hi -> I k s ->
     exists s', body k s = Ok s' /\ I (k - 1) s') ->
  exists s', for_down hi count body s = Ok s' /\ I (hi - Z.of_nat count) s'.
Proof.
  revert hi s. induction count as [|c IH]; intros hi s H0 Hstep; simpl.
  - exists s. split; [reflexivity|]. replace (hi - Z.of_nat 0) with hi by lia.
    exact H0.
  - destruct (Hstep hi s ltac:(lia) H0) as (s1 & -> & H1). simpl.
    destruct (IH (hi - 1) s1 H1) as (s' & Hs' & HI).
    { intros k s2 Hk. apply Hstep. lia. }
    exists s'. split; [exact Hs'|].
    replace (hi - Z.of_nat (S c)) with (hi - 1 - Z.of_nat c) by lia. exact HI.
Qed.

(** What a loop preserves whenever it returns. *)
Lemma for_range_preserves {St : Type} (P : St -> Prop) (lo : Z) (count : nat)
    (body : Z -> St -> result St) (s s' : St) :
  (forall k s s', body k s = Ok s' -> P s -> P s') ->
  for_range lo count body s = Ok s' -> P s -> P s'.
Proof.
  intros Hb. revert lo s. induction count as [|c IH]; intros lo s; simpl.
  - intros [= <-]. auto.
  - intros H Hs. apply bind_Ok in H as (s1 & H1 & H2). eauto.
Qed.

Lemma for_down_preserves {St : Type} (P : St -> Prop) (hi : Z) (count : nat)
    (body : Z -> St -> result St) (s s' : St) :
  (forall k s s', body k s = Ok s' -> P s -> P s') ->
  for_down hi count body s = Ok s' -> P s -> P s'.
Proof.
  intros Hb. revert hi s. induction count as [|c IH]; intros hi s; simpl.
  - intros [= <-]. auto.
  - intros H Hs. apply bind_Ok in H as (s1 & H1 & H2). eauto.
Qed.


(** ** The argmax loops *)

Lemma for_range_partial {St : Type} (I : Z -> St -> Prop) (lo : Z)
    (count : nat) (body : Z -> St -> result St) (s s' : St) :
  I lo s ->
  (forall k s s', lo <= k < lo + Z.of_nat count -> I k s ->
     body k s = Ok s' -> I (k + 1) s') ->
  for_range lo count body s = Ok s' -> I (lo + Z.of_nat count) s'.
Proof.
  revert lo s. induction count as [|c IH]; intros lo s H0 Hstep; simpl.
  - intros [= <-]. replace (lo + Z.of_nat 0) with lo by lia. exact H0.
  - intros H. apply bind_Ok in H as (s1 & H1 & H2).
    replace (lo + Z.of_nat (S c)) with (lo + 1 + Z.of_nat c) by lia.
    apply (IH (lo + 1) s1).
    + apply (Hstep lo s s1); [lia|assumption..].
    + intros k s2 s3 Hk. apply Hstep. lia.
    + exact H2.
Qed.

Section Argmax.

Variable score : Z -> result fp.

Lemma argmax_inv_init : argmax_inv score 0 (F32.neg_inf, 0).
Proof.
  repeat split; try (intros; lia). left. repeat split. intros; lia.
Qed.

Lemma argmax_inv_step k s s' :
  0 <= k -> argmax_inv score k s -> argmax_body score k s = Ok s' ->
  argmax_inv score (k + 1) s'.
Proof.
  destruct s as [best bk]. intros Hk (HA & HB & HC) H.
  unfold argmax_body in H. apply bind_Ok in H as (c & Hc & H).
  destruct (F32.gt c best) eqn:G; injection H as <-.
  - (* the new score wins *)
    split; [|split].
    + intros i c' Hi Hs.
      destruct (decide (i = k)) as [->|].
      * assert (c' = c) as -> by congruence. apply gt_irrefl.
      * destruct (F32.gt c' c) eqn:G'; [|reflexivity].
        rewrite <- (HA i c' ltac:(lia) Hs). symmetry.
        eapply gt_trans; eassumption.
    + intros i c' Hi Hs E.
      destruct (decide (i = k)) as [->|]; [lia|].
      pose proof (eqb_gt_trans _ _ _ E G) as G'.
      rewrite (HA i c' ltac:(lia) Hs) in G'. discriminate.
    + right. split; [lia|]. split; [exact Hc|].
      destruct HC as [(-> & _ & _)|(_ & _ & Hb)]; [exact G|].
      eapply gt_trans; eassumption.
  - (* the running best stays *)
    split; [|split].
    + intros i c' Hi Hs.
      destruct (decide (i = k)) as [->|]; [congruence|].
      apply (HA i); [lia|exact Hs].
    + intros i c' Hi Hs E.
      destruct (decide (i = k)) as [->|].
      * destruct HC as [(_ & -> & _)|(? & _)]; lia.
      * apply (HB i c'); [lia|assumption..].
    + destruct HC as [(-> & -> & Hn)|(? & ? & ?)].
      * left. repeat split. intros i c' Hi Hs.
        destruct (decide (i = k)) as [->|]; [congruence|].
        apply (Hn i); [lia|exact Hs].
      * right. split; [lia|]. split; assumption.
Qed.

Lemma argmax_inv_spec n best bk :
  argmax_inv score (Z.of_nat (Z.to_nat n)) (best, bk) ->
  argmax_spec score n best bk.
Proof.
  intros (HA & HB & HC). split.
  - intros i c Hi. apply HA. lia.
  - intros i c Hi. apply HB. lia.
  - intros Hn. destruct HC as [(-> & -> & _)|(Hk & Hs & G)]; [split; reflexivity|].
    rewrite (Hn bk best ltac:(lia) Hs) in G. discriminate.
  - intros (i & c & Hi & Hs & G).
    destruct HC as [(_ & _ & Hn)|(Hk & Hs' & _)].
    + rewrite (Hn i c ltac:(lia) Hs) in G. discriminate.
    + split; [lia|exact Hs'].
  - destruct HC as [(-> & -> & _)|(Hk & Hs & G)]; [left; auto|].
    right. split; [lia|auto].
Qed.

(** Whenever the loop returns, its result is the argmax of the spec. *)
Lemma argmax_loop_spec n best bk :
  for_range 0 (Z.to_nat n) (argmax_body score) (F32.neg_inf, 0)
    = Ok (best, bk) ->
  argmax_spec score n best bk.
Proof.
  intros H. apply argmax_inv_spec.
  apply (for_range_partial (argmax_inv score) 0 _ _ _ _ argmax_inv_init) in H.
  - exact H.
  - intros k s s' Hk. apply argmax_inv_step. lia.
Qed.

(** The loop returns when every score can be read. *)
Lemma argmax_loop_total n :
  (forall i, 0 <= i < n -> exists c, score i = Ok c) ->
  exists best bk,
    for_range 0 (Z.to_nat n) (argmax_body score) (F32.neg_inf, 0)
      = Ok (best, bk).
Proof.
  intros Hs.
  destruct (for_range_rule (fun _ _ => True) 0 (Z.to_nat n)
              (argmax_body score) (F32.neg_inf, 0) I) as ([best bk] & H & _).
  - intros k [best bk] Hk _. destruct (Hs k ltac:(lia)) as (c & Hc).
    unfold argmax_body. rewrite Hc. simpl.
    destruct (F32.gt c best); eauto.
  - eauto.
Qed.

End Argmax.

Lemma argmax_spec_ext score score' n best bk :
  (forall i, 0 <= i < n -> score' i = score i) ->
  argmax_spec score n best bk -> argmax_spec score' n best bk.
Proof.
  intros E [H1 H2 H3 H4 H5]. split.
  - intros i c Hi Hs. rewrite E in Hs by exact Hi. eauto.
  - intros i c Hi Hs. rewrite E in Hs by exact Hi. eauto.
  - intros Hn. apply H3. intros i c Hi Hs. rewrite <- E in Hs by exact Hi. eauto.
  - intros (i & c & Hi & Hs & G). rewrite E in Hs by exact Hi.
    destruct H4 as [Hk Hb]; [eauto|]. split; [exact Hk|].
    rewrite E by exact Hk. exact Hb.
  - destruct H5 as [?|(Hk & Hb & G)]; [left; assumption|].
    right. rewrite E by exact Hk. auto.
Qed.

Lemma scan_body_argmax a V t j i s :
  scan_body a V t j i s = argmax_body (cand a V t j) i s.
Proof.
  destruct s as [best bk]. unfold scan_body, argmax_body, cand.
  destruct (py_index2 V (t - 1) i); simpl; [|reflexivity].
  destruct (py_index2 a (i + 1) j); reflexivity.
Qed.

Lemma final_body_argmax V T j s :
  final_body V T j s = argmax_body (fun j => py_index2 V (T - 1) j) j s.
Proof. destruct s as [best bk]. reflexivity. Qed.

Lemma for_range_ext {St : Type} lo count (body body' : Z -> St -> result St) s :
  (forall k s, body k s = body' k s) ->
  for_range lo count body s = for_range lo count body' s.
Proof.
  intros E. revert lo s. induction count as [|c IH]; intros lo s; simpl.
  - reflexivity.
  - rewrite E. destruct (body' lo s); simpl; auto.
Qed.


(** ** The forward pass fills the tables *)

Lemma py_index_lt {A : Type} (l : list A) (i : Z) :
  0 <= i < Z.of_nat (length l) -> exists x, py_index l i = Ok x.
Proof.
  intros H. rewrite py_index_nonneg by lia.
  destruct (lookup_lt_is_Some_2 l (Z.to_nat i) ltac:(lia)) as [x ->]. eauto.
Qed.

Section Forward.

Variables (n : Z) (a b : matrix) (obs : list Z).

Local Abbreviation T := (Z.of_nat (length obs)).

Hypothesis Ha : forall i j, 0 <= i <= n -> 0 <= j < n ->
  exists x, py_index2 a i j = Ok x.
Hypothesis Hb : forall t j, 0 <= t < T -> 0 <= j < n ->
  exists e, emission b obs t j = Ok e.
Hypothesis HT : 1 <= T.

Lemma same_but_step tb V' B' t j x y :
  0 <= t -> 0 <= j ->
  py_setitem2 (tV tb) t j x = Ok V' -> py_setitem2 (tB tb) t j y = Ok B' ->
  same_but tb (Tables V' B') t j.
Proof.
  intros Ht Hj HV HB t' j' Ht' Hj' Hne. simpl.
  split; eapply (get_set_other _ _ t j t' j'); eassumption.
Qed.

Lemma allocated_step tb V' B' t j x y :
  0 <= t -> 0 <= j ->
  py_setitem2 (tV tb) t j x = Ok V' -> py_setitem2 (tB tb) t j y = Ok B' ->
  allocated n obs tb -> allocated n obs (Tables V' B').
Proof.
  intros Ht Hj HV HB Hal t' j' Ht' Hj'. simpl.
  destruct (decide (t' = t /\ j' = j)) as [[-> ->]|Hne].
  - rewrite (get_set_same _ _ _ _ _ Ht Hj HV),
            (get_set_same _ _ _ _ _ Ht Hj HB). eauto.
  - rewrite (get_set_other _ _ t j t' j' x Ht Hj) by (try eassumption; lia).
    rewrite (get_set_other _ _ t j t' j' y Ht Hj) by (try eassumption; lia).
    apply Hal; assumption.
Qed.

Lemma cand_same V V' t j i :
  py_index2 V' (t - 1) i = py_index2 V (t - 1) i ->
  cand a V' t j i = cand a V t j i.
Proof. unfold cand. intros ->. reflexivity. Qed.

Lemma init_eq_frame tb tb' t0 j0 j :
  same_but tb tb' t0 j0 -> 0 <= j -> t0 <> 0 \/ j0 <> j ->
  init_eq a b obs tb j -> init_eq a b obs tb' j.
Proof.
  intros Hs Hj Hne (x & e & H1 & H2 & H3 & H4).
  destruct (Hs 0 j ltac:(lia) Hj ltac:(lia)) as [EV EB].
  exists x, e. rewrite EV, EB. auto.
Qed.

Lemma rec_cell_frame tb tb' t0 j0 t j :
  same_but tb tb' t0 j0 -> 1 <= t -> 0 <= j ->
  t < t0 \/ (t = t0 /\ j <> j0) ->
  rec_cell n a b obs tb t j -> rec_cell n a b obs tb' t j.
Proof.
  intros Hs Ht Hj Hne (best & i_max & e & H1 & H2 & H3 & H4 & H5).
  assert (E : forall i, 0 <= i < n ->
              cand a (tV tb') t j i = cand a (tV tb) t j i).
  { intros i Hi. apply cand_same. apply Hs; lia. }
  destruct (Hs t j ltac:(lia) Hj ltac:(lia)) as [EV EB].
  exists best, i_max, e. rewrite EV, EB.
  split; [eapply argmax_spec_ext; eassumption|].
  split; [|auto].
  intros i Hi. rewrite E by exact Hi. auto.
Qed.

(** *** Initialization *)

Lemma init_loop o tb :
  py_index obs 0 = Ok o -> allocated n obs tb ->
  exists tb', for_range 0 (Z.to_nat n) (init_body a b (o - 1)) tb = Ok tb' /\
              init_inv n a b obs (Z.max 0 n) tb'.
Proof.
  intros Ho Hal.
  destruct (for_range_rule (init_inv n a b obs) 0 (Z.to_nat n)
            (init_body a b (o - 1)) tb)
    as (tb' & H & HI).
  - split; [exact Hal|]. intros; lia.
  - intros j s Hj [Hal' Hin].
    destruct (Ha 0 j ltac:(lia) ltac:(lia)) as (x & Hx).
    destruct (Hb 0 j ltac:(lia) ltac:(lia)) as (e & He).
    assert (He' : py_index2 b j (o - 1) = Ok e).
    { unfold emission in He. rewrite Ho in He. exact He. }
    destruct (Hal' 0 j ltac:(lia) ltac:(lia)) as [(v & Hv) (w & Hw)].
    destruct (set_ok _ 0 j v (F32.add x e) ltac:(lia) ltac:(lia) Hv)
      as (V' & HV').
    destruct (set_ok _ 0 j w 0 ltac:(lia) ltac:(lia) Hw) as (B' & HB').
    exists (Tables V' B'). split.
    { unfold init_body. rewrite Hx. simpl. rewrite He'. simpl.
      rewrite HV'. simpl. rewrite HB'. reflexivity. }
    pose proof (same_but_step s V' B' 0 j _ _ ltac:(lia) ltac:(lia) HV' HB')
      as Hs.
    split; [eapply allocated_step; try eassumption; lia|].
    intros j' Hj'. destruct (decide (j' = j)) as [->|Hne].
    + exists x, e. simpl. split; [exact Hx|]. split; [exact He|].
      split; eapply get_set_same; try eassumption; lia.
    + eapply init_eq_frame; [exact Hs|lia|right; lia|].
      apply Hin. lia.
  - exists tb'. split; [exact H|].
    replace (0 + Z.of_nat (Z.to_nat n)) with (Z.max 0 n) in HI by lia.
    destruct HI as [H1 H2]. split; [exact H1|]. intros j' Hj'. apply H2. lia.
Qed.

(** *** One time step *)

Lemma scan_loop tb t j :
  1 <= t < T -> 0 <= j < n -> allocated n obs tb ->
  exists best bk,
    for_range 0 (Z.to_nat n) (scan_body a (tV tb) t j) (F32.neg_inf, 0)
      = Ok (best, bk) /\
    argmax_spec (cand a (tV tb) t j) n best bk /\
    forall i, 0 <= i < n -> exists c, cand a (tV tb) t j i = Ok c.
Proof.
  intros Ht Hj Hal.
  assert (Hc : forall i, 0 <= i < n -> exists c, cand a (tV tb) t j i = Ok c).
  { intros i Hi. unfold cand.
    destruct (Hal (t - 1) i ltac:(lia) Hi) as [(v & ->) _]. simpl.
    destruct (Ha (i + 1) j ltac:(lia) Hj) as (x & ->). simpl. eauto. }
  destruct (argmax_loop_total _ n Hc) as (best & bk & H).
  exists best, bk.
  rewrite (for_range_ext _ _ _ _ _ (scan_body_argmax a (tV tb) t j)).
  split; [exact H|]. split; [|exact Hc].
  apply argmax_loop_spec, H.
Qed.

Lemma state_step t o j tb :
  1 <= t < T -> 0 <= j < n -> py_index obs t = Ok o ->
  state_inv n a b obs t j tb ->
  exists tb', state_body n a b t (o - 1) j tb = Ok tb' /\
              state_inv n a b obs t (j + 1) tb'.
Proof.
  intros Ht Hj Ho [(Hal & Hin & Hrec) Hrow].
  destruct (scan_loop tb t j Ht Hj Hal) as (best & bk & Hscan & Hspec & Hc).
  destruct (Hb t j ltac:(lia) Hj) as (e & He).
  assert (He' : py_index2 b j (o - 1) = Ok e).
  { unfold emission in He. rewrite Ho in He. exact He. }
  destruct (Hal t j ltac:(lia) Hj) as [(v & Hv) (w & Hw)].
  destruct (set_ok _ t j v (F32.add best e) ltac:(lia) ltac:(lia) Hv)
    as (V' & HV').
  destruct (set_ok _ t j w bk ltac:(lia) ltac:(lia) Hw) as (B' & HB').
  exists (Tables V' B'). split.
  { unfold state_body. rewrite Hscan. simpl. rewrite He'. simpl.
    rewrite HV'. simpl. rewrite HB'. reflexivity. }
  pose proof (same_but_step tb V' B' t j _ _ ltac:(lia) ltac:(lia) HV' HB')
    as Hs.
  split; [split; [|split]|].
  - eapply allocated_step; try eassumption; lia.
  - intros j' Hj'. eapply init_eq_frame; [exact Hs|lia|left; lia|auto].
  - intros t' j' Ht' Hj'.
    eapply rec_cell_frame; [exact Hs|lia|lia|left; lia|auto].
  - intros j' Hj'. destruct (decide (j' = j)) as [->|Hne].
    + exists best, bk, e. simpl.
      assert (E : forall i, 0 <= i < n ->
                  cand a V' t j i = cand a (tV tb) t j i).
      { intros i Hi. apply cand_same.
        eapply (get_set_other _ _ t j (t - 1) i); [| | | | |exact HV']; lia. }
      split; [eapply argmax_spec_ext; eassumption|].
      split; [intros i Hi; rewrite E by exact Hi; auto|].
      split; [exact He|].
      split; eapply get_set_same; try eassumption; lia.
    + eapply rec_cell_frame; [exact Hs|lia|lia|right; lia|].
      apply Hrow. lia.
Qed.

Lemma time_step t tb :
  1 <= t < T -> time_inv n a b obs t tb ->
  exists tb', time_body n a b obs t tb = Ok tb' /\
            time_inv n a b obs (t + 1) tb'.
Proof.
  intros Ht Hinv.
  destruct (py_index_lt obs t ltac:(lia)) as (o & Ho).
  destruct (for_range_rule (state_inv n a b obs t) 0 (Z.to_nat n)
              (state_body n a b t (o - 1)) tb) as (tb' & H & [HI Hrow]).
  - split; [exact Hinv|]. intros; lia.
  - intros j s Hj. apply state_step; [exact Ht|lia|exact Ho].
  - exists tb'. split.
    { unfold time_body. rewrite Ho. exact H. }
    destruct HI as (Hal & Hin & Hrec).
    split; [exact Hal|]. split; [exact Hin|].
    intros t' j Ht' Hj. destruct (decide (t' = t)) as [->|Hne].
    + apply Hrow. lia.
    + apply Hrec; lia.
Qed.

Lemma allocated_fresh :
  allocated n obs
    (Tables (replicate (Z.to_nat T) (replicate (Z.to_nat n) F32.neg_inf))
            (replicate (Z.to_nat T) (replicate (Z.to_nat n) 0))).
Proof.
  intros t j Ht Hj. simpl.
  rewrite !py_index2_replicate by lia. eauto.
Qed.

(** The forward pass returns, and the tables it returns are filled. *)
Lemma forward_filled :
  exists tb, forward n a b obs = Ok tb /\ filled n a b obs tb.
Proof.
  destruct (py_index_lt obs 0 ltac:(lia)) as (o & Ho).
  destruct (init_loop o _ Ho allocated_fresh) as (tb0 & H0 & Hal0 & Hin0').
assert (Hin0 : forall j, 0 <= j < n -> init_eq a b obs tb0 j).
{ intros j Hj. apply Hin0'. lia. }
  destruct (for_range_rule (time_inv n a b obs) 1 (Z.to_nat (T - 1))
              (time_body n a b obs) tb0) as (tb & H & HI).
  - split; [exact Hal0|]. split; [exact Hin0|]. intros; lia.
  - intros t s Ht. apply time_step. lia.
  - exists tb. split.
    { unfold forward. rewrite Ho. simpl. rewrite H0. exact H. }
    replace (1 + Z.of_nat (Z.to_nat (T - 1))) with T in HI by lia.
    exact HI.
Qed.

End Forward.


(** ** Termination and backtrace *)

Lemma py_get_set_same {A : Type} (l l' : list A) (i : Z) (x : A) :
  0 <= i -> py_setitem l i x = Ok l' -> py_index l' i = Ok x.
Proof.
  intros Hi H. rewrite py_setitem_nonneg in H by exact Hi.
  destruct (Z.ltb_spec i (Z.of_nat (length l))); [|discriminate].
  injection H as <-. apply py_index_Ok; [exact Hi|].
  apply list_lookup_insert_eq. lia.
Qed.

Lemma py_get_set_other {A : Type} (l l' : list A) (i i' : Z) (x : A) :
  0 <= i -> 0 <= i' -> i' <> i ->
  py_setitem l i x = Ok l' -> py_index l' i' = py_index l i'.
Proof.
  intros Hi Hi' Hne H. rewrite py_setitem_nonneg in H by exact Hi.
  destruct (Z.ltb_spec i (Z.of_nat (length l))); [|discriminate].
  injection H as <-. rewrite !py_index_nonneg by exact Hi'.
  rewrite list_lookup_insert_ne by lia. reflexivity.
Qed.

Section Backward.

Variables (n : Z) (obs : list Z).

Local Abbreviation T := (Z.of_nat (length obs)).

Hypothesis HT : 1 <= T.

Lemma terminate_total V :
  (forall j, 0 <= j < n -> exists v, py_index2 V (T - 1) j = Ok v) ->
  exists best fs,
    terminate n obs V = Ok (best, fs) /\
    argmax_spec (fun j => py_index2 V (T - 1) j) n best fs.
Proof.
  intros HV. destruct (argmax_loop_total _ n HV) as (best & fs & H).
  exists best, fs. split; [|apply argmax_loop_spec, H].
  unfold terminate.
  rewrite (for_range_ext _ _ _ _ _ (final_body_argmax V T)). exact H.
Qed.

(** The returned probability is never a NaN. *)
Lemma argmax_best_not_nan score best bk :
  argmax_spec score n best bk -> F32.is_nan best = false.
Proof.
  intros Hspec.
  destruct (am_kept _ _ _ _ Hspec) as [[-> _]|(_ & _ & G)]; [reflexivity|].
  destruct best as [[s|s| |s m e]|s m]; try reflexivity; discriminate.
Qed.

Lemma terminate_not_nan V best fs :
  terminate n obs V = Ok (best, fs) -> F32.is_nan best = false.
Proof.
  unfold terminate. intros H.
  rewrite (for_range_ext _ _ _ _ _ (final_body_argmax V T)) in H.
  eapply argmax_best_not_nan, argmax_loop_spec, H.
Qed.

Variable B : list (list Z).

Hypothesis HB : forall t j, 0 <= t < T -> 0 <= j < n ->
  exists v, py_index2 B t j = Ok v /\ 0 <= v < n.

Lemma back_step fs k path :
  0 <= k <= T - 2 -> back_inv n obs B fs k path ->
  exists path', back_body B k path = Ok path' /\
              back_inv n obs B fs (k - 1) path'.
Proof.
  intros Hk (Hlen & Hlast & Hrng & Heq).
  destruct (Hrng (k + 1) ltac:(lia)) as (p & Hp & Hpr).
  destruct (HB (k + 1) (p - 1) ltac:(lia) ltac:(lia)) as (prev & Hprev & Hv).
  assert (Hset : py_setitem path k (prev + 1)
                 = Ok (<[Z.to_nat k := prev + 1]> path)).
  { rewrite py_setitem_nonneg by lia.
    destruct (Z.ltb_spec k (Z.of_nat (length path))); [reflexivity|].
    lia. }
  exists (<[Z.to_nat k := prev + 1]> path). split.
  { unfold back_body. rewrite Hp. simpl. rewrite Hprev. simpl. exact Hset. }
  assert (Hother : forall t, 0 <= t -> t <> k ->
            py_index (<[Z.to_nat k := prev + 1]> path) t = py_index path t).
  { intros t Ht Hne. eapply py_get_set_other; [| | |exact Hset]; lia. }
  pose proof (py_get_set_same _ _ k _ ltac:(lia) Hset) as Hsame.
  split; [rewrite length_insert; exact Hlen|].
  split; [rewrite Hother by lia; exact Hlast|].
  split.
  - intros t Ht. destruct (decide (t = k)) as [->|Hne].
    + exists (prev + 1). split; [exact Hsame|lia].
    + rewrite Hother by lia. apply Hrng. lia.
  - intros t Ht. destruct (decide (t = k)) as [->|Hne].
    + exists p, prev. rewrite Hother by lia. auto.
    + rewrite !Hother by lia. apply Heq. lia.
Qed.

Lemma backtrace_total fs :
  0 <= fs < n ->
  exists path,
    backtrace obs B fs = Ok path /\
    length path = length obs /\
    backtrace_eq obs B fs path /\
    Forall (fun p => 1 <= p <= n) path.
Proof.
  intros Hfs.
  set (path0 := <[Z.to_nat (T - 1) := fs + 1]> (replicate (Z.to_nat T) 0)).
  assert (H0 : py_setitem (replicate (Z.to_nat T) 0) (T - 1) (fs + 1)
               = Ok path0).
  { rewrite py_setitem_nonneg by lia. rewrite length_replicate.
    destruct (Z.ltb_spec (T - 1) (Z.of_nat (Z.to_nat T))); [reflexivity|lia]. }
  pose proof (py_get_set_same _ _ (T - 1) _ ltac:(lia) H0) as Hlast.
  destruct (for_down_rule (back_inv n obs B fs) (T - 2) (Z.to_nat (T - 1))
              (back_body B) path0) as (path & H & HI).
  - split; [|split; [exact Hlast|split]].
    + unfold path0. rewrite length_insert, length_replicate. lia.
    + intros t Ht. replace t with (T - 1) by lia.
      exists (fs + 1). split; [exact Hlast|lia].
    + intros; lia.
  - intros k s Hk. apply back_step. lia.
  - replace (T - 2 - Z.of_nat (Z.to_nat (T - 1))) with (-1) in HI by lia.
    destruct HI as (Hlen & Hl & Hrng & Heq).
    exists path. split.
    { unfold backtrace. rewrite H0. exact H. }
    split; [exact Hlen|]. split.
    + split; [exact Hl|]. intros t Ht. apply Heq. lia.
    + apply Forall_lookup. intros i p Hi.
      pose proof (lookup_lt_Some _ _ _ Hi) as Hlt.
      destruct (Hrng (Z.of_nat i)) as (p' & Hp' & Hr).
      { lia. }
      apply py_index_Ok in Hp'; [|lia]. rewrite Nat2Z.id in Hp'.
      congruence.
Qed.

End Backward.


(** ** The whole decoder on a well-formed model *)

Lemma py_index_elem {A : Type} (l : list A) (i : Z) (x : A) :
  py_index l i = Ok x -> x ∈ l.
Proof.
  unfold py_index. destruct (norm_index (length l) i) as [k|]; simpl.
  - destruct (l !! k) eqn:E; [|discriminate].
    intros [= <-]. eapply list_elem_of_lookup_2, E.
  - discriminate.
Qed.

Lemma py_index2_elem {A : Type} (M : list (list A)) (t j : Z) (x : A) :
  py_index2 M t j = Ok x -> exists row, row ∈ M /\ x ∈ row.
Proof.
  unfold py_index2. intros H. apply bind_Ok in H as (row & H1 & H2).
  exists row. eauto using py_index_elem.
Qed.

Lemma py_index2_shape {A : Type} (M : list (list A)) (rows cols : nat) (t j : Z) :
  length M = rows -> Forall (fun row => length row = cols) M ->
  0 <= t < Z.of_nat rows -> 0 <= j < Z.of_nat cols ->
  exists x, py_index2 M t j = Ok x.
Proof.
  intros Hr Hc Ht Hj. rewrite py_index2_nonneg by lia.
  destruct (lookup_lt_is_Some_2 M (Z.to_nat t) ltac:(lia)) as [row Hrow].
  rewrite Hrow. simpl.
  pose proof (Forall_lookup_1 _ _ _ _ Hc Hrow) as Hlen. simpl in Hlen.
  destruct (lookup_lt_is_Some_2 row (Z.to_nat j) ltac:(lia)) as [x ->]. eauto.
Qed.

(** An argmax over scores none of which is a NaN returns an index whose
    score is the best one, and every score is at most the best one. *)
Lemma argmax_attained (n : Z) score best bk :
  1 <= n ->
  argmax_spec score n best bk ->
  (forall i, 0 <= i < n -> exists c, score i = Ok c) ->
  (forall i c, 0 <= i < n -> score i = Ok c -> F32.is_nan c = false) ->
  0 <= bk < n /\ score bk = Ok best /\
  forall i, 0 <= i < n -> exists c, score i = Ok c /\ F32.le c best = true.
Proof.
  intros Hn Hspec Hex Hnn.
  assert (Hb : 0 <= bk < n /\ score bk = Ok best).
  { destruct (am_kept _ _ _ _ Hspec) as [[-> ->]|(Hk & Hb & _)]; [|auto].
    split; [lia|].
    destruct (Hex 0 ltac:(lia)) as (c & Hc). rewrite Hc. f_equal.
    apply not_gt_neg_inf.
    - eapply Hnn; [|exact Hc]. lia.
    - eapply (am_max _ _ _ _ Hspec); [|exact Hc]. lia. }
  destruct Hb as [Hk Hb]. split; [exact Hk|]. split; [exact Hb|].
  intros i Hi. destruct (Hex i Hi) as (c & Hc). exists c.
  split; [exact Hc|]. apply le_of_not_gt.
  - exact (Hnn i c Hi Hc).
  - exact (Hnn bk best Hk Hb).
  - exact (am_max _ _ _ _ Hspec i c Hi Hc).
Qed.

Lemma nonempty_length (obs : list Z) : obs <> [] -> 1 <= Z.of_nat (length obs).
Proof. destruct obs; [congruence|simpl; lia]. Qed.

Lemma run_viterbi_prob_not_nan n a b obs path prob :
  run_viterbi n a b obs = Ok (path, prob) -> F32.is_nan prob = false.
Proof.
  unfold run_viterbi. destruct (Z.of_nat (length obs) =? 0).
  - intros [= _ <-]. reflexivity.
  - intros H. apply bind_Ok in H as (tb & _ & H).
    apply bind_Ok in H as ([best fs] & Hterm & H).
    apply bind_Ok in H as (p & _ & H). injection H as _ <-.
    eapply terminate_not_nan, Hterm.
Qed.

Section Run.

Variables (n m : Z) (a b : matrix) (obs : list Z).

Local Abbreviation T := (Z.of_nat (length obs)).

Hypothesis Hwf : wf_model n m a b.
Hypothesis Hobs : wf_sequence m obs.
Hypothesis Hne : obs <> [].

Lemma T_pos : 1 <= T.
Proof. apply nonempty_length, Hne. Qed.

Lemma n_pos : 1 <= n.
Proof. apply Hwf. Qed.

Lemma access_a i j :
  0 <= i <= n -> 0 <= j < n -> exists x, py_index2 a i j = Ok x.
Proof.
  destruct Hwf as (Hn & Hm & Ha1 & Ha2 & _). intros Hi Hj.
  eapply py_index2_shape; [exact Ha1|exact Ha2|lia|lia].
Qed.

Lemma access_obs t :
  0 <= t < T -> exists o, py_index obs t = Ok o /\ 1 <= o <= m.
Proof.
  intros Ht. destruct (py_index_lt obs t Ht) as (o & Ho).
  exists o. split; [exact Ho|].
  apply py_index_elem in Ho.
  exact (proj1 (Forall_forall _ _) Hobs o Ho).
Qed.

Lemma access_emission t j :
  0 <= t < T -> 0 <= j < n -> exists e, emission b obs t j = Ok e.
Proof.
  destruct Hwf as (Hn & Hm & _ & _ & Hb1 & Hb2). intros Ht Hj.
  destruct (access_obs t Ht) as (o & Ho & Hr).
  unfold emission. rewrite Ho. simpl.
  eapply py_index2_shape; [exact Hb1|exact Hb2|lia|lia].
Qed.

(** Backtrace pointers lie in [0, n). *)
Lemma filled_B_range tb t j :
  filled n a b obs tb -> 0 <= t < T -> 0 <= j < n ->
  exists v, py_index2 (tB tb) t j = Ok v /\ 0 <= v < n.
Proof.
  intros (Hal & Hin & Hrec) Ht Hj.
  destruct (decide (t = 0)) as [->|Hne0].
  - destruct (Hin j Hj) as (x & e & _ & _ & _ & HB).
    exists 0. split; [exact HB|lia].
  - destruct (Hrec t j ltac:(lia) Hj)
      as (best & bk & e & Hspec & _ & _ & HB & _).
    exists bk. split; [exact HB|].
    destruct (am_kept _ _ _ _ Hspec) as [[_ ->]|[Hk _]]; lia.
Qed.

(** [run_viterbi] returns; the tables, the termination and the backtrace
    behind its result. *)
Lemma run_viterbi_total :
  exists tb best fs path,
    forward n a b obs = Ok tb /\ filled n a b obs tb /\
    terminate n obs (tV tb) = Ok (best, fs) /\
    argmax_spec (fun j => py_index2 (tV tb) (T - 1) j) n best fs /\
    backtrace obs (tB tb) fs = Ok path /\
    length path = length obs /\
    backtrace_eq obs (tB tb) fs path /\
    Forall (fun p => 1 <= p <= n) path /\
    run_viterbi n a b obs = Ok (path, best).
Proof.
  pose proof T_pos as HT. pose proof n_pos as Hn.
  destruct (forward_filled n a b obs access_a access_emission HT)
    as (tb & Hfw & Hfill).
  destruct (terminate_total n obs (tV tb)) as (best & fs & Hterm & Hspec).
  { intros j Hj. apply (proj1 Hfill (T - 1) j); [lia|exact Hj]. }
  assert (Hfs : 0 <= fs < n).
  { destruct (am_kept _ _ _ _ Hspec) as [[_ ->]|[Hk _]]; lia. }
  destruct (backtrace_total n obs HT (tB tb)) with (fs := fs)
    as (path & Hbt & Hlen & Heq & Hrng).
  { intros t j. apply filled_B_range, Hfill. }
  { exact Hfs. }
  exists tb, best, fs, path.
  repeat (split; [assumption|]).
  unfold run_viterbi. destruct (Z.eqb_spec (Z.of_nat (length obs)) 0) as [E|_].
  { lia. }
  rewrite Hfw. simpl. rewrite Hterm. simpl. rewrite Hbt. reflexivity.
Qed.

End Run.

(** ** No NaN arises

    [ok_e] holds of the entries of the model and [ok_v] of the scores the
    tables can then hold. *)

Section NoNaN.

Variables (n : Z) (a b : matrix) (obs : list Z).
Variables ok_v ok_e : fp -> bool.

Hypothesis ok_inf : ok_v F32.neg_inf = true.
Hypothesis ok_add : forall x y,
  ok_v x = true -> ok_e y = true -> ok_v (F32.add x y) = true.
Hypothesis ok_entry : forall x, ok_e x = true -> ok_v x = true.
Hypothesis ok_model : entries a b ok_e.

Lemma entry_a i j x : py_index2 a i j = Ok x -> ok_e x = true.
Proof.
  intros H. apply py_index2_elem in H as (row & Hrow & Hx).
  destruct ok_model as [Hfa _].
  pose proof (proj1 (Forall_forall _ _) Hfa row Hrow) as Hr.
  exact (proj1 (Forall_forall _ _) Hr x Hx).
Qed.

Lemma entry_emission t j e : emission b obs t j = Ok e -> ok_e e = true.
Proof.
  unfold emission. intros H. apply bind_Ok in H as (o & _ & H).
  apply py_index2_elem in H as (row & Hrow & Hx).
  destruct ok_model as [_ Hfb].
  pose proof (proj1 (Forall_forall _ _) Hfb row Hrow) as Hr.
  exact (proj1 (Forall_forall _ _) Hr e Hx).
Qed.

Lemma cand_ok V t j i c :
  (forall v, py_index2 V (t - 1) i = Ok v -> ok_v v = true) ->
  cand a V t j i = Ok c -> ok_v c = true.
Proof.
  intros HV H. unfold cand in H.
  apply bind_Ok in H as (v & Hv & H). apply bind_Ok in H as (x & Hx & H).
  injection H as <-. apply ok_add; eauto using entry_a.
Qed.

Lemma argmax_ok score best bk :
  argmax_spec score n best bk ->
  (forall i c, 0 <= i < n -> score i = Ok c -> ok_v c = true) ->
  ok_v best = true.
Proof.
  intros Hspec Hs.
  destruct (am_kept _ _ _ _ Hspec) as [[-> _]|(Hk & Hb & _)]; [exact ok_inf|].
  exact (Hs bk best Hk Hb).
Qed.

Lemma filled_ok tb :
  filled n a b obs tb ->
  forall t j v, 0 <= t < Z.of_nat (length obs) -> 0 <= j < n ->
    py_index2 (tV tb) t j = Ok v -> ok_v v = true.
Proof.
  intros (Hal & Hin & Hrec).
  assert (H : forall t, 0 <= t ->
              forall j v, t < Z.of_nat (length obs) -> 0 <= j < n ->
              py_index2 (tV tb) t j = Ok v -> ok_v v = true).
  { apply (natlike_ind (fun t =>
             forall j v, t < Z.of_nat (length obs) -> 0 <= j < n ->
             py_index2 (tV tb) t j = Ok v -> ok_v v = true)).
    - intros j v _ Hj Hv.
      destruct (Hin j Hj) as (x & e & Hx & He & HV & _).
      assert (v = F32.add x e) as -> by congruence.
      apply ok_add; [apply ok_entry|];
        eauto using entry_a, entry_emission.
    - intros t Ht IH j v Ht' Hj Hv.
      destruct (Hrec (Z.succ t) j ltac:(lia) Hj)
        as (best & bk & e & Hspec & Hc & He & _ & HV).
      assert (v = F32.add best e) as -> by congruence.
      apply ok_add; [|eauto using entry_emission].
      apply (argmax_ok _ _ _ Hspec).
      intros i c Hi Hci. eapply cand_ok; [|exact Hci].
      intros v' Hv'. apply (IH i v'); [lia|exact Hi|].
      replace t with (Z.succ t - 1) by lia. exact Hv'. }
  intros t j v Ht. apply H; lia.
Qed.

End NoNaN.

Lemma not_nan_add x y :
  negb (F32.is_nan x) = true -> F32.is_finite y = true ->
  negb (F32.is_nan (F32.add x y)) = true.
Proof.
  intros Hx Hy. apply negb_true_iff in Hx. apply negb_true_iff.
  apply add_not_nan; assumption.
Qed.

Lemma not_nan_finite x :
  F32.is_finite x = true -> negb (F32.is_nan x) = true.
Proof. intros H. apply negb_true_iff, is_finite_not_nan, H. Qed.

(** With finite entries, or with log-probabilities, no score in [V] is a
    NaN. *)
Lemma filled_not_nan n a b obs tb :
  finite_model a b \/ log_prob_model a b ->
  filled n a b obs tb ->
  forall t j v, 0 <= t < Z.of_nat (length obs) -> 0 <= j < n ->
    py_index2 (tV tb) t j = Ok v -> F32.is_nan v = false.
Proof.
  intros [Hfin|Hlp] Hfill t j v Ht Hj Hv.
  - apply negb_true_iff.
    exact (filled_ok n a b obs (fun x => negb (F32.is_nan x)) F32.is_finite
             eq_refl not_nan_add not_nan_finite Hfin tb Hfill t j v Ht Hj Hv).
  - apply is_log_prob_not_nan.
    exact (filled_ok n a b obs F32.is_log_prob F32.is_log_prob
             eq_refl add_log_prob (fun x H => H) Hlp tb Hfill t j v Ht Hj Hv).
Qed.

Lemma entry_not_nan a b :
  finite_model a b \/ log_prob_model a b ->
  forall i j x, py_index2 a i j = Ok x -> F32.is_nan x = false.
Proof.
  intros [H|H] i j x Hx.
  - apply is_finite_not_nan. eapply entry_a; eassumption.
  - apply is_log_prob_not_nan. eapply entry_a; eassumption.
Qed.

(** The candidates of a filled table are no NaN either. *)
Lemma cand_not_nan n a b obs tb t j i c :
  finite_model a b \/ log_prob_model a b ->
  filled n a b obs tb -> 1 <= t < Z.of_nat (length obs) -> 0 <= i < n ->
  cand a (tV tb) t j i = Ok c -> F32.is_nan c = false.
Proof.
  intros Hm Hfill Ht Hi H.
  destruct Hm as [Hfin|Hlp].
  - apply negb_true_iff.
    eapply (cand_ok a b (fun x => negb (F32.is_nan x)) F32.is_finite
              not_nan_add Hfin); [|exact H].
    intros v Hv. apply negb_true_iff.
    eapply (filled_not_nan n a b obs tb (or_introl Hfin) Hfill (t - 1) i);
      [lia|lia|exact Hv].
  - apply is_log_prob_not_nan.
    eapply (cand_ok a b F32.is_log_prob F32.is_log_prob add_log_prob Hlp);
      [|exact H].
    intros v Hv.
    eapply (filled_ok n a b obs F32.is_log_prob F32.is_log_prob
              eq_refl add_log_prob (fun x H => H) Hlp tb Hfill (t - 1) i);
      [lia|lia|exact Hv].
Qed.

Lemma filled_rec_eq n a b obs tb t j :
  1 <= n -> finite_model a b \/ log_prob_model a b ->
  filled n a b obs tb -> 1 <= t < Z.of_nat (length obs) -> 0 <= j < n ->
  rec_eq n a b obs tb t j.
Proof.
  intros Hn Hm Hfill Ht Hj.
  destruct (proj2 (proj2 Hfill) t j Ht Hj)
    as (best & bk & e & Hspec & Hc & He & HB & HV).
  destruct (argmax_attained n _ _ _ Hn Hspec Hc) as (Hk & Hb & Hle).
  { intros i c Hi Hci. eapply cand_not_nan; eassumption. }
  exists bk, best, e. auto 10.
Qed.


(** ** Hexadecimal text *)

Lemma hex_digit_all (P : Z -> Prop) :
  P 0 -> P 1 -> P 2 -> P 3 -> P 4 -> P 5 -> P 6 -> P 7 ->
  P 8 -> P 9 -> P 10 -> P 11 -> P 12 -> P 13 -> P 14 -> P 15 ->
  forall d, hex_digit d -> P d.
Proof.
  intros H0 H1 H2 H3 H4 H5 H6 H7 H8 H9 H10 H11 H12 H13 H14 H15 d Hd.
  unfold hex_digit in Hd.
  assert (d = 0 \/ d = 1 \/ d = 2 \/ d = 3 \/ d = 4 \/ d = 5 \/ d = 6 \/
          d = 7 \/ d = 8 \/ d = 9 \/ d = 10 \/ d = 11 \/ d = 12 \/ d = 13 \/
          d = 14 \/ d = 15) as H by lia.
  repeat (destruct H as [-> | H]; [assumption|]). subst. assumption.
Qed.

Lemma hex_char_val d : hex_digit d -> digit_val (hex_char d) = Some d.
Proof.
  revert d.
  apply (hex_digit_all (fun d => digit_val (hex_char d) = Some d));
    reflexivity.
Qed.

Lemma hex_char_not_space d : hex_digit d -> is_space (hex_char d) = false.
Proof.
  revert d.
  apply (hex_digit_all (fun d => is_space (hex_char d) = false)); reflexivity.
Qed.

Lemma hex_char_not_c_space d : hex_digit d -> is_c_space (hex_char d) = false.
Proof.
  revert d.
  apply (hex_digit_all (fun d => is_c_space (hex_char d) = false));
    reflexivity.
Qed.

Lemma hex_char_plain d (c : ascii) :
  hex_digit d ->
  (is_space c || is_c_space c || Ascii.eqb c "_" || Ascii.eqb c "-" ||
   Ascii.eqb c "+" || Ascii.eqb c "x" || Ascii.eqb c "X")%bool = true ->
  Ascii.eqb (hex_char d) c = false.
Proof.
  intros H Hc. destruct (Ascii.eqb_spec (hex_char d) c) as [<-|]; [|reflexivity].
  exfalso. revert d H Hc.
  apply (hex_digit_all (fun d =>
           (is_space (hex_char d) || is_c_space (hex_char d) ||
            Ascii.eqb (hex_char d) "_" || Ascii.eqb (hex_char d) "-" ||
            Ascii.eqb (hex_char d) "+" || Ascii.eqb (hex_char d) "x" ||
            Ascii.eqb (hex_char d) "X")%bool = true -> False));
    discriminate.
Qed.

Lemma parse_hex_string ds acc after :
  Forall hex_digit ds -> ds <> [] \/ after = true ->
  parse_digits 16 (hex_string ds) acc after
  = Some (fold_left (fun acc d => acc * 16 + d) ds acc).
Proof.
  intros Hds. revert acc after.
  induction Hds as [|d ds Hd Hds IH]; intros acc after Hne; simpl.
  - destruct Hne as [? | ->]; [congruence|reflexivity].
  - rewrite (hex_char_plain d "_" Hd) by reflexivity.
    rewrite (hex_char_val d Hd).
    destruct (Z.ltb_spec d 16) as [_|]; [|unfold hex_digit in Hd; lia].
    apply IH. right. reflexivity.
Qed.

Lemma lskip_hex_string d ds :
  hex_digit d -> lskip (hex_string (d :: ds)) = hex_string (d :: ds).
Proof. intros H. simpl. rewrite (hex_char_not_c_space d H). reflexivity. Qed.

Lemma rskip_hex_string ds :
  Forall hex_digit ds -> rskip (hex_string ds) = hex_string ds.
Proof.
  unfold hex_string.
  induction 1 as [|d ds Hd Hds IH]; simpl; [reflexivity|].
  rewrite IH.
  destruct (string_of_chars (map hex_char ds)); [|reflexivity].
  rewrite (hex_char_not_c_space d Hd). reflexivity.
Qed.

Lemma lstrip_hex_string d ds s :
  hex_digit d ->
  lstrip (hex_string (d :: ds) ++ s) = (hex_string (d :: ds) ++ s)%string.
Proof. intros H. simpl. rewrite (hex_char_not_space d H). reflexivity. Qed.

Lemma rstrip_hex_string_nl ds :
  Forall hex_digit ds -> rstrip (hex_string ds ++ nl) = hex_string ds.
Proof.
  unfold hex_string.
  induction 1 as [|d ds Hd Hds IH]; simpl; [reflexivity|].
  rewrite IH.
  destruct (string_of_chars (map hex_char ds)); [|reflexivity].
  rewrite (hex_char_not_space d Hd). reflexivity.
Qed.

Lemma py_int_hex_string d0 d1 ds :
  Forall hex_digit (d0 :: d1 :: ds) ->
  py_int 16 (hex_string (d0 :: d1 :: ds))
  = Ok (fold_left (fun acc d => acc * 16 + d) (d0 :: d1 :: ds) 0).
Proof.
  intros H. pose proof (Forall_inv H) as H0.
  pose proof (Forall_inv (Forall_inv_tail H)) as H1.
  unfold py_int. rewrite lskip_hex_string by exact H0.
  rewrite rskip_hex_string by exact H.
  change (hex_string (d0 :: d1 :: ds))
    with (String (hex_char d0) (String (hex_char d1) (hex_string ds))).
  unfold split_sign.
  rewrite (hex_char_plain d0 "-" H0), (hex_char_plain d0 "+" H0) by reflexivity.
  unfold skip_prefix.
  rewrite (hex_char_plain d1 "x" H1), (hex_char_plain d1 "X" H1) by reflexivity.
  rewrite andb_false_r.
  change (String (hex_char d0) (String (hex_char d1) (hex_string ds)))
    with (hex_string (d0 :: d1 :: ds)).
  rewrite parse_hex_string; [reflexivity|exact H|left; discriminate].
Qed.

(** *** Digits of a number *)

Lemma hex_digits_digit fuel v : 0 <= v -> Forall hex_digit (hex_digits fuel v).
Proof.
  revert v. induction fuel as [|k IH]; intros v Hv; simpl; [constructor|].
  constructor.
  - unfold hex_digit. apply Z.mod_pos_bound. lia.
  - destruct (v / 16 =? 0); [constructor|]. apply IH. apply Z.div_pos; lia.
Qed.

Lemma hex_digits_value fuel v :
  0 <= v < 16 ^ Z.of_nat fuel ->
  fold_right (fun d acc => acc * 16 + d) 0 (hex_digits fuel v) = v.
Proof.
  revert v. induction fuel as [|k IH]; intros v Hv.
  - simpl in *. lia.
  - cbn [hex_digits fold_right].
    assert (Hq : fold_right (fun d acc => acc * 16 + d) 0
                   (if v / 16 =? 0 then [] else hex_digits k (v / 16))
                 = v / 16).
    { destruct (Z.eqb_spec (v / 16) 0) as [E|E]; [simpl; lia|].
      apply IH. rewrite Nat2Z.inj_succ, Z.pow_succ_r in Hv by lia.
      split; [apply Z.div_pos; lia|].
      apply Z.div_lt_upper_bound; lia. }
    rewrite Hq. pose proof (Z.div_mod v 16 ltac:(lia)). lia.
Qed.

Lemma hex_fuel_enough v :
  0 <= v -> v < 16 ^ Z.of_nat (S (Z.to_nat (Z.log2 v))).
Proof.
  intros Hv. rewrite Nat2Z.inj_succ, Z2Nat.id by apply Z.log2_nonneg.
  destruct (Z.eq_dec v 0) as [->|Hne].
  - simpl. lia.
  - pose proof (Z.log2_spec v ltac:(lia)) as [_ Hlt].
    eapply Z.lt_le_trans; [exact Hlt|].
    apply Z.pow_le_mono_l. lia.
Qed.

Lemma fold_left_zeros k ds :
  fold_left (fun acc d => acc * 16 + d) (repeat 0 k ++ ds) 0
  = fold_left (fun acc d => acc * 16 + d) ds 0.
Proof. induction k as [|k IH]; simpl; auto. Qed.

Lemma format_08X_digits v : format_08X v = hex_string (digits_08X v).
Proof.
  unfold format_08X, hex_string, digits_08X, pad_zeros.
  rewrite map_app, length_map. f_equal. f_equal.
  induction (8 - length (rev (hex_digits (S (Z.to_nat (Z.log2 v))) v)))%nat;
    simpl; [reflexivity|]. f_equal. assumption.
Qed.

Lemma digits_08X_digit v : 0 <= v -> Forall hex_digit (digits_08X v).
Proof.
  intros Hv. unfold digits_08X. apply Forall_app. split.
  - apply Forall_forall. intros d Hd. apply list_elem_of_In, repeat_spec in Hd.
    subst. unfold hex_digit. lia.
  - apply Forall_rev, hex_digits_digit, Hv.
Qed.

Lemma digits_08X_value v :
  0 <= v -> fold_left (fun acc d => acc * 16 + d) (digits_08X v) 0 = v.
Proof.
  intros Hv. unfold digits_08X. rewrite fold_left_zeros.
  rewrite <- fold_left_rev_right, rev_involutive.
  apply hex_digits_value. split; [exact Hv|apply hex_fuel_enough, Hv].
Qed.

Lemma digits_08X_length v : (8 <= length (digits_08X v))%nat.
Proof. unfold digits_08X. rewrite length_app, repeat_length. lia. Qed.

(** Reading back what [f"{v:08X}"] printed. *)
Lemma py_int_format_08X v : 0 <= v -> py_int 16 (format_08X v) = Ok v.
Proof.
  intros Hv. rewrite format_08X_digits.
  pose proof (digits_08X_digit v Hv) as Hd.
  pose proof (digits_08X_value v Hv) as Hval.
  pose proof (digits_08X_length v) as Hlen.
  destruct (digits_08X v) as [|d0 [|d1 ds]]; simpl in Hlen; try lia.
  rewrite py_int_hex_string by exact Hd. rewrite Hval. reflexivity.
Qed.

Lemma py_strip_format_08X v :
  0 <= v -> py_strip (format_08X v ++ nl) = format_08X v.
Proof.
  intros Hv. rewrite format_08X_digits.
  pose proof (digits_08X_digit v Hv) as Hd.
  pose proof (digits_08X_length v) as Hlen.
  unfold py_strip.
  destruct (digits_08X v) as [|d0 ds] eqn:E; simpl in Hlen; [lia|].
  rewrite lstrip_hex_string by exact (Forall_inv Hd).
  apply rstrip_hex_string_nl, Hd.
Qed.


(** ** Exact conversions between binary32 and binary64 *)

Lemma digits2_pos_size p : digits2_pos p = Pos.size p.
Proof. induction p; simpl; congruence. Qed.

Lemma digits2_pos_bounds m :
  2 ^ (Zpos (digits2_pos m) - 1) <= Zpos m < 2 ^ Zpos (digits2_pos m).
Proof.
  rewrite digits2_pos_size.
  pose proof (Pos.size_gt m) as Hgt. pose proof (Pos.size_le m) as Hle.
  apply Pos2Z.pos_lt_pos in Hgt. apply Pos2Z.pos_le_pos in Hle.
  rewrite Pos2Z.inj_pow in Hgt, Hle. rewrite (Pos2Z.inj_xO m) in Hle.
  assert (E : 2 ^ Zpos (Pos.size m) = 2 * 2 ^ (Zpos (Pos.size m) - 1)).
  { rewrite <- Z.pow_succ_r by lia. f_equal. lia. }
  lia.
Qed.

Lemma iter_xO_succ m k :
  Pos.iter xO m (Pos.succ k) = xO (Pos.iter xO m k).
Proof. apply Pos.iter_succ. Qed.

Lemma digits2_pos_iter_xO m k :
  Zpos (digits2_pos (Pos.iter xO m k)) = Zpos (digits2_pos m) + Zpos k.
Proof.
  induction k as [|k IH] using Pos.peano_ind.
  - simpl. lia.
  - rewrite iter_xO_succ. simpl digits2_pos. lia.
Qed.

Lemma iter_pos_iter {A : Type} (f : A -> A) p x :
  SpecFloat.iter_pos f p x = Pos.iter f x p.
Proof.
  revert x. induction p as [p IH|p IH|]; intros x; simpl.
  - rewrite !IH, !Pos.iter_swap. reflexivity.
  - rewrite !IH. reflexivity.
  - reflexivity.
Qed.

Lemma shr_exact m k :
  SpecFloat.iter_pos shr_1 k
    (Build_shr_record (Zpos (Pos.iter xO m k)) false false)
  = Build_shr_record (Zpos m) false false.
Proof.
  rewrite iter_pos_iter. induction k as [|k IH] using Pos.peano_ind.
  - reflexivity.
  - rewrite Pos.iter_succ, <- Pos.iter_swap, iter_xO_succ. exact IH.
Qed.

Section ExactRounding.

Variables prec emax : Z.

(** A canonical mantissa is left as it is. *)
Lemma binary_round_aux_canonical s m e :
  canonical_mantissa prec emax m e = true -> e <= emax - prec ->
  binary_round_aux prec emax s (Zpos m) e loc_Exact = S754_finite s m e.
Proof.
  unfold canonical_mantissa. intros Hc He. apply Z.eqb_eq in Hc.
  unfold binary_round_aux, shr_fexp. simpl Zdigits2.
  rewrite Hc, Z.sub_diag. simpl.
  rewrite Hc, Z.sub_diag. simpl.
  destruct (Z.leb_spec e (emax - prec)); [reflexivity|lia].
Qed.

(** Trailing zeros below a canonical mantissa are shifted out exactly. *)
Lemma binary_round_aux_shifted s m k e :
  canonical_mantissa prec emax m e = true -> e <= emax - prec ->
  binary_round_aux prec emax s (Zpos (Pos.iter xO m k)) (e - Zpos k)
    loc_Exact
  = S754_finite s m e.
Proof.
  unfold canonical_mantissa. intros Hc He. apply Z.eqb_eq in Hc.
  unfold binary_round_aux, shr_fexp. simpl Zdigits2.
  rewrite digits2_pos_iter_xO.
  replace (Zpos (digits2_pos m) + Zpos k + (e - Zpos k))
    with (Zpos (digits2_pos m) + e) by lia.
  rewrite Hc. replace (e - (e - Zpos k)) with (Zpos k) by lia.
  simpl shr_record_of_loc. unfold shr. rewrite shr_exact.
  replace (e - Zpos k + Zpos k) with e by lia. simpl.
  rewrite Hc, Z.sub_diag. simpl.
  destruct (Z.leb_spec e (emax - prec)); [reflexivity|lia].
Qed.

End ExactRounding.

Lemma fexp32 z : fexp 24 128 z = Z.max (z - 24) (-149).
Proof. reflexivity. Qed.

Lemma fexp64 z : fexp 53 1024 z = Z.max (z - 53) (-1074).
Proof. reflexivity. Qed.

Lemma bounded32 m e :
  bounded 24 128 m e = true ->
  let d := Zpos (digits2_pos m) in
  e <= 104 /\ ((d = 24 /\ -149 <= e) \/ (d < 24 /\ e = -149)).
Proof.
  unfold bounded, canonical_mantissa. rewrite fexp32.
  intros H. apply andb_true_iff in H as [H1 H2].
  apply Z.eqb_eq in H1. apply Z.leb_le in H2. simpl in H2. lia.
Qed.

(** A binary32 number converts to binary64 and back unchanged. *)
Lemma widen_narrow_finite s m e :
  bounded 24 128 m e = true ->
  exists mz ez,
    binary_round 53 1024 s m e = S754_finite s mz ez /\
    binary_round 24 128 s mz ez = S754_finite s m e.
Proof.
  intros Hb. pose proof (bounded32 m e Hb) as [He Hd]. simpl in Hd.
  assert (Hc : canonical_mantissa 24 128 m e = true).
  { unfold bounded in Hb. apply andb_true_iff in Hb. apply Hb. }
  assert (Hk : exists k, Zpos k = 53 - Zpos (digits2_pos m)).
  { exists (Z.to_pos (53 - Zpos (digits2_pos m))). rewrite Z2Pos.id; lia. }
  destruct Hk as (k & Hk).
  exists (Pos.iter xO m k), (e - Zpos k). split.
  - unfold binary_round, shl_align. rewrite fexp64.
    replace (Z.max (Zpos (digits2_pos m) + e - 53) (-1074) - e)
      with (Zneg k) by lia.
    replace (Z.max (Zpos (digits2_pos m) + e - 53) (-1074))
      with (e - Zpos k) by lia.
    apply binary_round_aux_canonical; [|lia].
    unfold canonical_mantissa. rewrite digits2_pos_iter_xO, fexp64.
    apply Z.eqb_eq. lia.
  - unfold binary_round, shl_align.
    rewrite digits2_pos_iter_xO, fexp32.
    replace (Z.max (Zpos (digits2_pos m) + Zpos k + (e - Zpos k) - 24) (-149)
             - (e - Zpos k)) with (Zpos k) by lia.
    apply binary_round_aux_shifted; [exact Hc|simpl; lia].
Qed.

Lemma lor_quiet_bit m : Z.testbit m 22 = true -> Z.lor m 4194304 = m.
Proof.
  intros H. apply Z.bits_inj'. intros i Hi. rewrite Z.lor_spec.
  change 4194304 with (2 ^ 22). rewrite Z.pow2_bits_eqb by lia.
  destruct (Z.eqb_spec 22 i) as [<-|]; [rewrite H; reflexivity|].
  apply orb_false_r.
Qed.

(** [float(x)] converted back to a C float is [x], unless [x] is a
    signalling NaN. *)
Lemma widen_narrow x :
  F32.valid x -> F32.is_snan x = false ->
  double_to_float (float_to_double x) = x.
Proof.
  destruct x as [[s|s| |s m e]|s m]; simpl; try reflexivity; try tauto.
  - intros Hb _. destruct (widen_narrow_finite s m e Hb) as (mz & ez & -> & H).
    simpl. unfold F32.prec, F32.emax. rewrite H. reflexivity.
  - intros Hm Hq. apply negb_false_iff in Hq.
    rewrite (lor_quiet_bit m Hq).
    rewrite Z.div_mul by lia. rewrite Z.mod_small by lia.
    rewrite (lor_quiet_bit m Hq). reflexivity.
Qed.

(** ** Bit patterns *)

Lemma sign_word_cases s : F32.sign_word s = 0 \/ F32.sign_word s = 2147483648.
Proof. destruct s; simpl; auto. Qed.

Lemma sign_bit_word s r :
  0 <= r < 2147483648 -> F32.sign_bit (F32.sign_word s + r) = s.
Proof.
  intros Hr. unfold F32.sign_bit, F32.sign_word.
  destruct s.
  - replace (2147483648 + r) with (r + 1 * 2147483648) by lia.
    rewrite Z.div_add by lia. rewrite Z.div_small by lia. reflexivity.
  - simpl. rewrite Z.div_small by lia. reflexivity.
Qed.

Lemma exp_field_word s e r :
  0 <= e < 256 -> 0 <= r < 8388608 ->
  F32.exp_field (F32.sign_word s + e * 8388608 + r) = e.
Proof.
  intros He Hr. unfold F32.exp_field, F32.sign_word. destruct s.
  - replace (2147483648 + e * 8388608 + r) with (r + (e + 256) * 8388608)
      by lia.
    rewrite Z.div_add by lia. rewrite (Z.div_small r) by lia.
    replace (0 + (e + 256)) with (e + 1 * 256) by lia.
    rewrite Z.mod_add by lia. apply Z.mod_small; lia.
  - replace (0 + e * 8388608 + r) with (r + e * 8388608) by lia.
    rewrite Z.div_add by lia. rewrite (Z.div_small r) by lia.
    apply Z.mod_small; lia.
Qed.

Lemma man_field_word s e r :
  0 <= r < 8388608 ->
  F32.man_field (F32.sign_word s + e * 8388608 + r) = r.
Proof.
  intros Hr. unfold F32.man_field, F32.sign_word. destruct s.
  - replace (2147483648 + e * 8388608 + r) with (r + (e + 256) * 8388608)
      by lia.
    rewrite Z.mod_add by lia. apply Z.mod_small; lia.
  - replace (0 + e * 8388608 + r) with (r + e * 8388608) by lia.
    rewrite Z.mod_add by lia. apply Z.mod_small; lia.
Qed.

Lemma of_bits_word s e r :
  0 <= e < 256 -> 0 <= r < 8388608 ->
  F32.of_bits (F32.sign_word s + e * 8388608 + r) =
    if e =? 255 then
      if r =? 0 then Num (S754_infinity s) else NaN s r
    else if e =? 0 then
      match r with
      | Zpos p => Num (S754_finite s p (-149))
      | _ => Num (S754_zero s)
      end
    else
      match r + 8388608 with
      | Zpos p => Num (S754_finite s p (e - 150))
      | _ => Num (S754_zero s)
      end.
Proof.
  intros He Hr. unfold F32.of_bits. cbv zeta.
  rewrite exp_field_word, man_field_word by assumption.
  rewrite <- Z.add_assoc, sign_bit_word by lia. reflexivity.
Qed.

Lemma normal_mantissa m e :
  bounded 24 128 m e = true -> 8388608 <= Zpos m ->
  Zpos m < 16777216 /\ -149 <= e <= 104.
Proof.
  intros Hb Hge. pose proof (bounded32 m e Hb) as [He Hd]. simpl in Hd.
  pose proof (digits2_pos_bounds m) as Hm.
  assert (Zpos (digits2_pos m) = 24) as Hd24.
  { destruct Hd as [[? ?]|[Hlt ?]]; [assumption|].
    exfalso. assert (2 ^ Zpos (digits2_pos m) <= 2 ^ 23)
      by (apply Z.pow_le_mono_r; lia).
    change (2 ^ 23) with 8388608 in *. lia. }
  rewrite Hd24 in Hm. change (2 ^ 24) with 16777216 in Hm. lia.
Qed.

Lemma subnormal_mantissa m e :
  bounded 24 128 m e = true -> Zpos m < 8388608 -> e = -149.
Proof.
  intros Hb Hlt. pose proof (bounded32 m e Hb) as [He Hd]. simpl in Hd.
  pose proof (digits2_pos_bounds m) as Hm.
  destruct Hd as [[Hd ?]|[? ?]]; [|assumption].
  rewrite Hd in Hm. change (2 ^ (24 - 1)) with 8388608 in Hm. lia.
Qed.

Lemma to_bits_range x : F32.valid x -> 0 <= F32.to_bits x < 4294967296.
Proof.
  destruct x as [[s|s| |s m e]|s m]; unfold F32.valid, F32.to_bits;
    try tauto; pose proof (sign_word_cases s) as Hs.
  - intros _. lia.
  - intros _. lia.
  - intros Hb. change (valid_binary F32.prec F32.emax (S754_finite s m e))
      with (bounded 24 128 m e) in Hb.
    destruct (Z.ltb_spec (Zpos m) 8388608) as [Hlt|Hge]; [lia|].
    pose proof (normal_mantissa m e Hb Hge). lia.
  - intros Hm. lia.
Qed.

(** Every value of the format is the value of its own pattern. *)
Lemma of_bits_to_bits x : F32.valid x -> F32.of_bits (F32.to_bits x) = x.
Proof.
  destruct x as [[s|s| |s m e]|s m]; unfold F32.valid, F32.to_bits;
    try tauto.
  - intros _. destruct s; reflexivity.
  - intros _. destruct s; reflexivity.
  - intros Hb. change (valid_binary F32.prec F32.emax (S754_finite s m e))
      with (bounded 24 128 m e) in Hb.
    destruct (Z.ltb_spec (Zpos m) 8388608) as [Hlt|Hge].
    + rewrite (subnormal_mantissa m e Hb Hlt).
      replace (F32.sign_word s + Zpos m)
        with (F32.sign_word s + 0 * 8388608 + Zpos m) by lia.
      rewrite of_bits_word by lia. reflexivity.
    + pose proof (normal_mantissa m e Hb Hge) as [Hlt He].
      rewrite of_bits_word by lia.
      destruct (Z.eqb_spec (e + 150) 255); [lia|].
      destruct (Z.eqb_spec (e + 150) 0); [lia|].
      replace (Zpos m - 8388608 + 8388608) with (Zpos m) by lia.
      replace (e + 150 - 150) with e by lia. reflexivity.
  - intros Hm.
    replace (F32.sign_word s + 2139095040 + m)
      with (F32.sign_word s + 255 * 8388608 + m) by lia.
    rewrite of_bits_word by lia. simpl.
    destruct (Z.eqb_spec m 0); [lia|reflexivity].
Qed.


(** Every 32-bit pattern is the pattern of exactly one value. *)

Lemma digits2_pos_of_bounds m k :
  0 < k -> 2 ^ (k - 1) <= Zpos m < 2 ^ k -> Zpos (digits2_pos m) = k.
Proof.
  intros Hk Hm. pose proof (digits2_pos_bounds m) as Hd.
  destruct (Z.lt_trichotomy (Zpos (digits2_pos m)) k) as [Hlt|[E|Hgt]].
  - assert (2 ^ Zpos (digits2_pos m) <= 2 ^ (k - 1))
      by (apply Z.pow_le_mono_r; lia). lia.
  - exact E.
  - assert (2 ^ k <= 2 ^ (Zpos (digits2_pos m) - 1))
      by (apply Z.pow_le_mono_r; lia). lia.
Qed.

Lemma digits2_pos_le m k :
  0 <= k -> Zpos m < 2 ^ k -> Zpos (digits2_pos m) <= k.
Proof.
  intros Hk Hm. pose proof (digits2_pos_bounds m) as Hd.
  destruct (Z.le_gt_cases (Zpos (digits2_pos m)) k) as [Hle|Hgt]; [exact Hle|].
  assert (2 ^ k <= 2 ^ (Zpos (digits2_pos m) - 1))
    by (apply Z.pow_le_mono_r; lia). lia.
Qed.

Lemma word_fields w :
  0 <= w < 4294967296 ->
  w = F32.sign_word (F32.sign_bit w) + F32.exp_field w * 8388608
      + F32.man_field w /\
  0 <= F32.exp_field w < 256 /\ 0 <= F32.man_field w < 8388608.
Proof.
  intros Hw. unfold F32.sign_bit, F32.exp_field, F32.man_field, F32.sign_word.
  pose proof (Z.div_mod w 8388608 ltac:(lia)) as H1.
  pose proof (Z.mod_pos_bound w 8388608 ltac:(lia)) as H2.
  pose proof (Z.div_mod (w / 8388608) 256 ltac:(lia)) as H3.
  pose proof (Z.mod_pos_bound (w / 8388608) 256 ltac:(lia)) as H4.
  assert (H5 : w / 8388608 / 256 = w / 2147483648)
    by (rewrite Z.div_div by lia; reflexivity).
  assert (H6 : 0 <= w / 2147483648 < 2).
  { split; [apply Z.div_pos; lia|apply Z.div_lt_upper_bound; lia]. }
  rewrite H5 in H3.
  destruct (Z.eq_dec (w / 2147483648) 0) as [E|E].
  - rewrite E in *. simpl. lia.
  - assert (E1 : w / 2147483648 = 1) by lia. rewrite E1 in *. simpl. lia.
Qed.

Lemma of_bits_valid w : 0 <= w < 4294967296 -> F32.valid (F32.of_bits w).
Proof.
  intros Hw. destruct (word_fields w Hw) as (E & He & Hr).
  rewrite E. rewrite of_bits_word by assumption.
  set (e := F32.exp_field w) in *. set (r := F32.man_field w) in *.
  destruct (Z.eqb_spec e 255).
  { destruct (Z.eqb_spec r 0); simpl; [reflexivity|lia]. }
  destruct (Z.eqb_spec e 0).
  { destruct r as [|p|p] eqn:Er; simpl; try reflexivity.
    unfold bounded, canonical_mantissa. rewrite fexp32.
    pose proof (digits2_pos_le p 23 ltac:(lia) ltac:(simpl; lia)).
    apply andb_true_iff. split; [apply Z.eqb_eq; lia|reflexivity]. }
  destruct (r + 8388608) as [|p|p] eqn:Er; try lia.
  simpl. unfold bounded, canonical_mantissa. rewrite fexp32.
  rewrite (digits2_pos_of_bounds p 24) by (simpl; lia).
  apply andb_true_iff. split; [apply Z.eqb_eq; lia|].
  apply Z.leb_le. unfold F32.emax, F32.prec. lia.
Qed.

Lemma to_bits_of_bits w :
  0 <= w < 4294967296 -> F32.to_bits (F32.of_bits w) = w.
Proof.
  intros Hw. destruct (word_fields w Hw) as (E & He & Hr).
  rewrite E at 2. rewrite E at 1. rewrite of_bits_word by assumption.
  set (s := F32.sign_bit w). set (e := F32.exp_field w) in *.
  set (r := F32.man_field w) in *.
  destruct (Z.eqb_spec e 255) as [->|].
  { destruct (Z.eqb_spec r 0) as [->|]; simpl; lia. }
  destruct (Z.eqb_spec e 0) as [->|].
  { destruct r as [|p|p] eqn:Er; unfold F32.to_bits; try lia.
    destruct (Z.ltb_spec (Zpos p) 8388608); lia. }
  destruct (r + 8388608) as [|p|p] eqn:Er; try lia.
  unfold F32.to_bits. destruct (Z.ltb_spec (Zpos p) 8388608); lia.
Qed.

(** *** Signalling NaNs *)

Lemma set_quiet_bit a :
  Z.testbit a 22 = false -> Z.lor a 4194304 = a + 4194304.
Proof.
  intros H.
  assert (H0 : Z.land a 4194304 = 0).
  { apply Z.bits_inj'. intros i Hi. rewrite Z.land_spec, Z.bits_0.
    change 4194304 with (2 ^ 22). rewrite Z.pow2_bits_eqb by lia.
    destruct (Z.eqb_spec 22 i) as [<-|]; [rewrite H; reflexivity|].
    apply andb_false_r. }
  rewrite <- Z.lxor_lor, <- Z.add_nocarry_lxor by exact H0. reflexivity.
Qed.

Lemma clear_bit_small m :
  0 <= m < 8388608 -> Z.testbit m 22 = false -> m < 4194304.
Proof.
  intros Hm H. apply Z.testbit_false in H; [|lia].
  change (2 ^ 22) with 4194304 in H.
  assert (0 <= m / 4194304 < 2).
  { split; [apply Z.div_pos; lia|apply Z.div_lt_upper_bound; lia]. }
  assert (E : m / 4194304 = 0).
  { destruct (Z.eq_dec (m / 4194304) 0) as [E|E]; [exact E|].
    replace (m / 4194304) with 1 in H by lia. discriminate. }
  apply Z.div_small_iff in E; lia.
Qed.

Lemma quiet_bit_set a : Z.testbit (Z.lor a 4194304) 22 = true.
Proof. rewrite Z.lor_spec. apply orb_true_r. Qed.

(** Widening a signalling NaN to a Python float and narrowing it back sets
    the quiet bit and keeps the sign and the other bits of the mantissa
    field. *)
Lemma snan_quieted s m :
  1 <= m < 8388608 -> Z.testbit m 22 = false ->
  double_to_float (float_to_double (NaN s m)) = NaN s (Z.lor m 4194304) /\
  1 <= Z.lor m 4194304 < 8388608 /\
  Z.lor m 4194304 mod 4194304 = m.
Proof.
  intros Hm Hbit. pose proof (clear_bit_small m ltac:(lia) Hbit) as Hsmall.
  unfold float_to_double, double_to_float.
  rewrite (set_quiet_bit m Hbit).
  rewrite Z.div_mul by lia. rewrite Z.mod_small by lia.
  split; [|split; [lia|]].
  - f_equal. rewrite lor_quiet_bit; [reflexivity|].
    rewrite <- (set_quiet_bit m Hbit). apply quiet_bit_set.
  - replace (m + 4194304) with (m + 1 * 4194304) by lia.
    rewrite Z.mod_add by lia. apply Z.mod_small. lia.
Qed.


(** * The claims about the decoder *)

(** C1. For every model (N >= 1 states, M >= 1 symbols, tables of the
    declared shapes, entries that are all finite or all log-probabilities,
    negative infinity included) and every non-empty sequence of symbols in
    [1, M], the forward pass of [run_viterbi] returns tables [V], [B] with
    [V[0][j] = transition[0][j] + emission[j][symbol(0)-1]] and [B[0][j] = 0]
    for every state [j], and, for every [t] in 1..T-1 and every state [j],
    [B[t][j]] an index whose candidate [V[t-1][i] + transition[i+1][j]] is the
    maximum over all [i], and [V[t][j]] that maximum plus
    [emission[j][symbol(t)-1]], all sums being single-precision additions. *)
Theorem dp_tables_equations (n m : Z) (a b : matrix) (obs : list Z) :
  wf_model n m a b -> finite_model a b \/ log_prob_model a b ->
  wf_sequence m obs -> obs <> [] ->
  exists tb,
    forward n a b obs = Ok tb /\
    (forall j, 0 <= j < n -> init_eq a b obs tb j) /\
    (forall t j, 1 <= t < Z.of_nat (length obs) -> 0 <= j < n ->
       rec_eq n a b obs tb t j).
Proof.
  intros Hwf Hfin Hobs Hne.
  destruct (run_viterbi_total n m a b obs Hwf Hobs Hne)
    as (tb & _ & _ & _ & Hfw & Hfill & _).
  exists tb. split; [exact Hfw|]. split; [apply Hfill|].
  intros t j Ht Hj.
  apply filled_rec_eq; [apply (n_pos n m a b Hwf)|assumption..].
Qed.

Lemma dp_tables_equations_witness :
  wf_model 2 2 small_a small_b /\
  (finite_model small_a small_b \/ log_prob_model small_a small_b) /\
  wf_sequence 2 [1; 2; 2] /\ [1; 2; 2] <> [] /\
  exists tb,
    forward 2 small_a small_b [1; 2; 2] = Ok tb /\
    (forall j, 0 <= j < 2 -> init_eq small_a small_b [1; 2; 2] tb j) /\
    (forall t j, 1 <= t < Z.of_nat (length [1; 2; 2]) -> 0 <= j < 2 ->
       rec_eq 2 small_a small_b [1; 2; 2] tb t j).
Proof.
  assert (Hwf : wf_model 2 2 small_a small_b)
    by (unfold wf_model; repeat split; try lia; repeat constructor).
  assert (Hfin : finite_model small_a small_b \/ log_prob_model small_a small_b)
    by (left; split; repeat constructor).
  assert (Hobs : wf_sequence 2 [1; 2; 2])
    by (unfold wf_sequence; repeat constructor; lia).
  assert (Hne : [1; 2; 2] <> ([] : list Z)) by discriminate.
  repeat (split; [assumption|]).
  exact (dp_tables_equations 2 2 small_a small_b [1; 2; 2] Hwf Hfin Hobs Hne).
Defined.



(** C3. For every model (as in C1) and every non-empty sequence of length T
    of symbols in [1, M], [run_viterbi] returns [(path, log_probability)]
    where [final_state] is
    the lowest-index argmax of [V[T-1]], [log_probability] is
    [V[T-1][final_state]], [path[T-1] = final_state + 1],
    [path[t] = B[t+1][path[t+1]-1] + 1] for every [t] from T-2 down to 0, and
    every entry of [path] is a state index in [1, N]. *)
Theorem termination_and_backtrace (n m : Z) (a b : matrix) (obs : list Z) :
  wf_model n m a b -> finite_model a b \/ log_prob_model a b ->
  wf_sequence m obs -> obs <> [] ->
  exists tb final_state path log_probability,
    forward n a b obs = Ok tb /\
    run_viterbi n a b obs = Ok (path, log_probability) /\
    argmax_spec (fun j => py_index2 (tV tb) (Z.of_nat (length obs) - 1) j) n
      log_probability final_state /\
    0 <= final_state < n /\
    py_index2 (tV tb) (Z.of_nat (length obs) - 1) final_state
      = Ok log_probability /\
    backtrace_eq obs (tB tb) final_state path /\
    Forall (fun p => 1 <= p <= n) path.
Proof.
  intros Hwf Hfin Hobs Hne.
  destruct (run_viterbi_total n m a b obs Hwf Hobs Hne)
    as (tb & best & fs & path & Hfw & Hfill & Hterm & Hspec & Hbt & Hlen &
        Heq & Hrng & Hrun).
  pose proof (nonempty_length obs Hne) as HT.
  destruct (argmax_attained n _ _ _ (n_pos n m a b Hwf) Hspec) as (Hk & Hb & _).
  { intros j Hj. apply (proj1 Hfill); [lia|exact Hj]. }
  { intros j v Hj Hv.
    eapply (filled_not_nan n a b obs tb Hfin Hfill); [|exact Hj|exact Hv].
    lia. }
  exists tb, fs, path, best. auto 10.
Qed.

Lemma termination_and_backtrace_witness :
  wf_model 2 2 small_a small_b /\
  (finite_model small_a small_b \/ log_prob_model small_a small_b) /\
  wf_sequence 2 [1; 2; 2] /\ [1; 2; 2] <> [] /\
  exists tb final_state path log_probability,
    forward 2 small_a small_b [1; 2; 2] = Ok tb /\
    run_viterbi 2 small_a small_b [1; 2; 2] = Ok (path, log_probability) /\
    argmax_spec
      (fun j => py_index2 (tV tb) (Z.of_nat (length [1; 2; 2]) - 1) j) 2
      log_probability final_state /\
    0 <= final_state < 2 /\
    py_index2 (tV tb) (Z.of_nat (length [1; 2; 2]) - 1) final_state
      = Ok log_probability /\
    backtrace_eq [1; 2; 2] (tB tb) final_state path /\
    Forall (fun p => 1 <= p <= 2) path.
Proof.
  assert (Hwf : wf_model 2 2 small_a small_b)
    by (unfold wf_model; repeat split; try lia; repeat constructor).
  assert (Hfin : finite_model small_a small_b \/ log_prob_model small_a small_b)
    by (left; split; repeat constructor).
  assert (Hobs : wf_sequence 2 [1; 2; 2])
    by (unfold wf_sequence; repeat constructor; lia).
  assert (Hne : [1; 2; 2] <> ([] : list Z)) by discriminate.
  repeat (split; [assumption|]).
  exact (termination_and_backtrace 2 2 small_a small_b [1; 2; 2]
           Hwf Hfin Hobs Hne).
Defined.

(** C6. For every model, decoding the empty sequence returns the empty path
    and a log-probability of negative infinity. *)
Theorem empty_sequence (n : Z) (a b : matrix) :
  run_viterbi n a b [] = Ok ([], F32.neg_inf).
Proof. reflexivity. Qed.

Lemma backtrace_length (obs : list Z) (B : list (list Z)) (fs : Z) path :
  backtrace obs B fs = Ok path -> length path = length obs.
Proof.
  unfold backtrace. intros H. apply bind_Ok in H as (path0 & H0 & H).
  apply py_setitem_length in H0. rewrite length_replicate in H0.
  apply (for_down_preserves (fun p => length p = length obs)) in H.
  - exact H.
  - intros k s s' Hb Hs. unfold back_body in Hb.
    apply bind_Ok in Hb as (p & _ & Hb). apply bind_Ok in Hb as (prev & _ & Hb).
    apply py_setitem_length in Hb. congruence.
  - lia.
Qed.

(** C7. Whenever [run_viterbi] returns, the path has exactly the length of
    the observation sequence, the one-element sequence included; and on a
    well-formed model and sequence it does return. *)
Theorem path_length (n : Z) (a b : matrix) (obs : list Z) :
  (forall path prob,
     run_viterbi n a b obs = Ok (path, prob) -> length path = length obs) /\
  (forall m, wf_model n m a b -> wf_sequence m obs ->
     exists path prob,
       run_viterbi n a b obs = Ok (path, prob) /\ length path = length obs).
Proof.
  split.
  - intros path prob. unfold run_viterbi.
    destruct (Z.eqb_spec (Z.of_nat (length obs)) 0) as [E|E].
    + intros [= <- _]. simpl. lia.
    + intros H. apply bind_Ok in H as (tb & _ & H).
      apply bind_Ok in H as ([fp' fs] & _ & H).
      apply bind_Ok in H as (p & Hp & H). injection H as <- _.
      eapply backtrace_length, Hp.
  - intros m Hwf Hobs. destruct obs as [|o obs'] eqn:E.
    + exists [], F32.neg_inf. split; reflexivity.
    + rewrite <- E in *.
      destruct (run_viterbi_total n m a b obs Hwf Hobs ltac:(congruence))
        as (tb & best & fs & path & _ & _ & _ & _ & _ & Hlen & _ & _ & Hrun).
      exists path, best. auto.
Qed.

Lemma path_length_witness :
  (run_viterbi 2 zero_a zero_b [1] = Ok ([1], fzero) /\
   length [1] = length [1]) /\
  (wf_model 2 2 small_a small_b /\ wf_sequence 2 [1; 2; 2] /\
   exists path prob,
     run_viterbi 2 small_a small_b [1; 2; 2] = Ok (path, prob) /\
     length path = length [1; 2; 2]).
Proof.
  split.
  - assert (H : run_viterbi 2 zero_a zero_b [1] = Ok ([1], fzero))
      by (vm_compute; reflexivity).
    split; [exact H|].
    exact (proj1 (path_length 2 zero_a zero_b [1]) [1] fzero H).
  - assert (Hwf : wf_model 2 2 small_a small_b)
      by (unfold wf_model; repeat split; try lia; repeat constructor).
    assert (Hobs : wf_sequence 2 [1; 2; 2])
      by (unfold wf_sequence; repeat constructor; lia).
    repeat (split; [assumption|]).
    exact (proj2 (path_length 2 small_a small_b [1; 2; 2]) 2 Hwf Hobs).
Defined.

(** C10. For every model with N >= 1 states and every non-empty sequence of
    symbols in [1, M], [run_viterbi] returns a path whose every element lies
    in [1, N]: every backtrace pointer in [B] lies in [0, N), and so does
    the final state. *)
Theorem path_in_range (n m : Z) (a b : matrix) (obs : list Z) :
  wf_model n m a b -> wf_sequence m obs -> obs <> [] ->
  exists tb final_state path prob,
    forward n a b obs = Ok tb /\
    terminate n obs (tV tb) = Ok (prob, final_state) /\
    run_viterbi n a b obs = Ok (path, prob) /\
    (forall t j, 0 <= t < Z.of_nat (length obs) -> 0 <= j < n ->
       exists v, py_index2 (tB tb) t j = Ok v /\ 0 <= v < n) /\
    0 <= final_state < n /\
    Forall (fun p => 1 <= p <= n) path.
Proof.
  intros Hwf Hobs Hne.
  destruct (run_viterbi_total n m a b obs Hwf Hobs Hne)
    as (tb & best & fs & path & Hfw & Hfill & Hterm & Hspec & Hbt & Hlen &
        Heq & Hrng & Hrun).
  exists tb, fs, path, best.
  split; [exact Hfw|]. split; [exact Hterm|]. split; [exact Hrun|].
  split; [intros t j; apply (filled_B_range n a b obs); exact Hfill|].
  split; [|exact Hrng].
  pose proof (n_pos n m a b Hwf).
  destruct (am_kept _ _ _ _ Hspec) as [[_ ->]|[Hk _]]; lia.
Qed.

Lemma path_in_range_witness :
  wf_model 2 2 small_a small_b /\ wf_sequence 2 [1; 2; 2] /\ [1; 2; 2] <> [] /\
  exists tb final_state path prob,
    forward 2 small_a small_b [1; 2; 2] = Ok tb /\
    terminate 2 [1; 2; 2] (tV tb) = Ok (prob, final_state) /\
    run_viterbi 2 small_a small_b [1; 2; 2] = Ok (path, prob) /\
    (forall t j, 0 <= t < Z.of_nat (length [1; 2; 2]) -> 0 <= j < 2 ->
       exists v, py_index2 (tB tb) t j = Ok v /\ 0 <= v < 2) /\
    0 <= final_state < 2 /\
    Forall (fun p => 1 <= p <= 2) path.
Proof.
  assert (Hwf : wf_model 2 2 small_a small_b)
    by (unfold wf_model; repeat split; try lia; repeat constructor).
  assert (Hobs : wf_sequence 2 [1; 2; 2])
    by (unfold wf_sequence; repeat constructor; lia).
  assert (Hne : [1; 2; 2] <> ([] : list Z)) by discriminate.
  repeat (split; [assumption|]).
  exact (path_in_range 2 2 small_a small_b [1; 2; 2] Hwf Hobs Hne).
Defined.


(** * The claims about the codec *)

Lemma string_app_nil_l (s : string) : ("" ++ s)%string = s.
Proof. reflexivity. Qed.

(** C4, as the code has it.  [hex_to_float] never raises: when the text is a
    hexadecimal integer in [0, 2^32) it returns the single-precision value
    read from that bit pattern (the value of the pattern itself, unless it is
    a signalling NaN), and in every other case (the text does not parse, or
    the integer does not fit 32 bits) the exception is caught and 0.0 is
    returned. *)
Theorem hex_to_float_substitutes_zero (text : string) :
  (forall v, py_int 16 text = Ok v -> 0 <= v < 4294967296 ->
     hex_to_float text = Ok (np_float32 (struct_unpack_f v)) /\
     (F32.is_snan (F32.of_bits v) = false ->
      hex_to_float text = Ok (F32.of_bits v))) /\
  ((forall v, py_int 16 text = Ok v -> ~ 0 <= v < 4294967296) ->
     hex_to_float text = Ok F32.zero).
Proof.
  unfold hex_to_float, struct_pack_I. split.
  - intros v -> Hv. simpl.
    destruct (Z.leb_spec 0 v); [|lia].
    destruct (Z.ltb_spec v 4294967296); [|lia]. simpl.
    split; [reflexivity|].
    intros Hq. unfold np_float32, struct_unpack_f.
    rewrite widen_narrow; [reflexivity|apply of_bits_valid, Hv|exact Hq].
  - intros H. destruct (py_int 16 text) as [v|e]; simpl; [|reflexivity].
    specialize (H v eq_refl).
    destruct (Z.leb_spec 0 v); [|reflexivity].
    destruct (Z.ltb_spec v 4294967296); [lia|reflexivity].
Qed.

Lemma hex_to_float_substitutes_zero_witness :
  (py_int 16 "3F800000" = Ok 1065353216 /\ 0 <= 1065353216 < 4294967296 /\
   F32.is_snan (F32.of_bits 1065353216) = false /\
   hex_to_float "3F800000" = Ok (F32.of_bits 1065353216)) /\
  ((forall v, py_int 16 "1FFFFFFFF" = Ok v -> ~ 0 <= v < 4294967296) /\
   hex_to_float "1FFFFFFFF" = Ok F32.zero).
Proof.
  split.
  - assert (H : py_int 16 "3F800000" = Ok 1065353216)
      by (vm_compute; reflexivity).
    assert (Hr : 0 <= 1065353216 < 4294967296) by lia.
    assert (Hq : F32.is_snan (F32.of_bits 1065353216) = false)
      by reflexivity.
    repeat (split; [assumption|]).
    exact (proj2 (proj1 (hex_to_float_substitutes_zero "3F800000") _ H Hr) Hq).
  - assert (H : forall v, py_int 16 "1FFFFFFFF" = Ok v ->
                ~ 0 <= v < 4294967296).
    { intros v Hv. vm_compute in Hv. injection Hv as <-. lia. }
    split; [exact H|].
    exact (proj2 (hex_to_float_substitutes_zero "1FFFFFFFF") H).
Defined.

(** C4 fails as stated: the malformed token "ZZZZZZZZ" does not make
    [hex_to_float] raise; it returns 0.0, and a transition table read from a
    file holding that token has 0.0 in its place. *)
Lemma malformed_token_loads_zero :
  py_int 16 "ZZZZZZZZ" = Raise ValueError /\
  hex_to_float "ZZZZZZZZ" = Ok F32.zero /\
  (forall e, hex_to_float "ZZZZZZZZ" <> Raise e) /\
  load_matrix 2 1 (readlines (lines_text ["3F800000"; "ZZZZZZZZ"]))
  = Ok [[fone]; [F32.zero]].
Proof.
  split; [vm_compute; reflexivity|].
  split; [vm_compute; reflexivity|].
  split; [intros e; vm_compute; discriminate|].
  vm_compute. reflexivity.
Qed.

(** C5, as the code has it.  For every single-precision value [x] other than
    a signalling NaN (infinities, quiet NaNs, subnormals and negative zero
    included), [write_output_val] writes the eight hexadecimal digits of the
    bit pattern of [x], and that line, read back the way the loader reads a
    line, decodes to [x] itself, bit for bit.  A signalling NaN, of sign [s]
    and mantissa field [m], is written and read back as the quiet NaN of
    the same sign whose mantissa field is [m] with bit 22 set: the payload,
    the 22 bits below, is the same. *)
Theorem hex_round_trip (x : fp) :
  F32.valid x ->
  (F32.is_snan x = false ->
     write_output_val "" (OutFloat x)
     = (format_08X (F32.to_bits x) ++ nl)%string /\
     hex_to_float (py_strip (write_output_val "" (OutFloat x))) = Ok x) /\
  (forall s m, x = NaN s m -> F32.is_snan x = true ->
     write_output_val "" (OutFloat x)
     = (format_08X (F32.to_bits (NaN s (Z.lor m 4194304))) ++ nl)%string /\
     hex_to_float (py_strip (write_output_val "" (OutFloat x)))
     = Ok (NaN s (Z.lor m 4194304)) /\
     F32.is_snan (NaN s (Z.lor m 4194304)) = false /\
     Z.lor m 4194304 mod 4194304 = m).
Proof.
  intros Hv.
  assert (Hback : forall y, F32.valid y -> F32.is_snan y = false ->
            hex_to_float (py_strip (format_08X (F32.to_bits y) ++ nl)) = Ok y).
  { intros y Hy Hq. pose proof (to_bits_range y Hy) as Hr.
    rewrite py_strip_format_08X by lia.
    unfold hex_to_float. rewrite py_int_format_08X by lia. simpl.
    unfold struct_pack_I.
    destruct (Z.leb_spec 0 (F32.to_bits y)); [|lia].
    destruct (Z.ltb_spec (F32.to_bits y) 4294967296); [|lia]. simpl.
    unfold np_float32, struct_unpack_f.
    rewrite (of_bits_to_bits y Hy). f_equal. apply widen_narrow; assumption. }
  split.
  - intros Hq. unfold write_output_val, struct_unpack_I, struct_pack_f.
    rewrite (widen_narrow x Hv Hq), string_app_nil_l.
    split; [reflexivity|]. apply Hback; assumption.
  - intros s m -> Hs. unfold F32.is_snan in Hs. apply negb_true_iff in Hs.
    destruct (snan_quieted s m Hv Hs) as (Hconv & Hrange & Hpay).
    assert (Hq : F32.is_snan (NaN s (Z.lor m 4194304)) = false).
    { unfold F32.is_snan. rewrite quiet_bit_set. reflexivity. }
    unfold write_output_val, struct_unpack_I, struct_pack_f.
    rewrite Hconv, string_app_nil_l.
    split; [reflexivity|]. split; [|split; assumption].
    apply Hback; [exact Hrange|exact Hq].
Qed.

Lemma hex_round_trip_witness :
  F32.valid (F32.of_bits 2147483649) /\
  (F32.is_snan (F32.of_bits 2147483649) = false ->
     write_output_val "" (OutFloat (F32.of_bits 2147483649))
     = (format_08X (F32.to_bits (F32.of_bits 2147483649)) ++ nl)%string /\
     hex_to_float
       (py_strip (write_output_val "" (OutFloat (F32.of_bits 2147483649))))
     = Ok (F32.of_bits 2147483649)) /\
  (forall s m, F32.of_bits 2147483649 = NaN s m ->
     F32.is_snan (F32.of_bits 2147483649) = true ->
     write_output_val "" (OutFloat (F32.of_bits 2147483649))
     = (format_08X (F32.to_bits (NaN s (Z.lor m 4194304))) ++ nl)%string /\
     hex_to_float
       (py_strip (write_output_val "" (OutFloat (F32.of_bits 2147483649))))
     = Ok (NaN s (Z.lor m 4194304)) /\
     F32.is_snan (NaN s (Z.lor m 4194304)) = false /\
     Z.lor m 4194304 mod 4194304 = m).
Proof.
  assert (Hv : F32.valid (F32.of_bits 2147483649)) by (vm_compute; reflexivity).
  split; [exact Hv|].
  exact (hex_round_trip (F32.of_bits 2147483649) Hv).
Defined.

(** C5 fails as stated on a signalling NaN: the value with pattern 7F800001
    is written as 7FC00001, which decodes to a different value. *)
Lemma signalling_nan_not_preserved :
  F32.valid (F32.of_bits 2139095041) /\
  write_output_val "" (OutFloat (F32.of_bits 2139095041)) = "7FC00001" ++ nl /\
  hex_to_float
    (py_strip (write_output_val "" (OutFloat (F32.of_bits 2139095041))))
  <> Ok (F32.of_bits 2139095041).
Proof.
  split; [change (1 <= 1 < 8388608); lia|].
  split; [vm_compute; reflexivity|].
  vm_compute. discriminate.
Qed.


(** * Decimal integer literals and [int()] *)

Lemma string_app_assoc (s1 s2 s3 : string) :
  ((s1 ++ s2) ++ s3 = s1 ++ s2 ++ s3)%string.
Proof. induction s1 as [|c s1 IH]; simpl; [reflexivity|]. f_equal. exact IH. Qed.

Lemma string_app_nil_r (s : string) : (s ++ "")%string = s.
Proof. induction s as [|c s IH]; simpl; [reflexivity|]. f_equal. exact IH. Qed.

Lemma dec_digit_cases (P : Z -> Prop) :
  P 0 -> P 1 -> P 2 -> P 3 -> P 4 -> P 5 -> P 6 -> P 7 -> P 8 -> P 9 ->
  forall d, dec_digit d -> P d.
Proof.
  intros H0 H1 H2 H3 H4 H5 H6 H7 H8 H9 d Hd. unfold dec_digit in Hd.
  assert (d = 0 \/ d = 1 \/ d = 2 \/ d = 3 \/ d = 4 \/ d = 5 \/ d = 6 \/
          d = 7 \/ d = 8 \/ d = 9) as H by lia.
  repeat (destruct H as [-> | H]; [assumption|]). subst. assumption.
Qed.

(** A decimal digit character: no space, no sign, no underscore, and read
    back as its digit. *)
Lemma dec_char_plain d :
  dec_digit d ->
  is_c_space (dec_char d) = false /\ Ascii.eqb (dec_char d) "_" = false /\
  Ascii.eqb (dec_char d) "-" = false /\ Ascii.eqb (dec_char d) "+" = false /\
  digit_val (dec_char d) = Some d.
Proof.
  revert d.
  apply (dec_digit_cases (fun d =>
    is_c_space (dec_char d) = false /\ Ascii.eqb (dec_char d) "_" = false /\
    Ascii.eqb (dec_char d) "-" = false /\ Ascii.eqb (dec_char d) "+" = false /\
    digit_val (dec_char d) = Some d)); repeat split; reflexivity.
Qed.


(** ** Whitespace around the literal *)

Lemma lskip_blank before s :
  blank before = true -> lskip (before ++ s) = lskip s.
Proof.
  induction before as [|c r IH]; simpl; [reflexivity|].
  intros H. apply andb_true_iff in H as [-> H]. exact (IH H).
Qed.

Lemma rskip_blank after : blank after = true -> rskip after = "".
Proof.
  induction after as [|c r IH]; simpl; [reflexivity|].
  intros H. apply andb_true_iff in H as [Hc H]. rewrite (IH H), Hc. reflexivity.
Qed.

Lemma rskip_app_blank s after :
  blank after = true -> rskip (s ++ after) = rskip s.
Proof.
  intros H. induction s as [|c r IH]; simpl.
  - apply rskip_blank, H.
  - rewrite IH. reflexivity.
Qed.



(** ** The digits *)

Lemma dec_digits_first s ds :
  dec_digits s ds ->
  exists d r, s = String (dec_char d) r /\ dec_digit d.
Proof. intros H. destruct H; eauto. Qed.

Lemma rskip_dec_digits s ds : dec_digits s ds -> rskip s = s.
Proof.
  induction 1 as [d Hd|d s ds Hd H IH|d s ds Hd H IH];
    destruct (dec_char_plain d Hd) as (Hsp & _).
  - simpl. rewrite Hsp. reflexivity.
  - cbn [rskip]. rewrite IH. destruct s; [rewrite Hsp|]; reflexivity.
  - cbn [rskip]. rewrite IH. destruct s; reflexivity.
Qed.

Lemma lskip_dec_digits s ds : dec_digits s ds -> lskip s = s.
Proof.
  intros H. destruct (dec_digits_first s ds H) as (d & r & -> & Hd).
  simpl. rewrite (proj1 (dec_char_plain d Hd)). reflexivity.
Qed.

Lemma split_sign_dec_digits s ds :
  dec_digits s ds -> split_sign s = (false, s).
Proof.
  intros H. destruct (dec_digits_first s ds H) as (d & r & -> & Hd).
  destruct (dec_char_plain d Hd) as (_ & _ & Hm & Hp & _).
  unfold split_sign. rewrite Hm, Hp. reflexivity.
Qed.

Lemma parse_dec_digits s ds :
  dec_digits s ds ->
  forall acc after,
    parse_digits 10 s acc after
    = Some (fold_left (fun acc d => acc * 10 + d) ds acc).
Proof.
  induction 1 as [d Hd|d s ds Hd H IH|d s ds Hd H IH]; intros acc after;
    destruct (dec_char_plain d Hd) as (_ & Hu & _ & _ & Hv);
    cbn [parse_digits]; rewrite Hu, Hv;
    (destruct (Z.ltb_spec d 10) as [_|]; [|unfold dec_digit in Hd; lia]).
  - reflexivity.
  - apply IH.
  - change (Ascii.eqb "_" "_") with true. cbv iota. apply IH.
Qed.

Lemma count_dec_digits s ds :
  dec_digits s ds -> count_digits s = Z.of_nat (length ds).
Proof.
  induction 1 as [d Hd|d s ds Hd H IH|d s ds Hd H IH];
    destruct (dec_char_plain d Hd) as (_ & Hu & _);
    cbn [count_digits length]; rewrite Hu.
  - reflexivity.
  - rewrite IH. lia.
  - change (Ascii.eqb "_" "_") with true. cbv iota. rewrite IH. lia.
Qed.


(** ** [int()] in base 10 accepts the decimal integer literals, and nothing
    else *)

Lemma skip_prefix_10 s : skip_prefix 10 s = s.
Proof. destruct s as [|c0 [|c1 r]]; reflexivity. Qed.

Lemma py_int_signed (neg : bool) s ds :
  dec_digits s ds ->
  match parse_digits 10 (skip_prefix 10 s) 0 false with
  | Some v =>
      if negb (binary_base 10) && (max_str_digits <? count_digits (skip_prefix 10 s))
      then Raise ValueError
      else Ok (if neg then - v else v)
  | None => Raise ValueError
  end
  = if 4300 <? Z.of_nat (length ds) then Raise ValueError
    else Ok (if neg then - dec_value ds else dec_value ds).
Proof.
  intros H. rewrite skip_prefix_10, (parse_dec_digits s ds H).
  rewrite (count_dec_digits s ds H). reflexivity.
Qed.

(** [int()] on blanks, a sign, digits and blanks, whatever the number of
    digits. *)
Lemma py_int_dec before sign digits after neg ds :
  blank before = true -> blank after = true ->
  sign_text sign neg -> dec_digits digits ds ->
  py_int 10 (before ++ sign ++ digits ++ after)
  = if 4300 <? Z.of_nat (length ds) then Raise ValueError
    else Ok (if neg then - dec_value ds else dec_value ds).
Proof.
  intros Hb Ha Hs Hd. unfold py_int.
  rewrite (lskip_blank before _ Hb).
  assert (E : rskip (lskip (sign ++ digits ++ after))
              = (sign ++ digits)%string).
  { rewrite <- string_app_assoc.
    destruct Hs; cbn [String.append].
    - pose proof (rskip_dec_digits _ _ Hd) as Hr.
      destruct (dec_digits_first _ _ Hd) as (d & r & -> & Hdd).
      cbn [String.append lskip].
      rewrite (proj1 (dec_char_plain d Hdd)).
      change (String (dec_char d) (r ++ after))
        with (String (dec_char d) r ++ after)%string.
      rewrite rskip_app_blank by exact Ha. exact Hr.
    - change (lskip (String "+" (digits ++ after)))
        with (String "+" digits ++ after)%string.
      rewrite rskip_app_blank by exact Ha.
      cbn [rskip]. rewrite (rskip_dec_digits _ _ Hd).
      destruct digits; reflexivity.
    - change (lskip (String "-" (digits ++ after)))
        with (String "-" digits ++ after)%string.
      rewrite rskip_app_blank by exact Ha.
      cbn [rskip]. rewrite (rskip_dec_digits _ _ Hd).
      destruct digits; reflexivity. }
  rewrite E.
  destruct Hs; cbn [String.append split_sign].
  - rewrite (split_sign_dec_digits _ _ Hd). exact (py_int_signed false _ _ Hd).
  - change (Ascii.eqb "+" "-") with false.
    change (Ascii.eqb "+" "+") with true. cbv iota.
    exact (py_int_signed false _ _ Hd).
  - change (Ascii.eqb "-" "-") with true. cbv iota.
    exact (py_int_signed true _ _ Hd).
Qed.



(** * The claims about the sequence stream *)

Lemma process_step N A B line rest cur out :
  line <> "" ->
  process N A B (line :: rest) cur out =
    let line := py_strip line in
    if String.eqb line "FFFFFFFF" then
      match run_viterbi N A B cur with
      | Raise e => (out, Raise e)
      | Ok (path, prob) =>
          let f_out := write_block out path prob in
          match rest with
          | [] => (f_out, Ok tt)
          | next_line :: rest' =>
              if String.eqb next_line "" then (f_out, Ok tt)
              else
                let next_line := py_strip next_line in
                if String.eqb next_line "0" then
                  (write_output_val f_out (OutInt 0), Ok tt)
                else
                  match py_int 10 next_line with
                  | Ok k => process N A B rest' [k] f_out
                  | Raise e => (f_out, Raise e)
                  end
          end
      end
    else if negb (String.eqb line "0") then
      match py_int 10 line with
      | Ok k => process N A B rest (cur ++ [k]) out
      | Raise e => (out, Raise e)
      end
    else process N A B rest cur out.
Proof.
  intros Hne. simpl. destruct (String.eqb_spec line ""); [contradiction|].
  reflexivity.
Qed.

(** C8. On a line that reads "FFFFFFFF" the accumulated sequence is decoded
    and its block written, and the next line is looked at: when it reads "0",
    a final "0" line is written and the program stops, whatever follows in
    the file; any other next line is parsed as the first observation of the
    next sequence, which starts from an empty accumulator.  The stream
    "1\n2\nFFFFFFFF\n1\nFFFFFFFF\n0\n" gives two blocks, each ended by
    FFFFFFFF, then the line "0" and nothing more, also when more text follows
    in the source. *)
Theorem sentinel_protocol (N : Z) (A B : matrix) :
  (forall line next rest cur out path prob,
     line <> "" -> py_strip line = "FFFFFFFF" ->
     run_viterbi N A B cur = Ok (path, prob) ->
     next <> "" -> py_strip next = "0" ->
     process N A B (line :: next :: rest) cur out
     = (write_block out path prob ++ "0" ++ nl, Ok tt)) /\
  (forall line next rest cur out path prob,
     line <> "" -> py_strip line = "FFFFFFFF" ->
     run_viterbi N A B cur = Ok (path, prob) ->
     next <> "" -> py_strip next <> "0" ->
     process N A B (line :: next :: rest) cur out
     = match py_int 10 (py_strip next) with
       | Ok k => process N A B rest [k] (write_block out path prob)
       | Raise e => (write_block out path prob, Raise e)
       end) /\
  (forall extra,
     main (lines_text ["2"; "2"])
          (lines_text ["00000000"; "00000000"; "00000000"; "00000000";
                       "00000000"; "00000000"])
          (lines_text ["00000000"; "00000000"; "00000000"; "00000000"])
          (lines_text ["1"; "2"; "FFFFFFFF"; "1"; "FFFFFFFF"; "0"] ++ extra)
     = (lines_text ["1"; "1"; "00000000"; "FFFFFFFF";
                    "1"; "00000000"; "FFFFFFFF"; "0"], Ok tt)).
Proof.
  split; [|split].
  - intros line next rest cur out path prob Hl Hs Hrun Hn H0.
    rewrite process_step by exact Hl. cbv zeta.
    rewrite Hs, Hrun. simpl String.eqb.
    destruct (String.eqb_spec next ""); [contradiction|].
    rewrite H0. reflexivity.
  - intros line next rest cur out path prob Hl Hs Hrun Hn H0.
    rewrite process_step by exact Hl. cbv zeta.
    rewrite Hs, Hrun. simpl String.eqb.
    destruct (String.eqb_spec next ""); [contradiction|].
    destruct (String.eqb_spec (py_strip next) "0"); [contradiction|].
    reflexivity.
  - intros extra. unfold main.
    change (load_model _ _ _) with (Ok (2, 2, zero_a, zero_b)).
    cbv iota beta.
    change (readlines
              (lines_text ["1"; "2"; "FFFFFFFF"; "1"; "FFFFFFFF"; "0"] ++ extra))
      with (("1" ++ nl)%string :: ("2" ++ nl)%string ::
            ("FFFFFFFF" ++ nl)%string :: ("1" ++ nl)%string ::
            ("FFFFFFFF" ++ nl)%string :: ("0" ++ nl)%string ::
            read_lines extra []).
    generalize (read_lines extra []). intros rest.
    vm_compute. reflexivity.
Qed.

Lemma sentinel_protocol_witness :
  ("FFFFFFFF" ++ nl)%string <> "" /\
  py_strip ("FFFFFFFF" ++ nl) = "FFFFFFFF" /\
  run_viterbi 2 zero_a zero_b [1; 1] = Ok ([1; 1], fzero) /\
  ("0" ++ nl)%string <> "" /\
  py_strip ("0" ++ nl) = "0" /\
  process 2 zero_a zero_b
    [("FFFFFFFF" ++ nl)%string; ("0" ++ nl)%string; ("7" ++ nl)%string]
    [1; 1] ""
  = (write_block "" [1; 1] fzero ++ "0" ++ nl, Ok tt).
Proof.
  assert (H1 : ("FFFFFFFF" ++ nl)%string <> "") by discriminate.
  assert (H2 : py_strip ("FFFFFFFF" ++ nl) = "FFFFFFFF") by reflexivity.
  assert (H3 : run_viterbi 2 zero_a zero_b [1; 1] = Ok ([1; 1], fzero))
    by (vm_compute; reflexivity).
  assert (H4 : ("0" ++ nl)%string <> "") by discriminate.
  assert (H5 : py_strip ("0" ++ nl) = "0") by reflexivity.
  repeat (split; [assumption|]).
  exact (proj1 (sentinel_protocol 2 zero_a zero_b)
           ("FFFFFFFF" ++ nl)%string ("0" ++ nl)%string
           [("7" ++ nl)%string] [1; 1] "" [1; 1] fzero H1 H2 H3 H4 H5).
Defined.

Lemma py_int_raises base text e : py_int base text = Raise e -> e = ValueError.
Proof.
  unfold py_int. destruct (split_sign _) as [neg s].
  destruct (parse_digits _ _ _ _); [|congruence].
  destruct (negb _ && _); [congruence|discriminate].
Qed.





(** * Further properties *)

(** ** The model loader *)

Lemma hex_to_float_total (text : string) : exists v, hex_to_float text = Ok v.
Proof.
  unfold hex_to_float.
  destruct (py_int 16 text) as [v|e]; simpl; [|eauto].
  destruct (struct_pack_I v); simpl; eauto.
Qed.

Lemma has_shape_replicate {A : Type} (rows cols : nat) (d : A) :
  has_shape rows cols (replicate rows (replicate cols d)).
Proof.
  split; [apply length_replicate|].
  apply Forall_forall. intros row Hrow.
  apply elem_of_replicate in Hrow as [-> _]. apply length_replicate.
Qed.

Lemma has_shape_set {A : Type} (rows cols : nat) (M M' : list (list A))
    (t j : Z) (x : A) :
  0 <= t -> 0 <= j ->
  py_setitem2 M t j x = Ok M' -> has_shape rows cols M -> has_shape rows cols M'.
Proof.
  intros Ht Hj H [Hr Hc].
  apply py_setitem2_nonneg in H as (row & Hrow & Hlt & ->); [|assumption..].
  split; [rewrite length_insert; exact Hr|].
  apply Forall_insert; [exact Hc|].
  rewrite length_insert. exact (Forall_lookup_1 _ _ _ _ Hc Hrow).
Qed.

Lemma has_shape_set_ok {A : Type} (rows cols : nat) (M : list (list A))
    (t j : Z) (x : A) :
  has_shape rows cols M -> 0 <= t < Z.of_nat rows -> 0 <= j < Z.of_nat cols ->
  exists M', py_setitem2 M t j x = Ok M'.
Proof.
  intros [Hr Hc] Ht Hj.
  destruct (py_index2_shape M rows cols t j Hr Hc Ht Hj) as (v & Hv).
  eapply set_ok; [lia|lia|exact Hv].
Qed.

Lemma has_shape_cell {A : Type} (rows cols : nat) (M : list (list A))
    (t j : Z) :
  has_shape rows cols M -> 0 <= t < Z.of_nat rows -> 0 <= j < Z.of_nat cols ->
  exists x, py_index2 M t j = Ok x.
Proof. intros [Hr Hc]. apply py_index2_shape; assumption. Qed.

Lemma loaded_cell_frame lines cols (A A' : matrix) (t j i' j' : Z) x :
  0 <= t -> 0 <= j -> 0 <= i' -> 0 <= j' -> i' <> t \/ j' <> j ->
  py_setitem2 A t j x = Ok A' ->
  loaded_cell lines cols A i' j' -> loaded_cell lines cols A' i' j'.
Proof.
  intros Ht Hj Hi' Hj' Hne Hset (line & Hl & Hc).
  exists line. split; [exact Hl|].
  rewrite (get_set_other A A' t j i' j' x); assumption.
Qed.

Lemma py_index_ge {A : Type} (l : list A) (i : Z) :
  Z.of_nat (length l) <= i -> py_index l i = Raise IndexError.
Proof.
  intros H. rewrite py_index_nonneg by lia.
  rewrite (proj2 (lookup_ge_None l (Z.to_nat i))) by lia. reflexivity.
Qed.

(** A loop raises when an iteration does. *)
Lemma for_range_raise {St : Type} (I : Z -> St -> Prop) (lo : Z) (count : nat)
    (body : Z -> St -> result St) (s : St) (k0 : Z) (e : exn) :
  I lo s -> lo <= k0 < lo + Z.of_nat count ->
  (forall k s, lo <= k < k0 -> I k s ->
     exists s', body k s = Ok s' /\ I (k + 1) s') ->
  (forall s, I k0 s -> body k0 s = Raise e) ->
  for_range lo count body s = Raise e.
Proof.
  revert lo s. induction count as [|c IH]; intros lo s H0 Hk Hstep Hfail.
  - lia.
  - simpl. destruct (decide (lo = k0)) as [->|Hne].
    + rewrite (Hfail s H0). reflexivity.
    + destruct (Hstep lo s ltac:(lia) H0) as (s1 & -> & H1). simpl.
      apply IH; [exact H1|lia| |exact Hfail].
      intros k s2 Hk2. apply Hstep. lia.
Qed.

Section Loader.

Variables (lines : list string) (rows cols : Z).

Lemma load_body_step i j s :
  0 <= i < rows -> 0 <= j < cols ->
  i * cols + j < Z.of_nat (length lines) ->
  load_row_inv lines rows cols i j s ->
  exists s', load_body lines i j s = Ok s' /\
             load_row_inv lines rows cols i (j + 1) s'.
Proof.
  destruct s as [A idx]. intros Hi Hj Hlt (Hidx & Hsh & Hrows & Hrow).
  simpl in Hidx, Hsh, Hrows, Hrow.
  replace (Z.max 0 cols) with cols in Hidx by lia. subst idx.
  destruct (py_index_lt lines (i * cols + j)) as (line & Hline); [nia|].
  destruct (hex_to_float_total (py_strip line)) as (v & Hv).
  destruct (has_shape_set_ok _ _ A i j v Hsh) as (A' & HA'); [lia|lia|].
  exists (A', i * cols + j + 1). split.
  { unfold load_body. rewrite Hline. simpl. rewrite Hv. simpl.
    rewrite HA'. reflexivity. }
  split; [simpl; lia|]. simpl.
  split; [eapply has_shape_set; [| |exact HA'|exact Hsh]; lia|].
  split.
  - intros i' j' Hi' Hj'.
    eapply loaded_cell_frame; [| | | | |exact HA'|apply Hrows; assumption]; lia.
  - intros j' Hj'. destruct (decide (j' = j)) as [->|Hne].
    + exists line. split; [exact Hline|].
      rewrite Hv. eapply get_set_same; [| |exact HA']; lia.
    + eapply loaded_cell_frame; [| | | | |exact HA'|apply Hrow; lia]; lia.
Qed.

Lemma load_row_start i s :
  load_inv lines rows cols i s -> load_row_inv lines rows cols i 0 s.
Proof.
  intros (Hidx & Hsh & Hrows).
  split; [lia|]. split; [exact Hsh|]. split; [exact Hrows|]. intros; lia.
Qed.

Lemma load_row_step i s :
  0 <= i < rows -> (i + 1) * Z.max 0 cols <= Z.of_nat (length lines) ->
  load_inv lines rows cols i s ->
  exists s', for_range 0 (Z.to_nat cols) (load_body lines i) s = Ok s' /\
             load_inv lines rows cols (i + 1) s'.
Proof.
  intros Hi Hlen Hinv.
  destruct (for_range_rule (load_row_inv lines rows cols i) 0 (Z.to_nat cols)
              (load_body lines i) s) as (s' & H & HI).
  - apply load_row_start, Hinv.
  - intros j s1 Hj. apply load_body_step; [lia|lia|].
    replace (Z.max 0 cols) with cols in Hlen by lia. lia.
  - exists s'. split; [exact H|].
    destruct HI as (Hidx' & Hsh' & Hrows' & Hrow').
    split; [|split; [exact Hsh'|]].
    + rewrite Hidx'. lia.
    + intros i' j' Hi' Hj'. destruct (decide (i' = i)) as [->|Hne].
      * apply Hrow'. lia.
      * apply Hrows'; lia.
Qed.

Lemma load_start :
  load_inv lines rows cols 0
    (replicate (Z.to_nat rows) (replicate (Z.to_nat cols) F32.zero), 0).
Proof.
  split; [simpl; lia|]. split; [apply has_shape_replicate|]. intros; lia.
Qed.

Lemma load_matrix_inv :
  Z.max 0 rows * Z.max 0 cols <= Z.of_nat (length lines) ->
  exists A, load_matrix rows cols lines = Ok A /\
    has_shape (Z.to_nat rows) (Z.to_nat cols) A /\
    forall i j, 0 <= i < rows -> 0 <= j < cols -> loaded_cell lines cols A i j.
Proof.
  intros Henough.
  destruct (for_range_rule (load_inv lines rows cols) 0 (Z.to_nat rows)
              (fun i => for_range 0 (Z.to_nat cols) (load_body lines i))
              (replicate (Z.to_nat rows) (replicate (Z.to_nat cols) F32.zero), 0))
    as ([A idx] & H & HI).
  - apply load_start.
  - intros i s Hi. apply load_row_step; [lia|]. nia.
  - exists A. unfold load_matrix. rewrite H. simpl.
    destruct HI as (_ & Hsh & Hrows). simpl in Hsh, Hrows.
    split; [reflexivity|]. split; [exact Hsh|].
    intros i j Hi Hj. apply Hrows; lia.
Qed.

Lemma load_matrix_raise :
  Z.of_nat (length lines) < Z.max 0 rows * Z.max 0 cols ->
  load_matrix rows cols lines = Raise IndexError.
Proof.
  intros Hshort.
  assert (Hc : 0 < cols) by nia. assert (Hr : 0 < rows) by nia.
  replace (Z.max 0 cols) with cols in Hshort by lia.
  replace (Z.max 0 rows) with rows in Hshort by lia.
  set (L := Z.of_nat (length lines)) in *.
  assert (HL : 0 <= L) by (unfold L; lia).
  pose proof (Z.div_mod L cols ltac:(lia)) as Hdm.
  pose proof (Z.mod_pos_bound L cols Hc) as Hmod.
  pose proof (Z.div_pos L cols HL Hc) as Hdiv.
  set (i0 := L / cols) in *. set (j0 := L mod cols) in *.
  assert (Hi0 : i0 < rows) by nia.
  unfold load_matrix.
  rewrite (for_range_raise (load_inv lines rows cols) 0 (Z.to_nat rows)
             (fun i => for_range 0 (Z.to_nat cols) (load_body lines i))
             _ i0 IndexError); [reflexivity|apply load_start|lia| |].
  - intros i s Hi. apply load_row_step; [lia|].
    replace (Z.max 0 cols) with cols by lia. fold L. nia.
  - intros s Hinv.
    apply (for_range_raise (load_row_inv lines rows cols i0) 0 (Z.to_nat cols)
             (load_body lines i0) s j0 IndexError).
    + apply load_row_start, Hinv.
    + lia.
    + intros j s1 Hj. apply load_body_step; [lia|lia|]. fold L. nia.
    + intros [A idx] (Hidx & _). simpl in Hidx.
      unfold load_body. rewrite py_index_ge; [reflexivity|].
      fold L. replace (Z.max 0 cols) with cols in Hidx by lia. nia.
Qed.

End Loader.

(** [X1] When the file has at least rows x cols lines, the loader returns a
    rows x cols table whose cell (i, j) is what [hex_to_float] makes of the
    stripped line i * cols + j: the file is read in row-major order, one
    token per line, and lines beyond rows x cols are ignored. *)
Theorem load_matrix_row_major (rows cols : Z) (lines : list string) :
  (Z.to_nat rows * Z.to_nat cols <= length lines)%nat ->
  exists A,
    load_matrix rows cols lines = Ok A /\
    has_shape (Z.to_nat rows) (Z.to_nat cols) A /\
    forall i j, 0 <= i < rows -> 0 <= j < cols ->
      exists line,
        py_index lines (i * cols + j) = Ok line /\
        py_index2 A i j = hex_to_float (py_strip line).
Proof.
  intros H. apply load_matrix_inv. nia.
Qed.

Lemma load_matrix_row_major_witness :
  (Z.to_nat 2 * Z.to_nat 2 <= length ["3F800000"; "00000000"; "zz"; "BF800000"; "7F800000"])%nat /\
  exists A,
    load_matrix 2 2 ["3F800000"; "00000000"; "zz"; "BF800000"; "7F800000"]
      = Ok A /\
    has_shape (Z.to_nat 2) (Z.to_nat 2) A /\
    forall i j, 0 <= i < 2 -> 0 <= j < 2 ->
      exists line,
        py_index ["3F800000"; "00000000"; "zz"; "BF800000"; "7F800000"]
          (i * 2 + j) = Ok line /\
        py_index2 A i j = hex_to_float (py_strip line).
Proof.
  assert (H : (Z.to_nat 2 * Z.to_nat 2
               <= length ["3F800000"; "00000000"; "zz"; "BF800000"; "7F800000"])%nat)
    by (simpl; lia).
  split; [exact H|].
  exact (load_matrix_row_major 2 2 _ H).
Defined.

(** [X2] A file with fewer than rows x cols lines makes the loader raise
    IndexError: a missing token is not replaced by 0.0, unlike a malformed
    one. *)
Theorem load_matrix_short_file (rows cols : Z) (lines : list string) :
  (length lines < Z.to_nat rows * Z.to_nat cols)%nat ->
  load_matrix rows cols lines = Raise IndexError.
Proof.
  intros H. apply load_matrix_raise. nia.
Qed.

Lemma load_matrix_short_file_witness :
  (length ["3F800000"; "00000000"; "BF800000"] < Z.to_nat 2 * Z.to_nat 2)%nat /\
  load_matrix 2 2 ["3F800000"; "00000000"; "BF800000"] = Raise IndexError.
Proof.
  assert (H : (length ["3F800000"; "00000000"; "BF800000"]
               < Z.to_nat 2 * Z.to_nat 2)%nat) by (simpl; lia).
  split; [exact H|].
  exact (load_matrix_short_file 2 2 _ H).
Defined.

(** Whatever the file holds, a table that loads has the requested shape. *)
Lemma load_matrix_shape (rows cols : Z) (lines : list string) (A : matrix) :
  load_matrix rows cols lines = Ok A ->
  has_shape (Z.to_nat rows) (Z.to_nat cols) A.
Proof.
  unfold load_matrix. intros H. apply bind_Ok in H as ([A' idx] & H & [= ->]).
  set (P := fun (_ : Z) (s : matrix * Z) =>
              has_shape (Z.to_nat rows) (Z.to_nat cols) (fst s)).
  assert (H0 : P 0 (replicate (Z.to_nat rows)
                      (replicate (Z.to_nat cols) F32.zero), 0))
    by apply has_shape_replicate.
  refine (for_range_partial P 0 _ _ _ _ H0 _ H).
  intros i s s' Hi Hs Hrow.
  refine (for_range_partial P 0 _ _ _ _ Hs _ Hrow).
  intros j [A1 i1] s2 Hj Hs1. unfold load_body. intros Hb.
  apply bind_Ok in Hb as (line & _ & Hb).
  apply bind_Ok in Hb as (v & _ & Hb).
  apply bind_Ok in Hb as (A2 & Hset & [= <-]). unfold P. simpl.
  eapply has_shape_set; [| |exact Hset|exact Hs1]; lia.
Qed.

(** [X3] A model that loads with N >= 1 and M >= 1 is well formed: the
    transition table is (N+1) x N and the emission table is N x M, so the
    decoder returns on every non-empty sequence of symbols in [1, M]. *)
Theorem load_model_well_formed (n_file a_file b_file : string)
    (N M : Z) (A B : matrix) :
  load_model n_file a_file b_file = Ok (N, M, A, B) ->
  1 <= N -> 1 <= M ->
  wf_model N M A B /\
  forall obs, wf_sequence M obs -> obs <> [] ->
    exists path prob, run_viterbi N A B obs = Ok (path, prob).
Proof.
  intros Hload HN HM.
  assert (Hwf : wf_model N M A B).
  { unfold load_model in Hload.
    destruct (readline (readlines n_file)) as [l1 f].
    apply bind_Ok in Hload as (N' & _ & Hload).
    destruct (readline f) as [l2 f'].
    apply bind_Ok in Hload as (M' & _ & Hload).
    apply bind_Ok in Hload as (A' & HA & Hload).
    apply bind_Ok in Hload as (B' & HB & Hload).
    injection Hload as -> -> -> ->.
    apply load_matrix_shape in HA as [HA1 HA2].
    apply load_matrix_shape in HB as [HB1 HB2].
    unfold wf_model. auto 10. }
  split; [exact Hwf|].
  intros obs Hobs Hne.
  destruct (run_viterbi_total N M A B obs Hwf Hobs Hne)
    as (tb & best & fs & path & H).
  exists path, best. apply H.
Qed.

Lemma load_model_well_formed_witness :
  load_model small_n_file small_a_file small_b_file
  = Ok (2, 2, small_a, small_b) /\
  1 <= 2 /\ 1 <= 2 /\
  wf_model 2 2 small_a small_b /\
  forall obs, wf_sequence 2 obs -> obs <> [] ->
    exists path prob, run_viterbi 2 small_a small_b obs = Ok (path, prob).
Proof.
  assert (H : load_model small_n_file small_a_file small_b_file
              = Ok (2, 2, small_a, small_b)) by (vm_compute; reflexivity).
  assert (H1 : 1 <= 2) by lia.
  split; [exact H|]. split; [exact H1|]. split; [exact H1|].
  exact (load_model_well_formed small_n_file small_a_file small_b_file
           2 2 small_a small_b H H1 H1).
Defined.


(** ** The codec *)

(** The mantissa field a NaN gets when it is narrowed to single precision. *)
Lemma quiet_field k :
  1 <= Z.lor (k mod 8388608) 4194304 < 8388608.
Proof.
  pose proof (Z.mod_pos_bound k 8388608 ltac:(lia)) as Hm.
  set (m := k mod 8388608) in *.
  destruct (Z.testbit m 22) eqn:E.
  - rewrite lor_quiet_bit by exact E.
    destruct (Z.eq_dec m 0) as [E0|]; [|lia].
    rewrite E0 in E. discriminate.
  - rewrite set_quiet_bit by exact E.
    pose proof (clear_bit_small m Hm E). lia.
Qed.

(** A Python float made from a single-precision value and converted back is
    a single-precision value again, and never a signalling NaN. *)
Lemma conv_valid x :
  F32.valid x ->
  F32.valid (double_to_float (float_to_double x)) /\
  F32.is_snan (double_to_float (float_to_double x)) = false.
Proof.
  intros Hv. destruct (F32.is_snan x) eqn:E.
  - destruct x as [f|s m]; [discriminate|].
    unfold float_to_double, double_to_float, F32.valid, F32.is_snan.
    split; [apply quiet_field|].
    rewrite quiet_bit_set. reflexivity.
  - rewrite widen_narrow by assumption. auto.
Qed.

Lemma hex_to_float_cases text v :
  hex_to_float text = Ok v ->
  v = F32.zero \/
  exists w, 0 <= w < 4294967296 /\
            v = double_to_float (float_to_double (F32.of_bits w)).
Proof.
  unfold hex_to_float, struct_pack_I.
  destruct (py_int 16 text) as [w|e]; simpl.
  - destruct (Z.leb_spec 0 w); simpl.
    + destruct (Z.ltb_spec w 4294967296); simpl.
      * intros [= <-]. right. exists w. split; [lia|reflexivity].
      * intros [= <-]. left. reflexivity.
    + intros [= <-]. left. reflexivity.
  - intros [= <-]. left. reflexivity.
Qed.

Lemma hex_to_float_format_08X w :
  0 <= w < 4294967296 ->
  hex_to_float (format_08X w)
  = Ok (double_to_float (float_to_double (F32.of_bits w))).
Proof.
  intros Hw. unfold hex_to_float. rewrite py_int_format_08X by lia. simpl.
  unfold struct_pack_I.
  destruct (Z.leb_spec 0 w); [|lia].
  destruct (Z.ltb_spec w 4294967296); [|lia]. reflexivity.
Qed.

(** The line written for a value that is not a signalling NaN loads to the
    value. *)
Lemma reload_written x :
  F32.valid x -> F32.is_snan x = false ->
  hex_to_float (py_strip (write_output_val "" (OutFloat x))) = Ok x.
Proof.
  intros Hv Hq. unfold write_output_val, struct_unpack_I, struct_pack_f.
  rewrite (widen_narrow x Hv Hq), string_app_nil_l.
  pose proof (to_bits_range x Hv) as Hr.
  rewrite py_strip_format_08X by lia.
  rewrite hex_to_float_format_08X by exact Hr.
  rewrite (of_bits_to_bits x Hv). f_equal. apply widen_narrow; assumption.
Qed.

(** [X4] Whatever the token, [hex_to_float] returns a value of the
    single-precision format that is not a signalling NaN; written by
    [write_output_val] and loaded again it comes back unchanged. *)
Theorem hex_to_float_value (text : string) (v : fp) :
  hex_to_float text = Ok v ->
  F32.valid v /\ F32.is_snan v = false /\
  hex_to_float (py_strip (write_output_val "" (OutFloat v))) = Ok v.
Proof.
  intros H.
  assert (Hv : F32.valid v /\ F32.is_snan v = false).
  { apply hex_to_float_cases in H as [->|(w & Hw & ->)].
    - split; reflexivity.
    - apply conv_valid, of_bits_valid, Hw. }
  destruct Hv as [Hv Hq].
  split; [exact Hv|]. split; [exact Hq|]. apply reload_written; assumption.
Qed.

Lemma hex_to_float_value_witness :
  hex_to_float "7F800001" = Ok (F32.of_bits 2143289345) /\
  F32.valid (F32.of_bits 2143289345) /\
  F32.is_snan (F32.of_bits 2143289345) = false /\
  hex_to_float
    (py_strip (write_output_val "" (OutFloat (F32.of_bits 2143289345))))
  = Ok (F32.of_bits 2143289345).
Proof.
  assert (H : hex_to_float "7F800001" = Ok (F32.of_bits 2143289345))
    by (vm_compute; reflexivity).
  split; [exact H|].
  exact (hex_to_float_value "7F800001" (F32.of_bits 2143289345) H).
Defined.

Lemma snan_pattern w :
  0 <= w < 4294967296 -> F32.is_snan (F32.of_bits w) = true ->
  double_to_float (float_to_double (F32.of_bits w))
  = F32.of_bits (Z.lor w 4194304).
Proof.
  intros Hw. destruct (word_fields w Hw) as (E & He & Hr).
  assert (Hbit : Z.testbit w 22 = Z.testbit (F32.man_field w) 22).
  { unfold F32.man_field. change 8388608 with (2 ^ 23).
    rewrite Z.mod_pow2_bits_low by lia. reflexivity. }
  pose proof (of_bits_word (F32.sign_bit w) _ _ He Hr) as Hof.
  rewrite <- E in Hof. rewrite Hof. clear Hof. revert Hbit.
  set (s := F32.sign_bit w) in *. set (e := F32.exp_field w) in *.
  set (r := F32.man_field w) in *.
  destruct (Z.eqb_spec e 255) as [E255|].
  - destruct (Z.eqb_spec r 0); [discriminate|].
    intros Hbit Hs. unfold F32.is_snan in Hs. apply negb_true_iff in Hs.
    rewrite set_quiet_bit by congruence.
    pose proof (clear_bit_small r Hr Hs) as Hsmall.
    replace (w + 4194304)
      with (F32.sign_word s + 255 * 8388608 + (r + 4194304)) by lia.
    rewrite of_bits_word by lia.
    change (255 =? 255) with true. cbv iota.
    destruct (Z.eqb_spec (r + 4194304) 0); [lia|].
    unfold float_to_double, double_to_float.
    rewrite (set_quiet_bit r Hs).
    rewrite Z.div_mul by lia. rewrite Z.mod_small by lia.
    rewrite lor_quiet_bit; [reflexivity|].
    rewrite <- (set_quiet_bit r Hs). apply quiet_bit_set.
  - intros _. destruct (Z.eqb_spec e 0).
    + destruct r; discriminate.
    + destruct (r + 8388608); discriminate.
Qed.

(** [X5] Every 32-bit pattern, printed as eight hexadecimal digits, is
    decoded by [hex_to_float] to the value with that pattern, except that a
    signalling NaN comes back with its quiet bit (bit 22) set; and a value
    that is not a signalling NaN is written as the digits of its pattern. *)
Theorem hex_to_float_pattern (w : Z) :
  0 <= w < 4294967296 ->
  hex_to_float (format_08X w)
  = Ok (F32.of_bits
          (if F32.is_snan (F32.of_bits w) then Z.lor w 4194304 else w)) /\
  (F32.is_snan (F32.of_bits w) = false ->
   write_output_val "" (OutFloat (F32.of_bits w))
   = (format_08X w ++ nl)%string).
Proof.
  intros Hw. pose proof (of_bits_valid w Hw) as Hv. split.
  - rewrite hex_to_float_format_08X by exact Hw. f_equal.
    destruct (F32.is_snan (F32.of_bits w)) eqn:E.
    + apply snan_pattern; assumption.
    + apply widen_narrow; assumption.
  - intros Hq. unfold write_output_val, struct_unpack_I, struct_pack_f.
    rewrite (widen_narrow _ Hv Hq), string_app_nil_l.
    rewrite to_bits_of_bits by exact Hw. reflexivity.
Qed.

Lemma hex_to_float_pattern_witness :
  0 <= 4286578689 < 4294967296 /\
  hex_to_float (format_08X 4286578689)
  = Ok (F32.of_bits
          (if F32.is_snan (F32.of_bits 4286578689)
           then Z.lor 4286578689 4194304 else 4286578689)) /\
  (F32.is_snan (F32.of_bits 4286578689) = false ->
   write_output_val "" (OutFloat (F32.of_bits 4286578689))
   = (format_08X 4286578689 ++ nl)%string).
Proof.
  assert (H : 0 <= 4286578689 < 4294967296) by lia.
  split; [exact H|].
  exact (hex_to_float_pattern 4286578689 H).
Defined.

Lemma hex_digits_length fuel v k :
  0 <= v < 16 ^ Z.of_nat (S k) -> (length (hex_digits fuel v) <= S k)%nat.
Proof.
  revert v k. induction fuel as [|f IH]; intros v k Hv; simpl; [lia|].
  destruct (Z.eqb_spec (v / 16) 0) as [E|E]; simpl; [lia|].
  destruct k as [|k].
  - exfalso. apply E. apply Z.div_small. simpl in Hv. lia.
  - apply le_n_S, IH.
    rewrite Nat2Z.inj_succ, Z.pow_succ_r in Hv by lia.
    split; [apply Z.div_pos; lia|apply Z.div_lt_upper_bound; lia].
Qed.

Lemma digits_08X_eight v :
  0 <= v < 4294967296 -> length (digits_08X v) = 8%nat.
Proof.
  intros Hv. unfold digits_08X. rewrite length_app, repeat_length, length_rev.
  pose proof (hex_digits_length (S (Z.to_nat (Z.log2 v))) v 7 Hv). lia.
Qed.

(** [X6] The line [write_output_val] writes for a single-precision value is
    always exactly eight hexadecimal digits (0-9, A-F) and a newline. *)
Theorem write_float_eight_digits (f : string) (x : fp) :
  F32.valid x ->
  exists ds,
    length ds = 8%nat /\ Forall hex_digit ds /\
    write_output_val f (OutFloat x) = (f ++ hex_string ds ++ nl)%string.
Proof.
  intros Hv. unfold write_output_val, struct_unpack_I, struct_pack_f.
  destruct (conv_valid x Hv) as [Hv' _].
  pose proof (to_bits_range _ Hv') as Hr.
  exists (digits_08X (F32.to_bits (double_to_float (float_to_double x)))).
  split; [apply digits_08X_eight, Hr|].
  split; [apply digits_08X_digit; lia|].
  rewrite format_08X_digits. reflexivity.
Qed.

Lemma write_float_eight_digits_witness :
  F32.valid (F32.of_bits 2139095041) /\
  exists ds,
    length ds = 8%nat /\ Forall hex_digit ds /\
    write_output_val "" (OutFloat (F32.of_bits 2139095041))
    = ("" ++ hex_string ds ++ nl)%string.
Proof.
  assert (Hv : F32.valid (F32.of_bits 2139095041))
    by (change (1 <= 1 < 8388608); lia).
  split; [exact Hv|].
  exact (write_float_eight_digits "" (F32.of_bits 2139095041) Hv).
Defined.


(** ** The sequence stream *)

(** [X7] Nothing is written before a sentinel is read: when no remaining
    line reads "FFFFFFFF", the loop leaves the output as it is, an
    accumulated sequence is dropped without being decoded, and the loop
    either ends normally or stops with ValueError.  So [main] on an input
    without a sentinel line writes nothing. *)
Theorem no_sentinel_no_output :
  (forall N A B lines cur out,
     Forall (fun l => py_strip l <> "FFFFFFFF") lines ->
     fst (process N A B lines cur out) = out /\
     (snd (process N A B lines cur out) = Ok tt \/
      snd (process N A B lines cur out) = Raise ValueError)) /\
  (forall n_file a_file b_file input_file,
     Forall (fun l => py_strip l <> "FFFFFFFF") (readlines input_file) ->
     fst (main n_file a_file b_file input_file) = "").
Proof.
  assert (H : forall N A B lines cur out,
     Forall (fun l => py_strip l <> "FFFFFFFF") lines ->
     fst (process N A B lines cur out) = out /\
     (snd (process N A B lines cur out) = Ok tt \/
      snd (process N A B lines cur out) = Raise ValueError)).
  { intros N A B lines cur out Hl. revert cur.
    induction Hl as [|line rest Hline Hrest IH]; intros cur.
    - simpl. auto.
    - destruct (String.eqb_spec line "") as [->|Hne]; [simpl; auto|].
      rewrite process_step by exact Hne. cbv zeta.
      destruct (String.eqb_spec (py_strip line) "FFFFFFFF"); [contradiction|].
      destruct (negb (py_strip line =? "0")%string); [|apply IH].
      destruct (py_int 10 (py_strip line)) as [k|e] eqn:E; [apply IH|].
      apply py_int_raises in E as ->. simpl. auto. }
  split; [exact H|].
  intros n_file a_file b_file input_file Hl. unfold main.
  destruct (load_model n_file a_file b_file) as [[[[N M] A] B]|e];
    [|reflexivity].
  apply H, Hl.
Qed.

Lemma no_sentinel_no_output_witness :
  Forall (fun l => py_strip l <> "FFFFFFFF")
    [("1" ++ nl)%string; ("2" ++ nl)%string] /\
  fst (process 2 small_a small_b [("1" ++ nl)%string; ("2" ++ nl)%string]
         [] "") = "".
Proof.
  assert (H : Forall (fun l => py_strip l <> "FFFFFFFF")
                [("1" ++ nl)%string; ("2" ++ nl)%string])
    by (repeat constructor; discriminate).
  split; [exact H|].
  exact (proj1 (proj1 no_sentinel_no_output 2 small_a small_b
                  [("1" ++ nl)%string; ("2" ++ nl)%string] [] "" H)).
Defined.

(** The lines of one sequence are accumulated in file order, and nothing is
    written meanwhile. *)
Lemma process_read_symbols (N : Z) (A B : matrix) (lines rest : list string)
    (ks cur : list Z) (out : string) :
  read_symbols lines = Some ks ->
  process N A B (lines ++ rest) cur out = process N A B rest (cur ++ ks) out.
Proof.
  revert ks cur. induction lines as [|line lines IH]; intros ks cur.
  - intros [= <-]. rewrite app_nil_r. reflexivity.
  - cbn [read_symbols]. destruct (String.eqb_spec line ""); [discriminate|].
    change ((line :: lines) ++ rest)%list with (line :: (lines ++ rest)%list).
    rewrite process_step by assumption. cbv zeta.
    destruct (py_strip line =? "FFFFFFFF")%string; [discriminate|].
    destruct (py_strip line =? "0")%string; simpl negb; cbv iota.
    + apply IH.
    + destruct (py_int 10 (py_strip line)) as [k|e]; [|discriminate].
      destruct (read_symbols lines) as [ks'|]; [|discriminate].
      intros [= <-]. rewrite (IH ks' (cur ++ [k])%list eq_refl).
      rewrite <- app_assoc. reflexivity.
Qed.

Lemma strip_nonempty (line text : string) :
  py_strip line = text -> text <> "" -> line <> "".
Proof. intros H Hne ->. apply Hne. rewrite <- H. reflexivity. Qed.

(** A first line that does not read "0" is an observation. *)
Lemma read_symbols_first line lines ks :
  read_symbols (line :: lines) = Some ks -> py_strip line <> "0" ->
  line <> "" /\
  exists k ks', py_int 10 (py_strip line) = Ok k /\
                read_symbols lines = Some ks' /\ ks = k :: ks'.
Proof.
  cbn [read_symbols]. destruct (String.eqb_spec line ""); [discriminate|].
  destruct (py_strip line =? "FFFFFFFF")%string; [discriminate|].
  destruct (String.eqb_spec (py_strip line) "0"); [contradiction|].
  destruct (py_int 10 (py_strip line)) as [k|e]; [|discriminate].
  destruct (read_symbols lines) as [ks'|]; [|discriminate].
  intros [= <-] _. split; [assumption|]. eauto.
Qed.

Lemma process_blocks (N : Z) (A B : matrix) (zero : string)
    (rest : list string) :
  py_strip zero = "0" ->
  forall (k : nat) blocks seqs ks cur out out',
    length blocks = k ->
    Forall2 block_reads blocks (ks :: seqs) ->
    Forall starts_sequence (tail blocks) ->
    stream_output N A B ((cur ++ ks)%list :: seqs) out = Some out' ->
    process N A B (blocks_lines blocks (zero :: rest)) cur out
    = ((out' ++ "0" ++ nl)%string, Ok tt).
Proof.
  intros Hz.
  assert (Hzne : zero <> "") by (eapply strip_nonempty; [exact Hz|discriminate]).
  induction k as [|k IH]; intros blocks seqs ks cur out out' Hlen Hrd Hst Hout.
  { destruct blocks; [inversion Hrd|discriminate]. }
  destruct blocks as [|[c s] blocks]; [discriminate|].
  apply Forall2_cons_1 in Hrd as [[Hc Hs] Hrd]. simpl in Hc, Hs.
  injection Hlen as Hlen. cbn [tail] in Hst.
  cbn [blocks_lines]. rewrite (process_read_symbols _ _ _ _ _ ks) by exact Hc.
  assert (Hsne : s <> "") by (eapply strip_nonempty; [exact Hs|discriminate]).
  rewrite process_step by exact Hsne. cbv zeta. rewrite Hs.
  change ("FFFFFFFF" =? "FFFFFFFF")%string with true. cbv iota.
  cbn [stream_output] in Hout.
  destruct (run_viterbi N A B (cur ++ ks)%list) as [[path prob]|e]; [|discriminate].
  destruct blocks as [|[c2 s2] blocks].
  - apply Forall2_nil_inv_l in Hrd as ->. cbn [stream_output] in Hout.
    injection Hout as <-. cbn [blocks_lines].
    destruct (String.eqb_spec zero ""); [contradiction|].
    rewrite Hz. reflexivity.
  - destruct seqs as [|ks2 seqs]; [inversion Hrd|].
    pose proof Hrd as Hrd'.
    apply Forall2_cons_1 in Hrd' as [[Hc2 Hs2] Hrd']. simpl in Hc2, Hs2.
    apply Forall_cons_1 in Hst as [(l & r & E & Hl0) Hst]. simpl in E. subst c2.
    destruct (read_symbols_first l r ks2 Hc2 Hl0)
      as (Hlne & k2 & ks2' & Hint & Hr & ->).
    cbn [blocks_lines].
    change ((l :: r) ++ s2 :: blocks_lines blocks (zero :: rest))%list
      with (l :: blocks_lines ((r, s2) :: blocks) (zero :: rest)).
    cbv iota beta.
    destruct (String.eqb_spec l ""); [contradiction|].
    destruct (String.eqb_spec (py_strip l) "0"); [contradiction|].
    rewrite Hint.
    apply (IH ((r, s2) :: blocks) seqs ks2' [k2]).
    + simpl in Hlen |- *. lia.
    + constructor; [split; assumption|exact Hrd'].
    + exact Hst.
    + exact Hout.
Qed.

(** [X8] The whole loop of [main].  When the input is a stream of blocks,
    each made of the lines of one sequence (observations, lines reading "0"
    skipped) and a line reading "FFFFFFFF", every block after the first
    starting with a line that does not read "0", and the stream is followed by
    a line reading "0", then the output is the blocks [run_viterbi] gives
    for the sequences, in order, followed by the line "0"; whatever follows
    in the input is not read. *)
Theorem stream_decoded (N : Z) (A B : matrix)
    (blocks : list (list string * string)) (seqs : list (list Z))
    (zero : string) (rest : list string) (out : string) :
  blocks <> [] ->
  Forall2 block_reads blocks seqs ->
  Forall starts_sequence (tail blocks) ->
  py_strip zero = "0" ->
  stream_output N A B seqs "" = Some out ->
  process N A B (blocks_lines blocks (zero :: rest)) [] ""
  = ((out ++ "0" ++ nl)%string, Ok tt) /\
  forall n_file a_file b_file input_file M,
    load_model n_file a_file b_file = Ok (N, M, A, B) ->
    readlines input_file = blocks_lines blocks (zero :: rest) ->
    main n_file a_file b_file input_file
    = ((out ++ "0" ++ nl)%string, Ok tt).
Proof.
  intros Hne Hrd Hst Hz Hout.
  assert (H : process N A B (blocks_lines blocks (zero :: rest)) [] ""
              = ((out ++ "0" ++ nl)%string, Ok tt)).
  { destruct seqs as [|ks seqs].
    - apply Forall2_nil_inv_r in Hrd. contradiction.
    - eapply (process_blocks N A B zero rest Hz (length blocks));
        [reflexivity|exact Hrd|exact Hst|exact Hout]. }
  split; [exact H|].
  intros n_file a_file b_file input_file M Hload Hin.
  unfold main. rewrite Hload, Hin. exact H.
Qed.

Lemma stream_decoded_witness :
  [([("1" ++ nl)%string; ("2" ++ nl)%string], ("FFFFFFFF" ++ nl)%string);
   ([("2" ++ nl)%string], ("FFFFFFFF" ++ nl)%string)] <> [] /\
  Forall2 block_reads
    [([("1" ++ nl)%string; ("2" ++ nl)%string], ("FFFFFFFF" ++ nl)%string);
     ([("2" ++ nl)%string], ("FFFFFFFF" ++ nl)%string)] [[1; 2]; [2]] /\
  Forall starts_sequence
    (tail [([("1" ++ nl)%string; ("2" ++ nl)%string], ("FFFFFFFF" ++ nl)%string);
           ([("2" ++ nl)%string], ("FFFFFFFF" ++ nl)%string)]) /\
  py_strip ("0" ++ nl) = "0" /\
  stream_output 2 small_a small_b [[1; 2]; [2]] ""
  = Some (lines_text ["1"; "2"; "00000000"; "FFFFFFFF";
                      "1"; "BF800000"; "FFFFFFFF"]) /\
  process 2 small_a small_b
    (blocks_lines
       [([("1" ++ nl)%string; ("2" ++ nl)%string], ("FFFFFFFF" ++ nl)%string);
        ([("2" ++ nl)%string], ("FFFFFFFF" ++ nl)%string)]
       (("0" ++ nl)%string :: [("1" ++ nl)%string])) [] ""
  = ((lines_text ["1"; "2"; "00000000"; "FFFFFFFF";
                  "1"; "BF800000"; "FFFFFFFF"] ++ "0" ++ nl)%string, Ok tt).
Proof.
  assert (H1 : [([("1" ++ nl)%string; ("2" ++ nl)%string],
                 ("FFFFFFFF" ++ nl)%string);
                ([("2" ++ nl)%string], ("FFFFFFFF" ++ nl)%string)] <> [])
    by discriminate.
  assert (H2 : Forall2 block_reads
                 [([("1" ++ nl)%string; ("2" ++ nl)%string],
                   ("FFFFFFFF" ++ nl)%string);
                  ([("2" ++ nl)%string], ("FFFFFFFF" ++ nl)%string)]
                 [[1; 2]; [2]])
    by (repeat constructor).
  assert (H3 : Forall starts_sequence
                 (tail [([("1" ++ nl)%string; ("2" ++ nl)%string],
                         ("FFFFFFFF" ++ nl)%string);
                        ([("2" ++ nl)%string], ("FFFFFFFF" ++ nl)%string)])).
  { repeat constructor. exists ("2" ++ nl)%string, [].
    split; [reflexivity|discriminate]. }
  assert (H4 : py_strip ("0" ++ nl) = "0") by reflexivity.
  assert (H5 : stream_output 2 small_a small_b [[1; 2]; [2]] ""
               = Some (lines_text ["1"; "2"; "00000000"; "FFFFFFFF";
                                   "1"; "BF800000"; "FFFFFFFF"]))
    by (vm_compute; reflexivity).
  repeat (split; [assumption|]).
  exact (proj1 (stream_decoded 2 small_a small_b _ [[1; 2]; [2]]
                  ("0" ++ nl)%string [("1" ++ nl)%string] _ H1 H2 H3 H4 H5)).
Defined.


(** ** The decoder and its symbols *)

Lemma for_range_ext_in {St : Type} lo count
    (body body' : Z -> St -> result St) s :
  (forall k s, lo <= k < lo + Z.of_nat count -> body k s = body' k s) ->
  for_range lo count body s = for_range lo count body' s.
Proof.
  revert lo s. induction count as [|c IH]; intros lo s E; simpl.
  - reflexivity.
  - rewrite E by lia. destruct (body' lo s); simpl; [|reflexivity].
    apply IH. intros k s' Hk. apply E. lia.
Qed.

Lemma for_range_Ok_body {St : Type} lo count
    (body : Z -> St -> result St) s s' k :
  for_range lo count body s = Ok s' -> lo <= k < lo + Z.of_nat count ->
  exists s1 s2, body k s1 = Ok s2.
Proof.
  revert lo s. induction count as [|c IH]; intros lo s H Hk; simpl in H.
  - lia.
  - apply bind_Ok in H as (s1 & H1 & H2).
    destruct (decide (k = lo)) as [->|Hne]; [eauto|].
    apply (IH (lo + 1) s1 H2). lia.
Qed.

Lemma py_index_map {A B : Type} (f : A -> B) (l : list A) (i : Z) (x : A) :
  py_index l i = Ok x -> py_index (map f l) i = Ok (f x).
Proof.
  unfold py_index. rewrite length_map.
  destruct (norm_index (length l) i) as [k|]; simpl; [|discriminate].
  change (map f l) with (f <$> l). rewrite list_lookup_fmap.
  destruct (l !! k); simpl; [|discriminate]. intros [= ->]. reflexivity.
Qed.

Lemma py_index_Ok_range {A : Type} (l : list A) (i : Z) (x : A) :
  py_index l i = Ok x ->
  - Z.of_nat (length l) <= i < Z.of_nat (length l).
Proof.
  unfold py_index, norm_index.
  destruct (Z.ltb_spec i 0);
    [destruct (Z.leb_spec 0 (i + Z.of_nat (length l)))
    |destruct (Z.leb_spec 0 i)]; simpl; try discriminate.
  - destruct (Z.ltb_spec (i + Z.of_nat (length l)) (Z.of_nat (length l)));
      [lia|discriminate].
  - destruct (Z.ltb_spec i (Z.of_nat (length l))); [lia|discriminate].
Qed.

Lemma py_index_wrap {A : Type} (row : list A) (m o : Z) :
  length row = Z.to_nat m -> 1 - m <= o ->
  py_index row (wrap_symbol m o - 1) = py_index row (o - 1).
Proof.
  intros Hlen Ho. unfold wrap_symbol.
  destruct (Z.leb_spec o 0); [|reflexivity].
  unfold py_index, norm_index.
  destruct (Z.ltb_spec (o + m - 1) 0); [lia|].
  destruct (Z.ltb_spec (o - 1) 0); [|lia].
  replace (o - 1 + Z.of_nat (length row)) with (o + m - 1) by lia.
  reflexivity.
Qed.

Section Symbols.

Variables (n m : Z) (a b : matrix).

Hypothesis Hrows : Forall (fun row => length row = Z.to_nat m) b.

Lemma emission_wrap o j :
  1 - m <= o -> py_index2 b j (wrap_symbol m o - 1) = py_index2 b j (o - 1).
Proof.
  intros Ho. unfold py_index2.
  destruct (py_index b j) as [row|e] eqn:E; simpl; [|reflexivity].
  apply py_index_wrap; [|exact Ho].
  apply py_index_elem in E.
  exact (proj1 (Forall_forall _ _) Hrows row E).
Qed.

(** The symbol read at time [t] decodes like its wrapped form. *)
Lemma forward_wrap obs :
  Forall (fun o => 1 - m <= o) obs ->
  forward n a b (map (wrap_symbol m) obs) = forward n a b obs.
Proof.
  intros Hobs.
  assert (Hsym : forall t o, py_index obs t = Ok o -> 1 - m <= o).
  { intros t o H. apply py_index_elem in H.
    exact (proj1 (Forall_forall _ _) Hobs o H). }
  assert (Hfail : forall t e, py_index obs t = Raise e ->
            py_index (map (wrap_symbol m) obs) t = Raise e).
  { intros t e. unfold py_index. rewrite length_map.
    destruct (norm_index (length obs) t) as [k|]; simpl; [|auto].
    change (map (wrap_symbol m) obs) with (wrap_symbol m <$> obs).
    rewrite list_lookup_fmap. destruct (obs !! k); simpl; [discriminate|auto]. }
  unfold forward. rewrite length_map.
  destruct (py_index obs 0) as [o|e] eqn:E0.
  2:{ rewrite (Hfail 0 e E0). reflexivity. }
  rewrite (py_index_map (wrap_symbol m) obs 0 o E0). simpl.
  rewrite (for_range_ext_in 0 (Z.to_nat n)
             (init_body a b (wrap_symbol m o - 1)) (init_body a b (o - 1))).
  2:{ intros j s _. unfold init_body.
      rewrite (emission_wrap o j (Hsym 0 o E0)). reflexivity. }
  destruct (for_range 0 (Z.to_nat n) (init_body a b (o - 1)) _) as [tb0|e];
    simpl; [|reflexivity].
  apply for_range_ext_in. intros t s _. unfold time_body.
  destruct (py_index obs t) as [ot|e] eqn:Et.
  2:{ rewrite (Hfail t e Et). reflexivity. }
  rewrite (py_index_map (wrap_symbol m) obs t ot Et). simpl.
  apply for_range_ext_in. intros j s' _. unfold state_body.
  rewrite (emission_wrap ot j (Hsym t ot Et)). reflexivity.
Qed.

Lemma run_viterbi_wrap_eq obs :
  Forall (fun o => 1 - m <= o) obs ->
  run_viterbi n a b (map (wrap_symbol m) obs) = run_viterbi n a b obs.
Proof.
  intros Hobs. unfold run_viterbi, terminate, backtrace.
  rewrite length_map, (forward_wrap obs Hobs). reflexivity.
Qed.

End Symbols.

(** ** Exceptions of the decoder *)

Lemma ieo_Ok {A : Type} (x : A) : index_error_only (Ok x).
Proof. intros e. discriminate. Qed.

Lemma ieo_bind {A B : Type} (r : result A) (k : A -> result B) :
  index_error_only r -> (forall x, index_error_only (k x)) ->
  index_error_only (r ≫= k).
Proof.
  intros Hr Hk e. destruct r as [x|e']; simpl.
  - apply Hk.
  - intros [= <-]. apply Hr. reflexivity.
Qed.

Lemma ieo_py_index {A : Type} (l : list A) i : index_error_only (py_index l i).
Proof.
  intros e. unfold py_index.
  destruct (norm_index (length l) i ≫= (l !!.)); congruence.
Qed.

Lemma ieo_py_setitem {A : Type} (l : list A) i x :
  index_error_only (py_setitem l i x).
Proof.
  intros e. unfold py_setitem.
  destruct (norm_index (length l) i); congruence.
Qed.

Lemma ieo_py_index2 {A : Type} (M : list (list A)) t j :
  index_error_only (py_index2 M t j).
Proof.
  unfold py_index2. apply ieo_bind; [apply ieo_py_index|].
  intros row. apply ieo_py_index.
Qed.

Lemma ieo_py_setitem2 {A : Type} (M : list (list A)) t j x :
  index_error_only (py_setitem2 M t j x).
Proof.
  unfold py_setitem2. apply ieo_bind; [apply ieo_py_index|].
  intros row. apply ieo_bind; [apply ieo_py_setitem|].
  intros row'. apply ieo_py_setitem.
Qed.

Lemma ieo_for_range {St : Type} lo count (body : Z -> St -> result St) s :
  (forall k s, index_error_only (body k s)) ->
  index_error_only (for_range lo count body s).
Proof.
  intros Hb. revert lo s. induction count as [|c IH]; intros lo s; simpl.
  - apply ieo_Ok.
  - apply ieo_bind; [apply Hb|]. intros s'. apply IH.
Qed.

Lemma ieo_for_down {St : Type} hi count (body : Z -> St -> result St) s :
  (forall k s, index_error_only (body k s)) ->
  index_error_only (for_down hi count body s).
Proof.
  intros Hb. revert hi s. induction count as [|c IH]; intros hi s; simpl.
  - apply ieo_Ok.
  - apply ieo_bind; [apply Hb|]. intros s'. apply IH.
Qed.

Ltac ieo :=
  repeat first
    [ apply ieo_Ok | apply ieo_py_index2 | apply ieo_py_setitem2
    | apply ieo_py_index | apply ieo_py_setitem
    | apply ieo_bind; [|intros ?]
    | apply ieo_for_range; intros ? ?
    | apply ieo_for_down; intros ? ?
    | match goal with
      | |- index_error_only (let '(_, _) := ?p in _) => destruct p
      | |- index_error_only (if ?c then _ else _) => destruct c
      end ].

Lemma ieo_run_viterbi n a b obs : index_error_only (run_viterbi n a b obs).
Proof.
  unfold run_viterbi. destruct (Z.of_nat (length obs) =? 0); [apply ieo_Ok|].
  unfold forward, terminate, backtrace.
  apply ieo_bind.
  { apply ieo_bind; [apply ieo_py_index|]. intros o.
    apply ieo_bind.
    - apply ieo_for_range. intros j s. unfold init_body. ieo.
    - intros tb. apply ieo_for_range. intros t s. unfold time_body.
      apply ieo_bind; [apply ieo_py_index|]. intros ot.
      apply ieo_for_range. intros j s'. unfold state_body.
      apply ieo_bind.
      + apply ieo_for_range. intros i [mp ms]. unfold scan_body. ieo.
      + intros [mp ms]. ieo. }
  intros tb. apply ieo_bind.
  { apply ieo_for_range. intros j [fp fs]. unfold final_body. ieo. }
  intros [fp fs]. apply ieo_bind; [|intros path; apply ieo_Ok].
  apply ieo_bind; [apply ieo_py_setitem|]. intros path.
  apply ieo_for_down. intros t p. unfold back_body. ieo.
Qed.

(** A decoder call that returns has read, for every symbol, an entry of the
    first emission row. *)
Lemma forward_reads n a b obs tb t :
  1 <= n -> forward n a b obs = Ok tb -> 0 <= t < Z.of_nat (length obs) ->
  exists o e, py_index obs t = Ok o /\ py_index2 b 0 (o - 1) = Ok e.
Proof.
  intros Hn H Ht. unfold forward in H.
  apply bind_Ok in H as (o0 & Ho0 & H).
  apply bind_Ok in H as (tb0 & Hinit & Htime).
  destruct (decide (t = 0)) as [->|Hne].
  - destruct (for_range_Ok_body _ _ _ _ _ 0 Hinit ltac:(lia)) as (s1 & s2 & Hb).
    unfold init_body in Hb.
    apply bind_Ok in Hb as (x & _ & Hb). apply bind_Ok in Hb as (e & He & _).
    eauto.
  - destruct (for_range_Ok_body _ _ _ _ _ t Htime ltac:(lia)) as (s1 & s2 & Hb).
    unfold time_body in Hb. apply bind_Ok in Hb as (o & Ho & Hb).
    destruct (for_range_Ok_body _ _ _ _ _ 0 Hb ltac:(lia)) as (s3 & s4 & Hs).
    unfold state_body in Hs.
    apply bind_Ok in Hs as ([mp ms] & _ & Hs).
    apply bind_Ok in Hs as (e & He & _). eauto.
Qed.

Lemma run_viterbi_Ok_symbols n m a b obs r :
  wf_model n m a b -> obs <> [] ->
  run_viterbi n a b obs = Ok r -> Forall (fun o => 1 - m <= o <= m) obs.
Proof.
  intros (Hn & Hm & _ & _ & Hb1 & Hb2) Hne H.
  pose proof (nonempty_length obs Hne) as HT.
  unfold run_viterbi in H.
  destruct (Z.eqb_spec (Z.of_nat (length obs)) 0); [lia|].
  apply bind_Ok in H as (tb & Hfw & _).
  apply Forall_lookup. intros k o Hk.
  pose proof (lookup_lt_Some _ _ _ Hk) as Hlt.
  destruct (forward_reads n a b obs tb (Z.of_nat k) Hn Hfw ltac:(lia))
    as (o' & e & Ho' & He).
  apply py_index_Ok in Ho'; [|lia]. rewrite Nat2Z.id in Ho'.
  assert (o' = o) as -> by congruence.
  unfold py_index2 in He. apply bind_Ok in He as (row & Hrow & He).
  apply py_index_elem in Hrow.
  pose proof (proj1 (Forall_forall _ _) Hb2 row Hrow) as Hlen. simpl in Hlen.
  apply py_index_Ok_range in He. lia.
Qed.

Lemma wrap_symbol_range m o : 1 - m <= o <= m -> 1 <= wrap_symbol m o <= m.
Proof. unfold wrap_symbol. destruct (Z.leb_spec o 0); lia. Qed.

(** [X9] A symbol [o] in [1 - M, 0] is not rejected: through Python's
    negative indexing it selects emission column [o - 1 + M], so the
    sequence decodes exactly like the one in which [o] is replaced by
    [o + M]. *)
Theorem negative_symbols_wrap (n m : Z) (a b : matrix) (obs : list Z) :
  Forall (fun row => length row = Z.to_nat m) b ->
  Forall (fun o => 1 - m <= o) obs ->
  run_viterbi n a b obs = run_viterbi n a b (map (wrap_symbol m) obs).
Proof.
  intros Hb Hobs. symmetry. apply run_viterbi_wrap_eq; assumption.
Qed.

Lemma negative_symbols_wrap_witness :
  Forall (fun row => length row = Z.to_nat 2) small_b /\
  Forall (fun o => 1 - 2 <= o) [0; -1; 2] /\
  run_viterbi 2 small_a small_b [0; -1; 2]
  = run_viterbi 2 small_a small_b (map (wrap_symbol 2) [0; -1; 2]).
Proof.
  assert (H1 : Forall (fun row => length row = Z.to_nat 2) small_b)
    by (repeat constructor).
  assert (H2 : Forall (fun o => 1 - 2 <= o) [0; -1; 2])
    by (repeat constructor; lia).
  split; [exact H1|]. split; [exact H2|].
  exact (negative_symbols_wrap 2 2 small_a small_b [0; -1; 2] H1 H2).
Defined.

(** [X10] On a well-formed model and a non-empty sequence the decoder
    returns exactly when every symbol lies in [1 - M, M]; a symbol outside
    that range makes it raise IndexError, and IndexError is the only
    exception [run_viterbi] raises, whatever the tables and the sequence. *)
Theorem symbol_range (n m : Z) (a b : matrix) (obs : list Z) :
  wf_model n m a b -> obs <> [] ->
  (Forall (fun o => 1 - m <= o <= m) obs ->
   exists path prob, run_viterbi n a b obs = Ok (path, prob)) /\
  (Exists (fun o => o < 1 - m \/ m < o) obs ->
   run_viterbi n a b obs = Raise IndexError) /\
  (forall n' a' b' obs' e,
     run_viterbi n' a' b' obs' = Raise e -> e = IndexError).
Proof.
  intros Hwf Hne. split; [|split].
  - intros Hobs.
    rewrite <- (run_viterbi_wrap_eq n m a b (proj2 (proj2 (proj2 (proj2
                  (proj2 Hwf))))) obs).
    2:{ eapply Forall_impl; [exact Hobs|]. simpl. intros; lia. }
    destruct (run_viterbi_total n m a b (map (wrap_symbol m) obs) Hwf)
      as (tb & best & fs & path & H).
    + apply Forall_forall. intros o Ho.
      apply list_elem_of_fmap in Ho as (o' & -> & Ho').
      apply wrap_symbol_range.
      exact (proj1 (Forall_forall _ _) Hobs o' Ho').
    + destruct obs; [congruence|discriminate].
    + exists path, best. apply H.
  - intros Hbad. destruct (run_viterbi n a b obs) as [r|e] eqn:E.
    + exfalso. pose proof (run_viterbi_Ok_symbols n m a b obs r Hwf Hne E) as Hok.
      apply Exists_exists in Hbad as (o & Ho & Hbad).
      pose proof (proj1 (Forall_forall _ _) Hok o Ho). simpl in *. lia.
    + f_equal. exact (ieo_run_viterbi n a b obs e E).
  - intros n' a' b' obs' e. apply ieo_run_viterbi.
Qed.

Lemma symbol_range_witness :
  wf_model 2 2 small_a small_b /\ [1; 3] <> [] /\
  (Forall (fun o => 1 - 2 <= o <= 2) [1; 3] ->
   exists path prob, run_viterbi 2 small_a small_b [1; 3] = Ok (path, prob)) /\
  (Exists (fun o => o < 1 - 2 \/ 2 < o) [1; 3] ->
   run_viterbi 2 small_a small_b [1; 3] = Raise IndexError) /\
  (forall n' a' b' obs' e,
     run_viterbi n' a' b' obs' = Raise e -> e = IndexError).
Proof.
  assert (Hwf : wf_model 2 2 small_a small_b)
    by (unfold wf_model; repeat split; try lia; repeat constructor).
  assert (Hne : [1; 3] <> ([] : list Z)) by discriminate.
  split; [exact Hwf|]. split; [exact Hne|].
  exact (symbol_range 2 2 small_a small_b [1; 3] Hwf Hne).
Defined.


(** ** The returned probability *)

Section PathScore.

Variables (n m : Z) (a b : matrix) (obs : list Z) (tb : tables)
  (fs : Z) (path : list Z).

Hypothesis Hn : 1 <= n.
Hypothesis Hmodel : finite_model a b \/ log_prob_model a b.
Hypothesis Hfill : filled n a b obs tb.
Hypothesis Hlen : length path = length obs.
Hypothesis Hback : backtrace_eq obs (tB tb) fs path.
Hypothesis Hrange : Forall (fun p => 1 <= p <= n) path.

Lemma path_entry t :
  0 <= t < Z.of_nat (length obs) ->
  exists p, py_index path t = Ok p /\ 1 <= p <= n.
Proof.
  intros Ht. destruct (py_index_lt path t) as (p & Hp); [lia|].
  exists p. split; [exact Hp|].
  apply py_index_elem in Hp.
  exact (proj1 (Forall_forall _ _) Hrange p Hp).
Qed.

(** The score of the path through time [k] is the table entry of the state
    the path is in at time [k]. *)
Lemma path_score_table (k : nat) :
  Z.of_nat k < Z.of_nat (length obs) ->
  exists p, py_index path (Z.of_nat k) = Ok p /\
            path_score a b obs path k = py_index2 (tV tb) (Z.of_nat k) (p - 1).
Proof.
  induction k as [|k IH]; intros Hk.
  - destruct (path_entry 0 ltac:(lia)) as (p & Hp & Hr).
    exists p. split; [exact Hp|].
    destruct (proj1 (proj2 Hfill) (p - 1) ltac:(lia))
      as (x & e & Hx & He & HV & _).
    cbn [path_score]. rewrite Hp. simpl. rewrite Hx. simpl.
    rewrite He. simpl. symmetry. exact HV.
  - destruct (IH ltac:(lia)) as (q & Hq & Hs).
    destruct (path_entry (Z.of_nat (S k)) ltac:(lia)) as (p & Hp & Hr).
    exists p. split; [exact Hp|].
    destruct (proj2 Hback (Z.of_nat k) ltac:(lia)) as (p' & prev & Hp' & HB & Hq').
    replace (Z.of_nat k + 1) with (Z.of_nat (S k)) in Hp', HB by lia.
    assert (p' = p) as -> by congruence.
    assert (q = prev + 1) as -> by congruence.
    destruct (filled_rec_eq n a b obs tb (Z.of_nat (S k)) (p - 1) Hn Hmodel
                Hfill ltac:(lia) ltac:(lia))
      as (i_max & c_max & e & HB' & Hi & Hc & _ & He & HV).
    assert (prev = i_max) as -> by congruence.
    unfold cand in Hc. apply bind_Ok in Hc as (v & Hv & Hc).
    apply bind_Ok in Hc as (x & Hx & [= <-]).
    replace (Z.of_nat (S k) - 1) with (Z.of_nat k) in Hv by lia.
    replace (i_max + 1 - 1) with i_max in Hs by lia.
    cbn [path_score]. rewrite Hs, Hv. simpl. rewrite Hq. simpl.
    rewrite Hp. simpl. rewrite Hx. simpl. rewrite He. simpl.
    symmetry. exact HV.
Qed.

End PathScore.

(** [X11] The returned log-probability is the score of the returned path:
    the single-precision sum, taken in the order of the recurrence, of the
    initial transition and emission and then, step by step, of the
    transition from [path[t-1]] to [path[t]] and the emission of symbol [t]
    in state [path[t]]. *)
Theorem probability_is_path_score (n m : Z) (a b : matrix) (obs : list Z) :
  wf_model n m a b -> finite_model a b \/ log_prob_model a b ->
  wf_sequence m obs -> obs <> [] ->
  exists path prob,
    run_viterbi n a b obs = Ok (path, prob) /\
    path_score a b obs path (length obs - 1) = Ok prob.
Proof.
  intros Hwf Hfin Hobs Hne.
  destruct (run_viterbi_total n m a b obs Hwf Hobs Hne)
    as (tb & best & fs & path & Hfw & Hfill & Hterm & Hspec & Hbt & Hlen &
        Heq & Hrng & Hrun).
  pose proof (nonempty_length obs Hne) as HT.
  pose proof (n_pos n m a b Hwf) as Hn.
  destruct (argmax_attained n _ _ _ Hn Hspec) as (Hk & Hb & _).
  { intros j Hj. apply (proj1 Hfill); [lia|exact Hj]. }
  { intros j v Hj Hv.
    eapply (filled_not_nan n a b obs tb Hfin Hfill); [|exact Hj|exact Hv].
    lia. }
  exists path, best. split; [exact Hrun|].
  destruct (path_score_table n a b obs tb fs path Hn Hfin Hfill Hlen Heq Hrng
              (length obs - 1)) as (p & Hp & Hs); [lia|].
  replace (Z.of_nat (length obs - 1)) with (Z.of_nat (length obs) - 1)
    in Hp, Hs by lia.
  rewrite (proj1 Heq) in Hp. injection Hp as <-.
  rewrite Hs. replace (fs + 1 - 1) with fs by lia. exact Hb.
Qed.

Lemma probability_is_path_score_witness :
  wf_model 2 2 small_a small_b /\
  (finite_model small_a small_b \/ log_prob_model small_a small_b) /\
  wf_sequence 2 [1; 2; 2] /\ [1; 2; 2] <> [] /\
  exists path prob,
    run_viterbi 2 small_a small_b [1; 2; 2] = Ok (path, prob) /\
    path_score small_a small_b [1; 2; 2] path (length [1; 2; 2] - 1) = Ok prob.
Proof.
  assert (Hwf : wf_model 2 2 small_a small_b)
    by (unfold wf_model; repeat split; try lia; repeat constructor).
  assert (Hfin : finite_model small_a small_b \/ log_prob_model small_a small_b)
    by (left; split; repeat constructor).
  assert (Hobs : wf_sequence 2 [1; 2; 2])
    by (unfold wf_sequence; repeat constructor; lia).
  assert (Hne : [1; 2; 2] <> ([] : list Z)) by discriminate.
  repeat (split; [assumption|]).
  exact (probability_is_path_score 2 2 small_a small_b [1; 2; 2]
           Hwf Hfin Hobs Hne).
Defined.


(** ** State indices as text *)

Lemma dec_hex_digit d : dec_digit d -> hex_digit d.
Proof. unfold dec_digit, hex_digit. lia. Qed.

Lemma uint_digits_string u :
  NilEmpty.string_of_uint u = hex_string (uint_digits u).
Proof.
  unfold hex_string.
  induction u; cbn [NilEmpty.string_of_uint uint_digits map string_of_chars
                    fold_right]; [reflexivity|..]; rewrite IHu; reflexivity.
Qed.

Lemma uint_digits_dec u : Forall dec_digit (uint_digits u).
Proof.
  induction u; cbn [uint_digits]; constructor; try assumption;
    unfold dec_digit; lia.
Qed.

Lemma uint_digits_acc u acc :
  fold_left (fun acc d => acc * 10 + d) (uint_digits u) (Zpos acc)
  = Zpos (Pos.of_uint_acc u acc).
Proof.
  revert acc.
  induction u; intros acc; cbn [uint_digits fold_left Pos.of_uint_acc];
    [reflexivity|..]; rewrite <- IHu; f_equal; lia.
Qed.

Lemma uint_digits_value u :
  fold_left (fun acc d => acc * 10 + d) (uint_digits u) 0
  = Z.of_N (Pos.of_uint u).
Proof.
  induction u; cbn [uint_digits fold_left Pos.of_uint];
    [reflexivity|exact IHu|..];
    change (0 * 10 + ?d) with d; rewrite uint_digits_acc; reflexivity.
Qed.

Lemma hex_char_dec d : dec_digit d -> hex_char d = dec_char d.
Proof.
  revert d.
  apply (dec_digit_cases (fun d => hex_char d = dec_char d)); reflexivity.
Qed.

Lemma dec_digits_hex_string d ds :
  Forall dec_digit (d :: ds) -> dec_digits (hex_string (d :: ds)) (d :: ds).
Proof.
  revert d. induction ds as [|d' ds IH]; intros d H;
    pose proof (Forall_inv H) as Hd;
    change (hex_string (d :: ?l)) with (String (hex_char d) (hex_string l));
    rewrite (hex_char_dec d Hd).
  - apply dd_last, Hd.
  - apply dd_digit; [exact Hd|]. apply IH, (Forall_inv_tail H).
Qed.

(** [int()] on a string of decimal digits. *)
Lemma py_int_dec_string d ds :
  Forall dec_digit (d :: ds) -> Z.of_nat (length (d :: ds)) <= 4300 ->
  py_int 10 (hex_string (d :: ds))
  = Ok (fold_left (fun acc d => acc * 10 + d) (d :: ds) 0).
Proof.
  intros H Hlen. rewrite <- (string_app_nil_r (hex_string (d :: ds))).
  pose proof (py_int_dec "" "" (hex_string (d :: ds)) "" false (d :: ds)
                eq_refl eq_refl sign_none (dec_digits_hex_string d ds H)) as E.
  cbn [String.append] in E. rewrite E.
  destruct (Z.ltb_spec 4300 (Z.of_nat (length (d :: ds)))); [lia|reflexivity].
Qed.

(** [int()] on a minus sign and decimal digits. *)
Lemma py_int_neg_dec_string d ds :
  Forall dec_digit (d :: ds) -> Z.of_nat (length (d :: ds)) <= 4300 ->
  py_int 10 (String "-" (hex_string (d :: ds)))
  = Ok (- fold_left (fun acc d => acc * 10 + d) (d :: ds) 0).
Proof.
  intros H Hlen. rewrite <- (string_app_nil_r (hex_string (d :: ds))).
  pose proof (py_int_dec "" "-" (hex_string (d :: ds)) "" true (d :: ds)
                eq_refl eq_refl sign_minus (dec_digits_hex_string d ds H)) as E.
  cbn [String.append] in E. rewrite E.
  destruct (Z.ltb_spec 4300 (Z.of_nat (length (d :: ds)))); [lia|reflexivity].
Qed.

Lemma py_strip_dec_string d ds :
  Forall dec_digit (d :: ds) ->
  py_strip (hex_string (d :: ds) ++ nl) = hex_string (d :: ds).
Proof.
  intros H.
  assert (Hh : Forall hex_digit (d :: ds))
    by (eapply Forall_impl; [exact H|exact dec_hex_digit]).
  unfold py_strip. rewrite lstrip_hex_string by exact (Forall_inv Hh).
  apply rstrip_hex_string_nl, Hh.
Qed.

Lemma py_strip_neg_dec_string d ds :
  Forall dec_digit (d :: ds) ->
  py_strip (String "-" (hex_string (d :: ds)) ++ nl)
  = String "-" (hex_string (d :: ds)).
Proof.
  intros H.
  assert (Hh : Forall hex_digit (d :: ds))
    by (eapply Forall_impl; [exact H|exact dec_hex_digit]).
  unfold py_strip.
  change (lstrip (String "-" (hex_string (d :: ds)) ++ nl))
    with (String "-" (hex_string (d :: ds) ++ nl)).
  cbn [rstrip]. rewrite rstrip_hex_string_nl by exact Hh. reflexivity.
Qed.

Lemma to_uint_not_D0 p l : Pos.to_uint p <> Decimal.D0 l.
Proof.
  intros E.
  pose proof (DecimalPos.Unsigned.to_of (Pos.to_uint p)) as H.
  rewrite DecimalPos.Unsigned.of_to in H.
  change (N.to_uint (N.pos p)) with (Pos.to_uint p) in H.
  rewrite E in H. unfold Decimal.unorm in H.
  rewrite DecimalFacts.nzhead_D0 in H.
  destruct (Decimal.nzhead l) eqn:En;
    try (symmetry in H; revert H; rewrite <- En;
         apply DecimalFacts.nzhead_nonzero).
  injection H as ->.
  exact (DecimalPos.Unsigned.to_uint_nonzero p E).
Qed.

Lemma fold_digits_lower ds acc :
  Forall dec_digit ds -> 0 <= acc ->
  acc * 10 ^ Z.of_nat (length ds)
  <= fold_left (fun acc d => acc * 10 + d) ds acc.
Proof.
  intros H. revert acc. induction H as [|d ds Hd H IH]; intros acc Hacc.
  - simpl. lia.
  - cbn [fold_left length]. rewrite Nat2Z.inj_succ, Z.pow_succ_r by lia.
    unfold dec_digit in Hd.
    etransitivity; [|apply IH; lia].
    pose proof (Z.pow_nonneg 10 (Z.of_nat (length ds)) ltac:(lia)). nia.
Qed.

Lemma to_uint_digits p :
  exists d ds,
    uint_digits (Pos.to_uint p) = d :: ds /\ Forall dec_digit (d :: ds) /\
    fold_left (fun acc d => acc * 10 + d) (d :: ds) 0 = Zpos p /\
    (forall k, 0 <= k -> Zpos p < 10 ^ k -> Z.of_nat (length (d :: ds)) <= k).
Proof.
  pose proof (uint_digits_dec (Pos.to_uint p)) as Hd.
  pose proof (uint_digits_value (Pos.to_uint p)) as Hv.
  rewrite DecimalPos.Unsigned.of_to in Hv.
  assert (H1 : exists d ds, uint_digits (Pos.to_uint p) = d :: ds /\ 1 <= d).
  { pose proof (to_uint_not_D0 p) as Hnz.
    pose proof (DecimalPos.Unsigned.to_uint_nonnil p) as Hnn.
    destruct (Pos.to_uint p) as [|l|l|l|l|l|l|l|l|l|l]; cbn [uint_digits];
      [congruence|exfalso; exact (Hnz l eq_refl)|..];
      eexists; eexists; (split; [reflexivity|lia]). }
  destruct H1 as (d & ds & E & Hd1). rewrite E in Hd, Hv.
  exists d, ds. repeat split; try assumption.
  intros k Hk Hlt. cbn [fold_left] in Hv.
  pose proof (fold_digits_lower ds (0 * 10 + d) (Forall_inv_tail Hd)
                ltac:(lia)) as Hlow.
  rewrite Hv in Hlow.
  assert (Hp : 10 ^ Z.of_nat (length ds) < 10 ^ k).
  { pose proof (Z.pow_pos_nonneg 10 (Z.of_nat (length ds)) ltac:(lia)
                  ltac:(lia)). nia. }
  apply Z.pow_lt_mono_r_iff in Hp; [|lia|lia].
  cbn [length]. lia.
Qed.

Lemma format_int_pos p :
  format_int (Zpos p) = hex_string (uint_digits (Pos.to_uint p)).
Proof.
  unfold format_int. cbn [Z.to_int NilZero.string_of_int].
  rewrite <- uint_digits_string. unfold NilZero.string_of_uint.
  pose proof (DecimalPos.Unsigned.to_uint_nonnil p).
  destruct (Pos.to_uint p); [congruence|reflexivity..].
Qed.

Lemma format_int_neg p :
  format_int (Zneg p) = String "-" (hex_string (uint_digits (Pos.to_uint p))).
Proof.
  unfold format_int. cbn [Z.to_int NilZero.string_of_int]. f_equal.
  rewrite <- uint_digits_string. unfold NilZero.string_of_uint.
  pose proof (DecimalPos.Unsigned.to_uint_nonnil p).
  destruct (Pos.to_uint p); [congruence|reflexivity..].
Qed.

(** [X12] A state index written by [write_output_val] reads back: the line
    is the decimal numeral of the integer, with a minus sign when negative,
    and [int()] of the stripped line is the integer itself.  The bound keeps
    the numeral within the 4300 digits CPython converts by default. *)
Theorem int_round_trip (v : Z) :
  Z.abs v < 10 ^ 4300 ->
  py_strip (write_output_val "" (OutInt v)) = format_int v /\
  py_int 10 (py_strip (write_output_val "" (OutInt v))) = Ok v.
Proof.
  intros Hb. unfold write_output_val. rewrite string_app_nil_l.
  destruct v as [|p|p].
  - split; reflexivity.
  - rewrite format_int_pos.
    destruct (to_uint_digits p) as (d & ds & -> & Hd & Hv & Hlen).
    pose proof (Hlen 4300 ltac:(lia) Hb) as Hl.
    rewrite py_strip_dec_string by exact Hd. split; [reflexivity|].
    rewrite py_int_dec_string by assumption. rewrite Hv. reflexivity.
  - rewrite format_int_neg.
    destruct (to_uint_digits p) as (d & ds & -> & Hd & Hv & Hlen).
    pose proof (Hlen 4300 ltac:(lia) Hb) as Hl.
    rewrite py_strip_neg_dec_string by exact Hd. split; [reflexivity|].
    rewrite py_int_neg_dec_string by assumption. rewrite Hv. reflexivity.
Qed.

Lemma int_round_trip_witness :
  Z.abs (-120) < 10 ^ 4300 /\
  py_strip (write_output_val "" (OutInt (-120))) = format_int (-120) /\
  py_int 10 (py_strip (write_output_val "" (OutInt (-120)))) = Ok (-120).
Proof.
  assert (H : Z.abs (-120) < 10 ^ 4300) by (vm_compute; reflexivity).
  split; [exact H|].
  exact (int_round_trip (-120) H).
Defined.


(** ** Tables, blocks and exceptions *)

Lemma init_body_shape (rows cols : nat) a b idx j tb tb' :
  0 <= j -> init_body a b idx j tb = Ok tb' ->
  has_shape rows cols (tV tb) /\ has_shape rows cols (tB tb) ->
  has_shape rows cols (tV tb') /\ has_shape rows cols (tB tb').
Proof.
  intros Hj H [HV HB]. unfold init_body in H.
  apply bind_Ok in H as (x & _ & H). apply bind_Ok in H as (e & _ & H).
  apply bind_Ok in H as (V & HsV & H). apply bind_Ok in H as (B & HsB & [= <-]).
  simpl. split;
    [exact (has_shape_set _ _ _ _ 0 j _ ltac:(lia) Hj HsV HV)
    |exact (has_shape_set _ _ _ _ 0 j _ ltac:(lia) Hj HsB HB)].
Qed.

Lemma state_body_shape (rows cols : nat) n a b t idx j tb tb' :
  0 <= t -> 0 <= j -> state_body n a b t idx j tb = Ok tb' ->
  has_shape rows cols (tV tb) /\ has_shape rows cols (tB tb) ->
  has_shape rows cols (tV tb') /\ has_shape rows cols (tB tb').
Proof.
  intros Ht Hj H [HV HB]. unfold state_body in H.
  apply bind_Ok in H as ([mp ms] & _ & H). apply bind_Ok in H as (e & _ & H).
  apply bind_Ok in H as (V & HsV & H). apply bind_Ok in H as (B & HsB & [= <-]).
  simpl. split;
    [exact (has_shape_set _ _ _ _ t j _ Ht Hj HsV HV)
    |exact (has_shape_set _ _ _ _ t j _ Ht Hj HsB HB)].
Qed.

(** [X13] The two tables keep their shape: whenever the forward pass
    returns, each of them has one row per observation and one column per
    state. *)
Theorem forward_tables_shape (n : Z) (a b : matrix) (obs : list Z)
    (tb : tables) :
  forward n a b obs = Ok tb ->
  has_shape (length obs) (Z.to_nat n) (tV tb) /\
  has_shape (length obs) (Z.to_nat n) (tB tb).
Proof.
  unfold forward. rewrite Nat2Z.id. intros H.
  apply bind_Ok in H as (o & _ & H). apply bind_Ok in H as (tb0 & Hinit & Htime).
  set (P := fun (_ : Z) (s : tables) =>
              has_shape (length obs) (Z.to_nat n) (tV s) /\
              has_shape (length obs) (Z.to_nat n) (tB s)).
  assert (H0 : P 0 (Tables (replicate (length obs)
                              (replicate (Z.to_nat n) F32.neg_inf))
                           (replicate (length obs) (replicate (Z.to_nat n) 0))))
    by (split; apply has_shape_replicate).
  assert (H1 : P 1 tb0).
  { refine (for_range_partial P 0 _ _ _ _ H0 _ Hinit).
    intros j s s' Hj Hs Hb. eapply init_body_shape; [|exact Hb|exact Hs]. lia. }
  refine (for_range_partial P 1 _ _ _ _ H1 _ Htime).
  intros t s s' Ht Hs Hb. unfold time_body in Hb.
  apply bind_Ok in Hb as (ot & _ & Hb).
  refine (for_range_partial P 0 _ _ _ _ Hs _ Hb).
  intros j s1 s2 Hj Hs1 Hb1.
  eapply state_body_shape; [| |exact Hb1|exact Hs1]; lia.
Qed.

Lemma forward_tables_shape_witness :
  exists tb,
    forward 2 small_a small_b [1; 2; 2] = Ok tb /\
    has_shape (length [1; 2; 2]) (Z.to_nat 2) (tV tb) /\
    has_shape (length [1; 2; 2]) (Z.to_nat 2) (tB tb).
Proof.
  destruct (forward 2 small_a small_b [1; 2; 2]) as [tb|e] eqn:E;
    [|vm_compute in E; discriminate].
  exists tb. split; [reflexivity|].
  exact (forward_tables_shape 2 small_a small_b [1; 2; 2] tb E).
Defined.














(** The outcomes of the program: a normal end, ValueError or IndexError. *)
Lemma hex_to_float_ieo text : index_error_only (hex_to_float text).
Proof.
  intros e H. destruct (hex_to_float_total text) as (v & Hv). congruence.
Qed.

Lemma load_matrix_ieo rows cols lines :
  index_error_only (load_matrix rows cols lines).
Proof.
  unfold load_matrix. apply ieo_bind; [|intros [A idx]; apply ieo_Ok].
  apply ieo_for_range. intros i s. apply ieo_for_range. intros j [A idx].
  unfold load_body. apply ieo_bind; [apply ieo_py_index|]. intros line.
  apply ieo_bind; [apply hex_to_float_ieo|]. intros v.
  apply ieo_bind; [apply ieo_py_setitem2|]. intros A'. apply ieo_Ok.
Qed.

Lemma load_model_raises n_file a_file b_file e :
  load_model n_file a_file b_file = Raise e ->
  e = ValueError \/ e = IndexError.
Proof.
  unfold load_model.
  destruct (readline (readlines n_file)) as [l1 f].
  destruct (py_int 10 (py_strip l1)) as [N|e1] eqn:E1; simpl.
  2:{ intros [= <-]. left. eapply py_int_raises, E1. }
  destruct (readline f) as [l2 f'].
  destruct (py_int 10 (py_strip l2)) as [M|e2] eqn:E2; simpl.
  2:{ intros [= <-]. left. eapply py_int_raises, E2. }
  destruct (load_matrix (N + 1) N (readlines a_file)) as [A|e3] eqn:E3; simpl.
  2:{ intros [= <-]. right. eapply load_matrix_ieo, E3. }
  destruct (load_matrix N M (readlines b_file)) as [B|e4] eqn:E4; simpl.
  2:{ intros [= <-]. right. eapply load_matrix_ieo, E4. }
  discriminate.
Qed.

Lemma process_raises N A B (k : nat) :
  forall lines cur out e,
    (length lines <= k)%nat ->
    snd (process N A B lines cur out) = Raise e ->
    e = ValueError \/ e = IndexError.
Proof.
  induction k as [|k IH]; intros lines cur out e Hlen.
  { destruct lines; [discriminate|simpl in Hlen; lia]. }
  destruct lines as [|line rest]; [discriminate|].
  simpl in Hlen.
  destruct (String.eqb_spec line "") as [->|Hne]; [discriminate|].
  rewrite process_step by exact Hne. cbv zeta.
  destruct (py_strip line =? "FFFFFFFF")%string.
  - destruct (run_viterbi N A B cur) as [[path prob]|e'] eqn:Erun.
    2:{ simpl. intros [= <-]. right. eapply ieo_run_viterbi, Erun. }
    destruct rest as [|next rest']; [discriminate|].
    destruct (next =? "")%string; [discriminate|].
    destruct (py_strip next =? "0")%string; [discriminate|].
    destruct (py_int 10 (py_strip next)) as [x|e'] eqn:Eint.
    + apply IH. simpl in Hlen. lia.
    + simpl. intros [= <-]. left. eapply py_int_raises, Eint.
  - destruct (negb (py_strip line =? "0")%string).
    + destruct (py_int 10 (py_strip line)) as [x|e'] eqn:Eint.
      * apply IH. lia.
      * simpl. intros [= <-]. left. eapply py_int_raises, Eint.
    + apply IH. lia.
Qed.

(** [X15] Once its four files are read, the program ends normally or with
    ValueError (a line that is no integer) or IndexError (a model file that
    is too short, a symbol out of range).  The struct.error that
    [struct.pack] raises on a token outside [0, 2^32) never escapes:
    [hex_to_float] catches it. *)
Theorem main_outcomes (n_file a_file b_file input_file : string) :
  snd (main n_file a_file b_file input_file) = Ok tt \/
  snd (main n_file a_file b_file input_file) = Raise ValueError \/
  snd (main n_file a_file b_file input_file) = Raise IndexError.
Proof.
  unfold main.
  destruct (load_model n_file a_file b_file) as [[[[N M] A] B]|e] eqn:E.
  - destruct (snd (process N A B (readlines input_file) [] "")) as [[]|e] eqn:Ep;
      [left; reflexivity|].
    destruct (process_raises N A B _ _ _ _ e (le_n _) Ep) as [-> | ->]; auto.
  - destruct (load_model_raises _ _ _ e E) as [-> | ->]; auto.
Qed.


(** ** Impossible sequences and loaded entries *)

Lemma add_neg_inf x e :
  F32.is_log_prob x = true -> F32.is_log_prob e = true ->
  x = F32.neg_inf \/ e = F32.neg_inf -> F32.add x e = F32.neg_inf.
Proof.
  intros Hx He [-> | ->].
  - destruct e as [[s|[]| |[] m e]|s m]; try discriminate; reflexivity.
  - destruct x as [[s|[]| |[] m e]|s m]; try discriminate; reflexivity.
Qed.

Lemma log_prob_a a b i j x :
  log_prob_model a b -> py_index2 a i j = Ok x -> F32.is_log_prob x = true.
Proof.
  intros [Ha _] H. apply py_index2_elem in H as (row & Hrow & Hx).
  pose proof (proj1 (Forall_forall _ _) Ha row Hrow) as Hr.
  exact (proj1 (Forall_forall _ _) Hr x Hx).
Qed.

Lemma log_prob_emission a b obs t j e :
  log_prob_model a b -> emission b obs t j = Ok e ->
  F32.is_log_prob e = true.
Proof.
  intros [_ Hb] H. unfold emission in H. apply bind_Ok in H as (o & _ & H).
  apply py_index2_elem in H as (row & Hrow & Hx).
  pose proof (proj1 (Forall_forall _ _) Hb row Hrow) as Hr.
  exact (proj1 (Forall_forall _ _) Hr e Hx).
Qed.

Section Impossible.

Variables (n : Z) (a b : matrix) (obs : list Z) (tb : tables).

Hypothesis Hn : 1 <= n.
Hypothesis Hlp : log_prob_model a b.
Hypothesis Hfill : filled n a b obs tb.
Hypothesis Hfirst : forall j x e, 0 <= j < n ->
  py_index2 a 0 j = Ok x -> emission b obs 0 j = Ok e ->
  x = F32.neg_inf \/ e = F32.neg_inf.

(** Every score is negative infinity and every back-pointer is 0. *)
Lemma impossible_tables (k : nat) :
  Z.of_nat k < Z.of_nat (length obs) ->
  forall j, 0 <= j < n ->
    py_index2 (tV tb) (Z.of_nat k) j = Ok F32.neg_inf /\
    (1 <= Z.of_nat k -> py_index2 (tB tb) (Z.of_nat k) j = Ok 0).
Proof.
  induction k as [|k IH]; intros Hk j Hj.
  - destruct (proj1 (proj2 Hfill) j Hj) as (x & e & Hx & He & HV & _).
    split; [|lia]. change (Z.of_nat 0) with 0. rewrite HV. f_equal.
    apply add_neg_inf; [eapply log_prob_a|eapply log_prob_emission|]; eauto.
  - destruct (proj2 (proj2 Hfill) (Z.of_nat (S k)) j ltac:(lia) Hj)
      as (best & i_max & e & Hspec & Hc & He & HB & HV).
    destruct (am_none _ _ _ _ Hspec) as [-> ->].
    { intros i c Hi Hci. unfold cand in Hci.
      apply bind_Ok in Hci as (v & Hv & Hci).
      apply bind_Ok in Hci as (x & Hx & [= <-]).
      replace (Z.of_nat (S k) - 1) with (Z.of_nat k) in Hv by lia.
      destruct (IH ltac:(lia) i Hi) as [HVi _].
      assert (v = F32.neg_inf) as -> by congruence.
      rewrite add_neg_inf; [reflexivity|reflexivity| |left; reflexivity].
      eapply log_prob_a; eauto. }
    split; [|intros _; exact HB].
    rewrite HV. f_equal.
    apply add_neg_inf; [reflexivity| |left; reflexivity].
    eapply log_prob_emission; eauto.
Qed.

Lemma impossible_path fs path (k : nat) :
  backtrace_eq obs (tB tb) fs path -> fs = 0 ->
  Z.of_nat k < Z.of_nat (length obs) ->
  py_index path (Z.of_nat (length obs) - 1 - Z.of_nat k) = Ok 1.
Proof.
  intros [Hlast Hprev] -> . induction k as [|k IH]; intros Hk.
  - replace (Z.of_nat (length obs) - 1 - Z.of_nat 0)
      with (Z.of_nat (length obs) - 1) by lia. exact Hlast.
  - destruct (Hprev (Z.of_nat (length obs) - 1 - Z.of_nat (S k)) ltac:(lia))
      as (p & prev & Hp & HB & Ht).
    replace (Z.of_nat (length obs) - 1 - Z.of_nat (S k) + 1)
      with (Z.of_nat (length obs) - 1 - Z.of_nat k) in Hp, HB by lia.
    rewrite (IH ltac:(lia)) in Hp. injection Hp as <-.
    destruct (impossible_tables (length obs - 1 - k) ltac:(lia) 0 ltac:(lia))
      as [_ HB0].
    replace (Z.of_nat (length obs - 1 - k))
      with (Z.of_nat (length obs) - 1 - Z.of_nat k) in HB0 by lia.
    change (1 - 1) with 0 in HB. rewrite (HB0 ltac:(lia)) in HB.
    injection HB as <-. exact Ht.
Qed.

End Impossible.

(** [X16] A sequence whose first symbol is impossible in every state (for
    each state the initial transition or the emission is negative infinity)
    decodes, in a model of log-probabilities, to the path that stays in
    state 1 with log-probability negative infinity: every score is negative
    infinity, no comparison succeeds and every back-pointer stays 0. *)
Theorem impossible_sequence (n m : Z) (a b : matrix) (obs : list Z) :
  wf_model n m a b -> log_prob_model a b ->
  wf_sequence m obs -> obs <> [] ->
  (forall j x e, 0 <= j < n ->
     py_index2 a 0 j = Ok x -> emission b obs 0 j = Ok e ->
     x = F32.neg_inf \/ e = F32.neg_inf) ->
  run_viterbi n a b obs = Ok (replicate (length obs) 1, F32.neg_inf).
Proof.
  intros Hwf Hlp Hobs Hne Hfirst.
  destruct (run_viterbi_total n m a b obs Hwf Hobs Hne)
    as (tb & best & fs & path & Hfw & Hfill & Hterm & Hspec & Hbt & Hlen &
        Heq & Hrng & Hrun).
  pose proof (nonempty_length obs Hne) as HT.
  pose proof (n_pos n m a b Hwf) as Hn.
  destruct (am_none _ _ _ _ Hspec) as [-> ->].
  { intros j c Hj Hc.
    destruct (impossible_tables n a b obs tb Hlp Hfill Hfirst (length obs - 1)
                ltac:(lia) j Hj) as [HV _].
    replace (Z.of_nat (length obs - 1)) with (Z.of_nat (length obs) - 1)
      in HV by lia.
    assert (c = F32.neg_inf) as -> by congruence. reflexivity. }
  rewrite Hrun. do 2 f_equal.
  apply list_eq. intros i.
  destruct (decide (i < length obs)%nat) as [Hi|Hi].
  - rewrite (lookup_replicate_2 _ _ _ Hi).
    pose proof (impossible_path n a b obs tb Hn Hlp Hfill Hfirst 0 path
                  (length obs - 1 - i) Heq eq_refl ltac:(lia)) as Hp.
    replace (Z.of_nat (length obs) - 1 - Z.of_nat (length obs - 1 - i))
      with (Z.of_nat i) in Hp by lia.
    apply py_index_Ok in Hp; [|lia]. rewrite Nat2Z.id in Hp. exact Hp.
  - rewrite (proj2 (lookup_ge_None path i)) by lia.
    symmetry. apply lookup_ge_None. rewrite length_replicate. lia.
Qed.

Lemma impossible_sequence_witness :
  wf_model 2 2 unreachable_a [[F32.neg_inf; fzero]; [fzero; fzero]] /\
  log_prob_model unreachable_a [[F32.neg_inf; fzero]; [fzero; fzero]] /\
  wf_sequence 2 [1; 2; 2] /\ [1; 2; 2] <> [] /\
  (forall j x e, 0 <= j < 2 ->
     py_index2 unreachable_a 0 j = Ok x ->
     emission [[F32.neg_inf; fzero]; [fzero; fzero]] [1; 2; 2] 0 j = Ok e ->
     x = F32.neg_inf \/ e = F32.neg_inf) /\
  run_viterbi 2 unreachable_a [[F32.neg_inf; fzero]; [fzero; fzero]] [1; 2; 2]
  = Ok (replicate (length [1; 2; 2]) 1, F32.neg_inf).
Proof.
  assert (Hwf : wf_model 2 2 unreachable_a
                  [[F32.neg_inf; fzero]; [fzero; fzero]])
    by (unfold wf_model; repeat split; try lia; repeat constructor).
  assert (Hlp : log_prob_model unreachable_a
                  [[F32.neg_inf; fzero]; [fzero; fzero]])
    by (split; repeat constructor).
  assert (Hobs : wf_sequence 2 [1; 2; 2])
    by (unfold wf_sequence; repeat constructor; lia).
  assert (Hne : [1; 2; 2] <> ([] : list Z)) by discriminate.
  assert (Hfirst : forall j x e, 0 <= j < 2 ->
            py_index2 unreachable_a 0 j = Ok x ->
            emission [[F32.neg_inf; fzero]; [fzero; fzero]] [1; 2; 2] 0 j
            = Ok e ->
            x = F32.neg_inf \/ e = F32.neg_inf).
  { intros j x e Hj. assert (j = 0 \/ j = 1) as [-> | ->] by lia.
    - intros _ [= <-]. right. reflexivity.
    - intros [= <-] _. left. reflexivity. }
  repeat (split; [assumption|]).
  exact (impossible_sequence 2 2 unreachable_a
           [[F32.neg_inf; fzero]; [fzero; fzero]] [1; 2; 2]
           Hwf Hlp Hobs Hne Hfirst).
Defined.

(** Every entry of a loaded table is what [hex_to_float] made of a line. *)
Lemma load_matrix_entries (P : fp -> bool) rows cols lines A :
  load_matrix rows cols lines = Ok A ->
  Forall (fun line => forall v, hex_to_float (py_strip line) = Ok v ->
                      P v = true) lines ->
  Forall (Forall (fun x => P x = true)) A.
Proof.
  intros Hload Hlines.
  destruct (Z_le_gt_dec (Z.max 0 rows * Z.max 0 cols) (Z.of_nat (length lines)))
    as [Hle|Hgt].
  2:{ rewrite load_matrix_raise in Hload by lia. discriminate. }
  destruct (load_matrix_inv lines rows cols Hle) as (A' & HA' & [Hr Hc] & Hcell).
  assert (A' = A) as -> by congruence.
  apply Forall_lookup. intros i row Hrow.
  apply Forall_lookup. intros j x Hx.
  pose proof (lookup_lt_Some _ _ _ Hrow) as Hi.
  pose proof (Forall_lookup_1 _ _ _ _ Hc Hrow) as Hlen. simpl in Hlen.
  pose proof (lookup_lt_Some _ _ _ Hx) as Hj.
  destruct (Hcell (Z.of_nat i) (Z.of_nat j) ltac:(lia) ltac:(lia))
    as (line & Hline & Hv).
  rewrite py_index2_nonneg in Hv by lia.
  rewrite !Nat2Z.id, Hrow in Hv. simpl in Hv. rewrite Hx in Hv.
  apply py_index_elem in Hline.
  exact (proj1 (Forall_forall _ _) Hlines line Hline x (eq_sym Hv)).
Qed.

(** [X17] What holds of every token holds of every entry of the loaded
    model: when each line of the two table files decodes, through
    [hex_to_float], to a value satisfying [P], every entry of both tables
    satisfies [P].  With [P] the finite values (or the log-probabilities)
    the loaded model is one the decoder's equations are proved for. *)
Theorem loaded_entries (P : fp -> bool) (n_file a_file b_file : string)
    (N M : Z) (A B : matrix) :
  load_model n_file a_file b_file = Ok (N, M, A, B) ->
  Forall (fun line => forall v, hex_to_float (py_strip line) = Ok v ->
                      P v = true) (readlines a_file) ->
  Forall (fun line => forall v, hex_to_float (py_strip line) = Ok v ->
                      P v = true) (readlines b_file) ->
  entries A B P.
Proof.
  intros Hload Ha Hb. unfold load_model in Hload.
  destruct (readline (readlines n_file)) as [l1 f].
  apply bind_Ok in Hload as (N' & _ & Hload).
  destruct (readline f) as [l2 f'].
  apply bind_Ok in Hload as (M' & _ & Hload).
  apply bind_Ok in Hload as (A' & HA & Hload).
  apply bind_Ok in Hload as (B' & HB & Hload).
  injection Hload as -> -> -> ->.
  split; eapply load_matrix_entries; eassumption.
Qed.

Lemma loaded_entries_witness :
  load_model small_n_file small_a_file small_b_file
  = Ok (2, 2, small_a, small_b) /\
  Forall (fun line => forall v, hex_to_float (py_strip line) = Ok v ->
                      F32.is_finite v = true) (readlines small_a_file) /\
  Forall (fun line => forall v, hex_to_float (py_strip line) = Ok v ->
                      F32.is_finite v = true) (readlines small_b_file) /\
  entries small_a small_b F32.is_finite.
Proof.
  assert (H : load_model small_n_file small_a_file small_b_file
              = Ok (2, 2, small_a, small_b)) by (vm_compute; reflexivity).
  assert (Ha : Forall (fun line => forall v,
                 hex_to_float (py_strip line) = Ok v ->
                 F32.is_finite v = true) (readlines small_a_file))
    by (repeat constructor; intros v [= <-]; reflexivity).
  assert (Hb : Forall (fun line => forall v,
                 hex_to_float (py_strip line) = Ok v ->
                 F32.is_finite v = true) (readlines small_b_file))
    by (repeat constructor; intros v [= <-]; reflexivity).
  repeat (split; [assumption|]).
  exact (loaded_entries F32.is_finite small_n_file small_a_file small_b_file
           2 2 small_a small_b H Ha Hb).
Defined.
